(** * cronos-mcp: the x402 payment-authorization engine

    A shallow embedding of the TypeScript sources of the payment engine
    (core utilities, facilitator client, payment handler, middleware, tool
    route, payment signing, client and budget manager), followed by the
    properties established about them.

    Conventions of the embedding.
    - A JavaScript string is a [string]; its characters are the bytes of its
      UTF-8 encoding, so an ASCII string is represented character for
      character.
    - A [bigint] is a [Z].  A [number] that the code uses as an integer
      (time stamps, time-outs, HTTP status codes, delays) is a [Z]; loop
      counters and retry counts are [nat].
    - Code that can throw returns a [Completion]; code that reads or writes
      an object's fields, the network, the clock or the log of effects is a
      state-passing function in the monad [M]. *)

From Stdlib Require Import String Ascii List ZArith Lia Bool.
From Stdlib Require Import Decimal DecimalString DecimalZ DecimalN DecimalPos DecimalFacts.
Import ListNotations.

Local Open Scope string_scope.
Local Open Scope Z_scope.

(* ========================================================================= *)
(** * JavaScript runtime: completions, exceptions, BigInt                    *)
(* ========================================================================= *)

Module Js.

(** A thrown value: an [Error] object (with its constructor name and its
    message) or any other value, of which only [String(value)] is kept. *)
Inductive Thrown : Type :=
| ErrorObject (name message : string)
| NonError (str : string).

(** [new Error(message)] *)
Definition Error (message : string) : Thrown := ErrorObject "Error" message.

(** [error instanceof Error] *)
Definition instanceof_Error (e : Thrown) : bool :=
  match e with ErrorObject _ _ => true | NonError _ => false end.

(** [String(error)] for a thrown value *)
Definition String_of (e : Thrown) : string :=
  match e with
  | ErrorObject name message =>
      if String.eqb message "" then name
      else if String.eqb name "" then message
      else name ++ ": " ++ message
  | NonError str => str
  end.

(** [error.message] of an [Error] object *)
Definition message_of (e : Thrown) : string :=
  match e with ErrorObject _ m => m | NonError _ => "" end.

(** The value thrown by [throw undefined]. *)
Definition undefined_thrown : Thrown := NonError "undefined".

Inductive Completion (A : Type) : Type :=
| Normal (a : A)
| Throw (e : Thrown).
Arguments Normal {A} a.
Arguments Throw {A} e.

(** Truthiness of a string: only the empty string is falsy. *)
Definition truthy (s : string) : bool := negb (String.eqb s "").

(** [s || fallback] for an optional string ([undefined]/[null] is [None]). *)
Definition or_default (s : option string) (fallback : string) : string :=
  match s with
  | Some v => if truthy v then v else fallback
  | None => fallback
  end.

(** ** State and exception monad *)

Definition M (S A : Type) : Type := S -> Completion A * S.

Definition ret {S A} (a : A) : M S A := fun s => (Normal a, s).

Definition bind {S A B} (c : M S A) (k : A -> M S B) : M S B :=
  fun s =>
    match c s with
    | (Normal a, s') => k a s'
    | (Throw e, s') => (Throw e, s')
    end.

Definition throw {S A} (e : Thrown) : M S A := fun s => (Throw e, s).

(** [try { body } catch (error) { handler(error) }] *)
Definition try_catch {S A} (body : M S A) (handler : Thrown -> M S A) : M S A :=
  fun s =>
    match body s with
    | (Normal a, s') => (Normal a, s')
    | (Throw e, s') => handler e s'
    end.

Definition get {S} : M S S := fun s => (Normal s, s).
Definition put {S} (s : S) : M S unit := fun _ => (Normal tt, s).
Definition modify {S} (f : S -> S) : M S unit := fun s => (Normal tt, f s).

(** Lifts a pure completion into the monad. *)
Definition lift {S A} (c : Completion A) : M S A := fun s => (c, s).

(** ** Decimal and radix digits *)

Definition code (c : ascii) : Z := Z.of_nat (nat_of_ascii c).

Definition digit_value (c : ascii) : option Z :=
  let n := code c in
  if (48 <=? n) && (n <=? 57) then Some (n - 48)
  else if (97 <=? n) && (n <=? 122) then Some (n - 87)
  else if (65 <=? n) && (n <=? 90) then Some (n - 55)
  else None.

Fixpoint digits_value (radix : Z) (s : string) (acc : Z) : option Z :=
  match s with
  | EmptyString => Some acc
  | String c r =>
      match digit_value c with
      | Some d => if d <? radix then digits_value radix r (acc * radix + d) else None
      | None => None
      end
  end.

(** One or more digits of the radix. *)
Definition parse_digits (radix : Z) (s : string) : option Z :=
  match s with
  | EmptyString => None
  | _ => digits_value radix s 0
  end.

(** [StrWhiteSpaceChar], the white space and the line terminators that
    [StringToBigInt] strips.  A text is kept as its UTF-8 bytes, so a
    character above U+007F is a sequence of bytes.  Below U+0080: TAB, LF,
    VT, FF, CR and SPACE. *)
Definition is_white_space (c : ascii) : bool :=
  let n := code c in
  (n =? 9) || (n =? 10) || (n =? 11) || (n =? 12) || (n =? 13) || (n =? 32).

(** U+00A0 (no-break space) is [C2 A0]. *)
Definition is_white_space2 (c1 c2 : ascii) : bool :=
  (code c1 =? 194) && (code c2 =? 160).

(** U+1680 is [E1 9A 80]; U+2000 to U+200A, the line and paragraph
    separators U+2028 and U+2029, and U+202F are [E2 80 80] to [E2 80 8A],
    [E2 80 A8], [E2 80 A9] and [E2 80 AF]; U+205F is [E2 81 9F]; U+3000 is
    [E3 80 80]; U+FEFF (byte order mark) is [EF BB BF]. *)
Definition is_white_space3 (c1 c2 c3 : ascii) : bool :=
  let n1 := code c1 in
  let n2 := code c2 in
  let n3 := code c3 in
  ((n1 =? 225) && (n2 =? 154) && (n3 =? 128))
  || ((n1 =? 226) && (n2 =? 128)
      && (((128 <=? n3) && (n3 <=? 138)) || (n3 =? 168) || (n3 =? 169) || (n3 =? 175)))
  || ((n1 =? 226) && (n2 =? 129) && (n3 =? 159))
  || ((n1 =? 227) && (n2 =? 128) && (n3 =? 128))
  || ((n1 =? 239) && (n2 =? 187) && (n3 =? 191)).

(** The text without the white space it starts with. *)
Fixpoint trim_start (s : string) : string :=
  match s with
  | EmptyString => EmptyString
  | String c1 r1 =>
      if is_white_space c1 then trim_start r1
      else
        match r1 with
        | EmptyString => s
        | String c2 r2 =>
            if is_white_space2 c1 c2 then trim_start r2
            else
              match r2 with
              | EmptyString => s
              | String c3 r3 => if is_white_space3 c1 c2 c3 then trim_start r3 else s
              end
        end
  end.

(** The text is white space from its first character to its last. *)
Definition white_space_only (s : string) : bool :=
  match trim_start s with
  | EmptyString => true
  | String _ _ => false
  end.

(** The text without the white space it ends with. *)
Fixpoint trim_end (s : string) : string :=
  match s with
  | EmptyString => EmptyString
  | String c r => if white_space_only s then EmptyString else String c (trim_end r)
  end.

Definition trim (s : string) : string := trim_end (trim_start s).

(** [StringToBigInt]: the text is trimmed; the empty text is [0n]; a
    decimal literal may carry a sign; [0x], [0o] and [0b] literals may
    not.  [None] is the [SyntaxError] case. *)
Definition StringToBigInt (s : string) : option Z :=
  match trim s with
  | EmptyString => Some 0
  | String "+" r => parse_digits 10 r
  | String "-" r => option_map Z.opp (parse_digits 10 r)
  | String "0" (String "x" r) | String "0" (String "X" r) => parse_digits 16 r
  | String "0" (String "o" r) | String "0" (String "O" r) => parse_digits 8 r
  | String "0" (String "b" r) | String "0" (String "B" r) => parse_digits 2 r
  | t => parse_digits 10 t
  end.

(** [BigInt(s)] for a string argument. *)
Definition BigInt (s : string) : Completion Z :=
  match StringToBigInt s with
  | Some z => Normal z
  | None => Throw (ErrorObject "SyntaxError" ("Cannot convert " ++ s ++ " to a BigInt"))
  end.

(** [z.toString()] for a bigint, and for an integral number below 1e21. *)
Definition toString (z : Z) : string := NilZero.string_of_int (Z.to_int z).

End Js.

Import Js.

Declare Scope js_scope.
Delimit Scope js_scope with js.
Notation "x <- c ;; k" := (Js.bind c (fun x => k))
  (at level 61, c at next level, right associativity) : js_scope.
Notation "c ;;; k" := (Js.bind c (fun _ => k))
  (at level 61, right associativity) : js_scope.

(* ========================================================================= *)
(** * client-sdk: budget management                                          *)
(* ========================================================================= *)

Module Budget.

Record BudgetTransaction : Type := mkBudgetTransaction {
  toolName : string;
  serverUrl : string;
  amount : string;
  txHash : string;
  timestamp : Z
}.

(** [Omit<BudgetTransaction, 'timestamp'>] *)
Record SpendingEntry : Type := mkSpendingEntry {
  entry_toolName : string;
  entry_serverUrl : string;
  entry_amount : string;
  entry_txHash : string
}.

Record BudgetState : Type := mkBudgetState {
  state_total : string;
  state_spent : string;
  state_remaining : string;
  state_transactions : list BudgetTransaction
}.

(** The private fields of a [BudgetManager]. *)
Record BudgetManager : Type := mkBudgetManager {
  total : Z;
  spent : Z;
  transactions : list BudgetTransaction
}.

(** [new BudgetManager(totalBudget)] *)
Definition new (totalBudget : string) : Completion BudgetManager :=
  match BigInt totalBudget with
  | Normal t => Normal (mkBudgetManager t 0 [])
  | Throw e => Throw e
  end.

Definition canSpend (amount : string) : M BudgetManager bool :=
  fun this =>
    match BigInt amount with
    | Normal a => (Normal (spent this + a <=? total this), this)
    | Throw e => (Throw e, this)
    end.

(** The transaction is pushed before the amount is converted. *)
Definition recordSpending (now : Z) (transaction : SpendingEntry) : M BudgetManager unit :=
  fun this =>
    let tx := mkBudgetTransaction (entry_toolName transaction) (entry_serverUrl transaction)
                (entry_amount transaction) (entry_txHash transaction) now in
    let this1 := mkBudgetManager (total this) (spent this) (transactions this ++ [tx]) in
    match BigInt (entry_amount transaction) with
    | Normal a => (Normal tt, mkBudgetManager (total this1) (spent this1 + a) (transactions this1))
    | Throw e => (Throw e, this1)
    end.

Definition getState (this : BudgetManager) : BudgetState :=
  mkBudgetState (toString (total this)) (toString (spent this))
    (toString (total this - spent this)) (transactions this).

Definition getRemaining (this : BudgetManager) : Z := total this - spent this.

Definition getSpent (this : BudgetManager) : Z := spent this.

Definition reset : M BudgetManager unit :=
  fun this => (Normal tt, mkBudgetManager (total this) 0 []).

Definition setTotal (newTotal : string) : M BudgetManager unit :=
  fun this =>
    match BigInt newTotal with
    | Normal t => (Normal tt, mkBudgetManager t (spent this) (transactions this))
    | Throw e => (Throw e, this)
    end.

Definition getTransactions (this : BudgetManager) : list BudgetTransaction :=
  transactions this.

Definition getTransactionsByServer (serverUrl0 : string) (this : BudgetManager)
  : list BudgetTransaction :=
  filter (fun tx => String.eqb (serverUrl tx) serverUrl0) (transactions this).

Definition createBudgetManager (totalBudget : string) : Completion BudgetManager :=
  new totalBudget.

(** A caller issuing one [recordSpending] call after the other, each at its
    own clock reading, and carrying on after a call that throws. *)
Fixpoint recordEach (calls : list (Z * SpendingEntry)) (this : BudgetManager)
  : list (Completion unit) * BudgetManager :=
  match calls with
  | [] => ([], this)
  | (now, transaction) :: rest =>
      let '(r, this1) := recordSpending now transaction this in
      let '(rs, this2) := recordEach rest this1 in
      (r :: rs, this2)
  end.

End Budget.

(* ========================================================================= *)
(** * Node runtime: Buffer, base64 and JSON                                  *)
(* ========================================================================= *)

Module Buffer.

Definition Buffer : Type := list ascii.

Definition byte (n : Z) : ascii := ascii_of_nat (Z.to_nat n).

(** [Buffer.from(text)]: the UTF-8 bytes of the text. *)
Definition from_utf8 (text : string) : Buffer := list_ascii_of_string text.

(** [buffer.toString('utf-8')].  Node replaces a malformed sequence by
    U+FFFD; the embedding keeps the bytes.  Either way the character is
    outside ASCII, which JSON accepts inside a string literal and nowhere
    else. *)
Definition toString_utf8 (b : Buffer) : string := string_of_list_ascii b.

(** The base64 alphabet of RFC 4648, section 4. *)
Definition base64_char (n : Z) : ascii :=
  if n <? 26 then byte (65 + n)
  else if n <? 52 then byte (97 + (n - 26))
  else if n <? 62 then byte (48 + (n - 52))
  else if n =? 62 then "+"%char
  else "/"%char.

(** Value of a base64 character; the decoder also accepts the URL-safe
    characters [-] and [_]. *)
Definition unbase64 (c : ascii) : option Z :=
  let n := code c in
  if (65 <=? n) && (n <=? 90) then Some (n - 65)
  else if (97 <=? n) && (n <=? 122) then Some (n - 71)
  else if (48 <=? n) && (n <=? 57) then Some (n + 4)
  else if (n =? 43) || (n =? 45) then Some 62
  else if (n =? 47) || (n =? 95) then Some 63
  else None.

(** [buffer.toString('base64')]: three bytes give four characters; a last
    group of one or two bytes is padded with [=]. *)
Fixpoint toString_base64 (b : Buffer) : string :=
  match b with
  | [] => EmptyString
  | [x] =>
      String (base64_char (code x / 4))
        (String (base64_char ((code x mod 4) * 16)) "==")
  | [x; y] =>
      String (base64_char (code x / 4))
        (String (base64_char ((code x mod 4) * 16 + code y / 16))
           (String (base64_char ((code y mod 16) * 4)) "="))
  | x :: y :: z :: rest =>
      String (base64_char (code x / 4))
        (String (base64_char ((code x mod 4) * 16 + code y / 16))
           (String (base64_char ((code y mod 16) * 4 + code z / 64))
              (String (base64_char (code z mod 64)) (toString_base64 rest))))
  end.

(** The decoder of [Buffer.from(text, 'base64')] never fails: it skips the
    characters outside the alphabet and stops at the first [=]. *)
Fixpoint sextets (text : string) : list Z :=
  match text with
  | EmptyString => []
  | String c rest =>
      if Ascii.eqb c "="%char then []
      else match unbase64 c with
           | Some v => v :: sextets rest
           | None => sextets rest
           end
  end.

Fixpoint bytes_of_sextets (l : list Z) : Buffer :=
  match l with
  | a :: b :: c :: d :: rest =>
      byte (a * 4 + b / 16) :: byte ((b mod 16) * 16 + c / 4)
        :: byte ((c mod 4) * 64 + d) :: bytes_of_sextets rest
  | [a; b; c] => [byte (a * 4 + b / 16); byte ((b mod 16) * 16 + c / 4)]
  | [a; b] => [byte (a * 4 + b / 16)]
  | _ => []
  end.

Definition from_base64 (text : string) : Buffer := bytes_of_sextets (sextets text).

End Buffer.

Module JSON.

(** A parsed JSON text.  A number literal without fraction and exponent is
    an integer; any other number literal keeps its text (floating point is
    not interpreted).  An object lists its members in insertion order (the
    reordering of keys that look like array indices is not modelled). *)
#[warnings="-register-all"]
Inductive Json : Type :=
| JNull
| JBool (b : bool)
| JNumber (z : Z)
| JFraction (lexeme : string)
| JString (s : string)
| JArray (items : list Json)
| JObject (members : list (string * Json)).

Definition dquote : ascii := "034"%char.
Definition backslash : ascii := "\"%char.

Definition hex_digit (n : Z) : ascii :=
  if n <? 10 then Buffer.byte (48 + n) else Buffer.byte (87 + n).

(** [QuoteJSONString], one character at a time. *)
Definition quote_char (c : ascii) : string :=
  let n := code c in
  if n =? 34 then String backslash (String dquote "")
  else if n =? 92 then "\\"
  else if n =? 8 then "\b"
  else if n =? 12 then "\f"
  else if n =? 10 then "\n"
  else if n =? 13 then "\r"
  else if n =? 9 then "\t"
  else if n <? 32 then "\u00" ++ String (hex_digit (n / 16)) (String (hex_digit (n mod 16)) "")
  else String c "".

Fixpoint quote_body (s : string) : string :=
  match s with
  | EmptyString => EmptyString
  | String c r => quote_char c ++ quote_body r
  end.

Definition quote (s : string) : string :=
  String dquote (quote_body s ++ String dquote "").

(** [JSON.stringify(value)] *)
Fixpoint stringify (j : Json) : string :=
  match j with
  | JNull => "null"
  | JBool b => if b then "true" else "false"
  | JNumber z => toString z
  | JFraction lexeme => lexeme
  | JString s => quote s
  | JArray items => "[" ++ String.concat "," (map stringify items) ++ "]"
  | JObject members =>
      "{" ++ String.concat ","
               (map (fun kv => quote (fst kv) ++ ":" ++ stringify (snd kv)) members) ++ "}"
  end.

(** ** [JSON.parse] *)

Definition is_json_space (c : ascii) : bool :=
  let n := code c in (n =? 32) || (n =? 9) || (n =? 10) || (n =? 13).

Fixpoint skip_ws (s : string) : string :=
  match s with
  | EmptyString => EmptyString
  | String c r => if is_json_space c then skip_ws r else s
  end.

Definition is_digit (c : ascii) : bool := let n := code c in (48 <=? n) && (n <=? 57).

(** The UTF-8 bytes of the code unit written by a [\uXXXX] escape.  Two
    escapes that form a surrogate pair are not joined; [stringify] writes
    escapes only for the control characters. *)
Definition utf8_of_code_unit (u : Z) : string :=
  if u <? 128 then String (Buffer.byte u) ""
  else if u <? 2048 then
    String (Buffer.byte (192 + u / 64)) (String (Buffer.byte (128 + u mod 64)) "")
  else
    String (Buffer.byte (224 + u / 4096))
      (String (Buffer.byte (128 + (u / 64) mod 64)) (String (Buffer.byte (128 + u mod 64)) "")).

Definition hex_value (c : ascii) : option Z :=
  match digit_value c with
  | Some d => if d <? 16 then Some d else None
  | None => None
  end.

Definition simple_escape (c : ascii) : option ascii :=
  let n := code c in
  if n =? 34 then Some dquote
  else if n =? 92 then Some backslash
  else if n =? 47 then Some "/"%char
  else if n =? 98 then Some (Buffer.byte 8)
  else if n =? 102 then Some (Buffer.byte 12)
  else if n =? 110 then Some (Buffer.byte 10)
  else if n =? 114 then Some (Buffer.byte 13)
  else if n =? 116 then Some (Buffer.byte 9)
  else None.

Definition prepend (p : string) (r : option (string * string)) : option (string * string) :=
  match r with
  | Some (str, rest) => Some (p ++ str, rest)
  | None => None
  end.

(** The characters of a string literal after its opening quote. *)
Fixpoint parse_string_body (s : string) : option (string * string) :=
  match s with
  | EmptyString => None
  | String c r =>
      if Ascii.eqb c dquote then Some (EmptyString, r)
      else if Ascii.eqb c backslash then
        match r with
        | EmptyString => None
        | String e r1 =>
            match simple_escape e with
            | Some ch => prepend (String ch "") (parse_string_body r1)
            | None =>
                if Ascii.eqb e "u"%char then
                  match r1 with
                  | String h1 (String h2 (String h3 (String h4 r2))) =>
                      match hex_value h1, hex_value h2, hex_value h3, hex_value h4 with
                      | Some a, Some b, Some c', Some d =>
                          prepend (utf8_of_code_unit (((a * 16 + b) * 16 + c') * 16 + d))
                            (parse_string_body r2)
                      | _, _, _, _ => None
                      end
                  | _ => None
                  end
                else None
            end
        end
      else if code c <? 32 then None
      else prepend (String c "") (parse_string_body r)
  end.

Fixpoint span_digits (s : string) : string * string :=
  match s with
  | EmptyString => (EmptyString, EmptyString)
  | String c r =>
      if is_digit c then let '(ds, rest) := span_digits r in (String c ds, rest)
      else (EmptyString, s)
  end.

Definition digits_to_Z (ds : string) : Z :=
  match NilEmpty.uint_of_string ds with
  | Some d => Z.of_N (N.of_uint d)
  | None => 0
  end.

(** Optional fraction: a dot followed by at least one digit. *)
Definition parse_fraction (s : string) : option (string * string) :=
  match s with
  | String "." r =>
      match span_digits r with
      | (EmptyString, _) => None
      | (ds, rest) => Some (String "." ds, rest)
      end
  | _ => Some (EmptyString, s)
  end.

(** Optional exponent: [e] or [E], an optional sign, at least one digit. *)
Definition parse_exponent (s : string) : option (string * string) :=
  match s with
  | String c r =>
      if Ascii.eqb c "e"%char || Ascii.eqb c "E"%char then
        let '(sign, r1) :=
          match r with
          | String "+" r' => ("+", r')
          | String "-" r' => ("-", r')
          | _ => (EmptyString, r)
          end in
        match span_digits r1 with
        | (EmptyString, _) => None
        | (ds, rest) => Some (String c (sign ++ ds), rest)
        end
      else Some (EmptyString, s)
  | EmptyString => Some (EmptyString, s)
  end.

Definition finish_number (negative : bool) (int_part rest : string) : option (Json * string) :=
  match parse_fraction rest with
  | None => None
  | Some (frac, r1) =>
      match parse_exponent r1 with
      | None => None
      | Some (exp, r2) =>
          match frac, exp with
          | EmptyString, EmptyString =>
              Some (JNumber (if negative then - digits_to_Z int_part else digits_to_Z int_part), r2)
          | _, _ =>
              Some (JFraction ((if negative then "-" else "") ++ int_part ++ frac ++ exp), r2)
          end
      end
  end.

(** A number: an optional minus, then [0] or a digit sequence that does not
    start with [0], then the optional fraction and exponent. *)
Definition parse_number (s : string) : option (Json * string) :=
  let '(negative, s1) :=
    match s with
    | String "-" r => (true, r)
    | _ => (false, s)
    end in
  match s1 with
  | EmptyString => None
  | String c r =>
      if Ascii.eqb c "0"%char then finish_number negative "0" r
      else if is_digit c then
        let '(ds, rest) := span_digits s1 in finish_number negative ds rest
      else None
  end.

Fixpoint expect (word s : string) : option string :=
  match word with
  | EmptyString => Some s
  | String w word' =>
      match s with
      | String c r => if Ascii.eqb c w then expect word' r else None
      | EmptyString => None
      end
  end.

(** Assignment of a property: a repeated key keeps its place and takes the
    later value. *)
Fixpoint set_member (k : string) (v : Json) (l : list (string * Json)) : list (string * Json) :=
  match l with
  | [] => [(k, v)]
  | (k', v') :: r => if String.eqb k' k then (k, v) :: r else (k', v') :: set_member k v r
  end.

Definition build_object (members : list (string * Json)) : Json :=
  JObject (fold_left (fun acc kv => set_member (fst kv) (snd kv) acc) members []).

Fixpoint parse_value (fuel : nat) (s : string) : option (Json * string) :=
  match fuel with
  | O => None
  | S f =>
      match skip_ws s with
      | EmptyString => None
      | String c r =>
          if Ascii.eqb c "{"%char then
            match skip_ws r with
            | String c1 r1 =>
                if Ascii.eqb c1 "}"%char then Some (JObject [], r1)
                else match parse_members f (String c1 r1) with
                     | Some (ms, r2) => Some (build_object ms, r2)
                     | None => None
                     end
            | EmptyString => None
            end
          else if Ascii.eqb c "["%char then
            match skip_ws r with
            | String c1 r1 =>
                if Ascii.eqb c1 "]"%char then Some (JArray [], r1)
                else match parse_elements f (String c1 r1) with
                     | Some (vs, r2) => Some (JArray vs, r2)
                     | None => None
                     end
            | EmptyString => None
            end
          else if Ascii.eqb c dquote then
            match parse_string_body r with
            | Some (str, r1) => Some (JString str, r1)
            | None => None
            end
          else if Ascii.eqb c "t"%char then
            match expect "rue" r with Some r1 => Some (JBool true, r1) | None => None end
          else if Ascii.eqb c "f"%char then
            match expect "alse" r with Some r1 => Some (JBool false, r1) | None => None end
          else if Ascii.eqb c "n"%char then
            match expect "ull" r with Some r1 => Some (JNull, r1) | None => None end
          else parse_number (String c r)
      end
  end

with parse_elements (fuel : nat) (s : string) : option (list Json * string) :=
  match fuel with
  | O => None
  | S f =>
      match parse_value f s with
      | None => None
      | Some (v, r) =>
          match skip_ws r with
          | String c r1 =>
              if Ascii.eqb c ","%char then
                match parse_elements f r1 with
                | Some (vs, r2) => Some (v :: vs, r2)
                | None => None
                end
              else if Ascii.eqb c "]"%char then Some ([v], r1)
              else None
          | EmptyString => None
          end
      end
  end

with parse_members (fuel : nat) (s : string) : option (list (string * Json) * string) :=
  match fuel with
  | O => None
  | S f =>
      match skip_ws s with
      | EmptyString => None
      | String q r =>
          if Ascii.eqb q dquote then
            match parse_string_body r with
            | None => None
            | Some (k, r1) =>
                match skip_ws r1 with
                | EmptyString => None
                | String colon r2 =>
                    if Ascii.eqb colon ":"%char then
                      match parse_value f r2 with
                      | None => None
                      | Some (v, r3) =>
                          match skip_ws r3 with
                          | String c r4 =>
                              if Ascii.eqb c ","%char then
                                match parse_members f r4 with
                                | Some (ms, r5) => Some ((k, v) :: ms, r5)
                                | None => None
                                end
                              else if Ascii.eqb c "}"%char then Some ([(k, v)], r4)
                              else None
                          | EmptyString => None
                          end
                      end
                    else None
                end
            end
          else None
      end
  end.

Definition SyntaxError : Thrown := ErrorObject "SyntaxError" "Unexpected token in JSON".

(** [JSON.parse(text)]: one value, optionally surrounded by white space.
    Every level of nesting and every element consumes a character, so the
    fuel below is never exhausted on a well-formed text. *)
Definition parse (text : string) : Completion Json :=
  match parse_value (2 * String.length text + 2) text with
  | Some (j, rest) =>
      match skip_ws rest with
      | EmptyString => Normal j
      | _ => Throw SyntaxError
      end
  | None => Throw SyntaxError
  end.

(** Property read [value.key] on a parsed object ([None] is [undefined]). *)
Definition member (key : string) (j : Json) : option Json :=
  match j with
  | JObject members =>
      match find (fun kv => String.eqb (fst kv) key) members with
      | Some kv => Some (snd kv)
      | None => None
      end
  | _ => None
  end.

End JSON.

(* ========================================================================= *)
(** * The world outside the program                                          *)
(* ========================================================================= *)

Module World.

(** What [fetch] followed by [response.text()] and [JSON.parse] can give:
    the call rejects, or a response arrives with a status, a text, and the
    value [JSON.parse] reads from the text taken at the declared type of
    the response ([None]: the text is not JSON). *)
Inductive FetchOutcome (B : Type) : Type :=
| FetchRejects (e : Thrown)
| FetchResponds (status : Z) (text : string) (body : option B).
Arguments FetchRejects {B} e.
Arguments FetchResponds {B} status text body.

(** [response.ok] *)
Definition response_ok (status : Z) : bool := (200 <=? status) && (status <=? 299).

(** [VerifyResponse] of the facilitator client. *)
Record VerifyResponse : Type := mkVerifyResponse {
  isValid : bool;
  invalidReason : option string;
  payer : option string
}.

(** The parsed body of a settle response, before it is mapped. *)
Record SettleData : Type := mkSettleData {
  data_event : option string;
  data_txHash : option string;
  data_from : option string;
  data_to : option string;
  data_value : option string;
  data_blockNumber : option Z;
  data_network : option string;
  data_timestamp : option string;
  data_error : option string
}.

(** Effects, in the order in which they happen. *)
Inductive Event : Type :=
| Slept (ms : Z)
| Fetched (url : string) (paymentHeader : string)
| LedgerSet (id : string)
| HandlerInvoked (tool : string).

Record PaymentRecord : Type := mkPaymentRecord {
  id : string;
  toolName : string;
  amount : string;
  payer_of : string;
  txHash : string;
  timestamp : Z;
  status : string
}.

(** The environment (clock, facilitator, sources of randomness), the log of
    effects, and the mutable fields of the objects of one server:
    [PaymentHandler.payments] and [MCPServer.toolCalls]. *)
Record World : Type := mkWorld {
  clock : Z;
  verify_net : nat -> FetchOutcome VerifyResponse;
  settle_net : nat -> FetchOutcome SettleData;
  fetches : nat;
  uuid_source : nat -> string;
  uuids : nat;
  nonce_source : nat -> string;
  nonces : nat;
  log : list Event;
  payments : list (string * PaymentRecord);
  toolCalls : list (string * Z)
}.

Definition with_log (w : World) (e : Event) : World :=
  mkWorld (clock w) (verify_net w) (settle_net w) (fetches w) (uuid_source w) (uuids w)
    (nonce_source w) (nonces w) (log w ++ [e]) (payments w) (toolCalls w).

Definition with_fetch (w : World) (url header : string) : World :=
  mkWorld (clock w) (verify_net w) (settle_net w) (S (fetches w)) (uuid_source w) (uuids w)
    (nonce_source w) (nonces w) (log w ++ [Fetched url header]) (payments w) (toolCalls w).

Definition with_payments (w : World) (ps : list (string * PaymentRecord)) : World :=
  mkWorld (clock w) (verify_net w) (settle_net w) (fetches w) (uuid_source w) (uuids w)
    (nonce_source w) (nonces w) (log w) ps (toolCalls w).

Definition with_toolCalls (w : World) (tc : list (string * Z)) : World :=
  mkWorld (clock w) (verify_net w) (settle_net w) (fetches w) (uuid_source w) (uuids w)
    (nonce_source w) (nonces w) (log w) (payments w) tc.

(** [Date.now()] *)
Definition Date_now : M World Z := fun w => (Normal (clock w), w).

(** [await new Promise(resolve => setTimeout(resolve, ms))] *)
Definition sleep (ms : Z) : M World unit :=
  fun w =>
    (Normal tt,
     mkWorld (clock w + Z.max 0 ms) (verify_net w) (settle_net w) (fetches w) (uuid_source w)
       (uuids w) (nonce_source w) (nonces w) (log w ++ [Slept ms]) (payments w) (toolCalls w)).

(** [crypto.randomUUID()] *)
Definition randomUUID : M World string :=
  fun w =>
    (Normal (uuid_source w (uuids w)),
     mkWorld (clock w) (verify_net w) (settle_net w) (fetches w) (uuid_source w) (S (uuids w))
       (nonce_source w) (nonces w) (log w) (payments w) (toolCalls w)).

(** Thirty-two random bytes, written as [0x] and sixty-four hex digits. *)
Definition random_nonce : M World string :=
  fun w =>
    (Normal (nonce_source w (nonces w)),
     mkWorld (clock w) (verify_net w) (settle_net w) (fetches w) (uuid_source w) (uuids w)
       (nonce_source w) (S (nonces w)) (log w) (payments w) (toolCalls w)).

(** [map.set(key, value)] and [map.get(key)] of a JavaScript [Map]. *)
Fixpoint map_set {V} (k : string) (v : V) (m : list (string * V)) : list (string * V) :=
  match m with
  | [] => [(k, v)]
  | (k', v') :: r => if String.eqb k' k then (k, v) :: r else (k', v') :: map_set k v r
  end.

Fixpoint map_get {V} (k : string) (m : list (string * V)) : option V :=
  match m with
  | [] => None
  | (k', v') :: r => if String.eqb k' k then Some v' else map_get k r
  end.

(** The sleeps and the handler invocations of a log. *)
Fixpoint sleeps (l : list Event) : list Z :=
  match l with
  | [] => []
  | Slept ms :: r => ms :: sleeps r
  | _ :: r => sleeps r
  end.

Fixpoint invocations (l : list Event) : nat :=
  match l with
  | [] => O
  | HandlerInvoked _ :: r => S (invocations r)
  | _ :: r => invocations r
  end.

(** The ledger writes of a log. *)
Fixpoint ledger_writes (l : list Event) : nat :=
  match l with
  | [] => O
  | LedgerSet _ :: r => S (ledger_writes r)
  | _ :: r => ledger_writes r
  end.

(** The requests of a log that went to a given URL. *)
Fixpoint requests_to (url : string) (l : list Event) : nat :=
  match l with
  | [] => O
  | Fetched u _ :: r => ((if String.eqb u url then 1 else 0) + requests_to url r)%nat
  | _ :: r => requests_to url r
  end.

End World.

Import World.

(* ========================================================================= *)
(** * core: constants, types and utilities                                   *)
(* ========================================================================= *)

Module Core.

Inductive Network : Type := testnet | mainnet.

Record NetworkConfig : Type := mkNetworkConfig {
  net_name : string;
  chainId : Z;
  networkId : string;
  rpcUrl : string;
  explorerUrl : string;
  usdcAddress : string;
  usdcDecimals : Z
}.

Definition EIP712_DOMAIN_NAME : string := "Bridged USDC (Stargate)".
Definition EIP712_DOMAIN_VERSION : string := "1".

Definition CRONOS_NETWORKS_TESTNET : NetworkConfig :=
  mkNetworkConfig "Cronos Testnet" 338 "cronos-testnet" "https://evm-t3.cronos.org"
    "https://explorer.cronos.org/testnet" "0xc01efAaF7C5C61bEbFAeb358E1161b537b8bC0e0" 6.

Definition CRONOS_NETWORKS_MAINNET : NetworkConfig :=
  mkNetworkConfig "Cronos Mainnet" 25 "cronos-mainnet" "https://evm.cronos.org"
    "https://explorer.cronos.org" "0xf951eC28187D9E5Ca673Da8FE6757E6f0Be5F77C" 6.

Definition getNetworkConfig (network : Network) : NetworkConfig :=
  match network with
  | mainnet => CRONOS_NETWORKS_MAINNET
  | testnet => CRONOS_NETWORKS_TESTNET
  end.

Definition FACILITATOR_URL : string := "https://facilitator.cronoslabs.org/v2/x402".
Definition FACILITATOR_ENDPOINTS_VERIFY : string := "/verify".
Definition FACILITATOR_ENDPOINTS_SETTLE : string := "/settle".

Definition X402_VERSION : Z := 1.
Definition PAYMENT_SCHEMES_EXACT : string := "exact".

Definition TIMEOUTS_PAYMENT_VALIDITY : Z := 300.
Definition TIMEOUTS_VERIFY : Z := 30.
Definition TIMEOUTS_SETTLE : Z := 60.

Definition X402_CONSTANTS_VERSION : Z := X402_VERSION.

Record PaymentRequirements : Type := mkPaymentRequirements {
  scheme : string;
  network : string;
  maxAmountRequired : string;
  resource : string;
  description : option string;
  mimeType : string;
  payTo : string;
  maxTimeoutSeconds : Z;
  asset : string
}.

Record PricedTool : Type := mkPricedTool {
  name : string;
  tool_description : string;
  price : string;
  inputSchema : JSON.Json
}.

(** [Math.floor(Date.now() / 1000) + timeoutSeconds] *)
Definition calculateValidBefore (timeoutSeconds : Z) : M World Z :=
  (now <- Date_now ;; ret (now / 1000 + timeoutSeconds))%js.

(** [error as Error]: a cast, the value is kept as thrown. *)
Definition as_Error (e : Thrown) : Thrown := e.

(** The [for] loop of [retry], entered with [attempt] and with
    [maxRetries - attempt = remaining]. *)
Fixpoint retry_from {T} (fn : M World T) (maxRetries : nat) (baseDelay : Z)
         (remaining attempt : nat) (lastError : option Thrown) : M World T :=
  match remaining with
  | O =>
      match lastError with
      | Some e => throw e
      | None => throw undefined_thrown
      end
  | S remaining' =>
      try_catch fn
        (fun error =>
           ((if Z.of_nat attempt <? Z.of_nat maxRetries - 1
             then sleep (baseDelay * 2 ^ Z.of_nat attempt)
             else ret tt) ;;;
            retry_from fn maxRetries baseDelay remaining' (S attempt) (Some (as_Error error)))%js)
  end.

(** [retry(fn, maxRetries = 3, baseDelay = 1000)] *)
Definition retry {T} (fn : M World T) (maxRetries : nat) (baseDelay : Z) : M World T :=
  retry_from fn maxRetries baseDelay maxRetries O None.

(** [parsePaymentHeader(base64Header)] *)
Definition parsePaymentHeader (base64Header : string) : Completion JSON.Json :=
  match JSON.parse (Buffer.toString_utf8 (Buffer.from_base64 base64Header)) with
  | Normal j => Normal j
  | Throw _ => Throw (Error "Invalid payment header format")
  end.

(** [encodePaymentHeader(payload)] *)
Definition encodePaymentHeader (payload : JSON.Json) : string :=
  Buffer.toString_base64 (Buffer.from_utf8 (JSON.stringify payload)).

End Core.

(* ========================================================================= *)
(** * payment: facilitator client                                            *)
(* ========================================================================= *)

Module Facilitator.

Import Core.

(** [SettleResponse] as the client returns it. *)
Record SettleResponse : Type := mkSettleResponse {
  success : bool;
  event : option string;
  settle_txHash : option string;
  transaction : option string;
  from : option string;
  to : option string;
  value : option string;
  blockNumber : option Z;
  settle_network : option string;
  settle_timestamp : option string;
  error : option string;
  errorReason : option string
}.

(** [error instanceof Error ? error : new Error(String(error))] *)
Definition to_Error (error : Thrown) : Thrown :=
  if instanceof_Error error then error else Error (String_of error).

(** The [for] loop of the local [retry], entered with [i] and with
    [retries - i = remaining]. *)
Fixpoint retry_from {T} (fn : M World T) (retries : nat) (delay : Z)
         (remaining i : nat) (lastError : option Thrown) : M World T :=
  match remaining with
  | O =>
      match lastError with
      | Some e => throw e
      | None => throw undefined_thrown
      end
  | S remaining' =>
      try_catch fn
        (fun error =>
           ((if Z.of_nat i <? Z.of_nat retries - 1
             then sleep (delay * (Z.of_nat i + 1))
             else ret tt) ;;;
            retry_from fn retries delay remaining' (S i) (Some (to_Error error)))%js)
  end.

(** [retry(fn, retries, delay = 1000)] *)
Definition retry {T} (fn : M World T) (retries : nat) (delay : Z) : M World T :=
  retry_from fn retries delay retries O None.

Record FacilitatorClient : Type := mkFacilitatorClient {
  baseUrl : string;
  timeout : Z;
  retries : nat
}.

(** [baseUrl.replace(/\/$/, '')] *)
Fixpoint strip_trailing_slash (s : string) : string :=
  match s with
  | EmptyString => EmptyString
  | String c EmptyString => if Ascii.eqb c "/"%char then EmptyString else s
  | String c r => String c (strip_trailing_slash r)
  end.

(** [new FacilitatorClient(baseUrl, options)] *)
Definition new (baseUrl0 : option string) (timeout0 : option Z) (retries0 : option nat)
  : FacilitatorClient :=
  mkFacilitatorClient
    (strip_trailing_slash
       (match baseUrl0 with Some u => u | None => "https://facilitator.cronoslabs.org/v2/x402" end))
    (match timeout0 with Some t => t | None => TIMEOUTS_VERIFY * 1000 end)
    (match retries0 with Some r => r | None => 3%nat end).

(** What an attempt of [verify] makes of the outcome of its [fetch]. *)
Definition verify_result (o : FetchOutcome VerifyResponse) : Completion VerifyResponse :=
  match o with
  | FetchRejects e => Throw e
  | FetchResponds status responseText body =>
      if negb (response_ok status)
      then Throw (Error ("Verify failed: " ++ toString status ++ " - " ++ responseText))
      else match body with
           | Some response => Normal response
           | None => Throw JSON.SyntaxError
           end
  end.

(** One attempt of [verify]: the function handed to [retry]. *)
Definition verify_attempt (this : FacilitatorClient) (paymentHeader : string)
           (paymentRequirements : PaymentRequirements) : M World VerifyResponse :=
  fun w =>
    (verify_result (verify_net w (fetches w)),
     with_fetch w (baseUrl this ++ FACILITATOR_ENDPOINTS_VERIFY) paymentHeader).

Definition verify (this : FacilitatorClient) (paymentHeader : string)
           (paymentRequirements : PaymentRequirements) : M World VerifyResponse :=
  retry (verify_attempt this paymentHeader paymentRequirements) (retries this) 1000.

(** [data.event === 'payment.settled'] *)
Definition is_settled (event0 : option string) : bool :=
  match event0 with
  | Some e => String.eqb e "payment.settled"
  | None => false
  end.

(** The mapping of the facilitator's settle body to [SettleResponse]. *)
Definition map_settle (data : SettleData) : SettleResponse :=
  mkSettleResponse (is_settled (data_event data)) (data_event data)
    (data_txHash data) (data_txHash data) (data_from data) (data_to data)
    (data_value data) (data_blockNumber data) (data_network data)
    (data_timestamp data) (data_error data) (data_error data).

(** What an attempt of [settle] makes of the outcome of its [fetch]. *)
Definition settle_result (o : FetchOutcome SettleData) : Completion SettleResponse :=
  match o with
  | FetchRejects e => Throw e
  | FetchResponds status responseText body =>
      if negb (response_ok status)
      then Throw (Error ("Settle failed: " ++ toString status ++ " - " ++ responseText))
      else match body with
           | Some data => Normal (map_settle data)
           | None => Throw JSON.SyntaxError
           end
  end.

(** One attempt of [settle]: the function handed to [retry]. *)
Definition settle_attempt (this : FacilitatorClient) (paymentHeader : string)
           (paymentRequirements : PaymentRequirements) : M World SettleResponse :=
  fun w =>
    (settle_result (settle_net w (fetches w)),
     with_fetch w (baseUrl this ++ FACILITATOR_ENDPOINTS_SETTLE) paymentHeader).

Definition settle (this : FacilitatorClient) (paymentHeader : string)
           (paymentRequirements : PaymentRequirements) : M World SettleResponse :=
  retry (settle_attempt this paymentHeader paymentRequirements) (retries this) 1000.

End Facilitator.

(* ========================================================================= *)
(** * payment: payment handler                                               *)
(* ========================================================================= *)

Module PaymentHandler.

Import Core.

Record PaymentHandler : Type := mkPaymentHandler {
  facilitator : Facilitator.FacilitatorClient;
  paymentAddress : string;
  handler_network : Network
}.

Record PaymentHandlerConfig : Type := mkPaymentHandlerConfig {
  config_paymentAddress : string;
  config_network : Network;
  config_facilitatorUrl : option string
}.

(** [new PaymentHandler(config)]; the ledger [payments] starts empty. *)
Definition new (config : PaymentHandlerConfig) : PaymentHandler :=
  mkPaymentHandler
    (Facilitator.new
       (Some (match config_facilitatorUrl config with
              | Some u => u
              | None => "https://facilitator.cronoslabs.org/v2/x402"
              end)) None None)
    (config_paymentAddress config) (config_network config).

Definition createPaymentRequirements (this : PaymentHandler) (tool : PricedTool)
           (resource0 : string) : PaymentRequirements :=
  let networkConfig :=
    match handler_network this with
    | mainnet => CRONOS_NETWORKS_MAINNET
    | testnet => CRONOS_NETWORKS_TESTNET
    end in
  mkPaymentRequirements "exact" (networkId networkConfig) (price tool) resource0
    (Some (tool_description tool)) "application/json" (paymentAddress this) 300
    (usdcAddress networkConfig).

Record PaymentRequiredBody : Type := mkPaymentRequiredBody {
  body_error : string;
  paymentRequirements : PaymentRequirements;
  accepts : list PaymentRequirements
}.

Record PaymentRequired : Type := mkPaymentRequired {
  status : Z;
  body : PaymentRequiredBody
}.

Definition create402Response (this : PaymentHandler) (tool : PricedTool) (resource0 : string)
  : PaymentRequired :=
  let requirements := createPaymentRequirements this tool resource0 in
  mkPaymentRequired 402 (mkPaymentRequiredBody "Payment Required" requirements [requirements]).

Definition processPayment (this : PaymentHandler) (paymentHeader : string) (tool : PricedTool)
           (resource0 : string) : M World PaymentRecord :=
  (let paymentRequirements := createPaymentRequirements this tool resource0 in
   verifyResult <- Facilitator.verify (facilitator this) paymentHeader paymentRequirements ;;
   if negb (isValid verifyResult)
   then throw (Error ("Payment invalid: " ++ or_default (invalidReason verifyResult) "unknown"))
   else
     settleResult <- Facilitator.settle (facilitator this) paymentHeader paymentRequirements ;;
     if negb (Facilitator.success settleResult)
     then throw (Error ("Settlement failed: "
                        ++ or_default (Facilitator.errorReason settleResult) "unknown"))
     else
       uuid <- randomUUID ;;
       now <- Date_now ;;
       let record :=
         mkPaymentRecord uuid (name tool) (price tool)
           (or_default (payer verifyResult) "unknown")
           (or_default (Facilitator.transaction settleResult) "") now "settled" in
       modify (fun w => with_log (with_payments w (map_set (id record) record (payments w)))
                          (LedgerSet (id record))) ;;;
       ret record)%js.

Definition getPayments (w : World) : list PaymentRecord := map snd (payments w).

Definition getPayment (key : string) (w : World) : option PaymentRecord :=
  map_get key (payments w).

(** [BigInt(p.amount)] inside the [reduce]: a malformed amount throws. *)
Fixpoint sum_amounts (records : list PaymentRecord) (sum : Z) : Completion Z :=
  match records with
  | [] => Normal sum
  | p :: rest =>
      match BigInt (World.amount p) with
      | Normal a => sum_amounts rest (sum + a)
      | Throw e => Throw e
      end
  end.

Definition getTotalRevenue (w : World) : Completion Z := sum_amounts (getPayments w) 0.

Definition createPaymentHandler (config : PaymentHandlerConfig) : PaymentHandler := new config.

End PaymentHandler.

(* ========================================================================= *)
(** * server-sdk: middleware and tool route                                  *)
(* ========================================================================= *)

Module Middleware.

Import Core.

Record MiddlewareContext : Type := mkMiddlewareContext {
  tool : PricedTool;
  paymentHeader : option string;
  params : JSON.Json
}.

Record MiddlewareResult : Type := mkMiddlewareResult {
  proceed : bool;
  paymentRequired : option PaymentHandler.PaymentRequired;
  payment : option PaymentRecord;
  error : option string
}.

(** [!paymentHeader]: the header is absent or the empty string. *)
Definition header_missing (h : option string) : bool :=
  match h with
  | Some v => negb (truthy v)
  | None => true
  end.

Definition header_text (h : option string) : string :=
  match h with Some v => v | None => EmptyString end.

(** [X402Middleware.process(context)] *)
Definition process (paymentHandler : PaymentHandler.PaymentHandler) (context : MiddlewareContext)
  : M World MiddlewareResult :=
  (price0 <- lift (BigInt (price (tool context))) ;;
   if price0 =? 0 then ret (mkMiddlewareResult true None None None)
   else if header_missing (paymentHeader context) then
     let response :=
       PaymentHandler.create402Response paymentHandler (tool context)
         ("tool://" ++ name (tool context)) in
     ret (mkMiddlewareResult false (Some response) None None)
   else
     try_catch
       (payment0 <- PaymentHandler.processPayment paymentHandler
                      (header_text (paymentHeader context)) (tool context)
                      ("tool://" ++ name (tool context)) ;;
        ret (mkMiddlewareResult true None (Some payment0) None))
       (fun error0 =>
          ret (mkMiddlewareResult false None None
                 (Some (if instanceof_Error error0 then message_of error0
                        else "Payment failed")))))%js.

End Middleware.

Module Server.

Import Core.

(** A registered tool: its definition and its handler.  The handler's own
    work is opaque; what the embedding observes is that it was invoked and
    whether it returned or threw. *)
Record RegisteredTool : Type := mkRegisteredTool {
  definition : PricedTool;
  handler : JSON.Json -> Completion JSON.Json
}.

Record RequestContext : Type := mkRequestContext {
  method : string;
  path : string;
  headers : list (string * string);
  request_body : JSON.Json
}.

Inductive ResponseBody : Type :=
| PaymentRequiredBody (b : PaymentHandler.PaymentRequiredBody)
| ErrorBody (error : string)
| ResultBody (result : JSON.Json) (payment : option PaymentRecord).

Record ResponseContext : Type := mkResponseContext {
  status : Z;
  response_headers : list (string * string);
  body : ResponseBody
}.

(** [await tool.handler(ctx.body)] *)
Definition invoke (tool : RegisteredTool) (arguments : JSON.Json) : M World JSON.Json :=
  fun w => (handler tool arguments, with_log w (HandlerInvoked (name (definition tool)))).

(** [this.incrementToolCalls(toolName)] *)
Definition incrementToolCalls (toolName0 : string) : M World unit :=
  modify (fun w =>
            let current :=
              match map_get toolName0 (toolCalls w) with
              | Some n => if n =? 0 then 0 else n
              | None => 0
              end in
            with_toolCalls w (map_set toolName0 (current + 1) (toolCalls w))).

(** [if (result.error)]: the field is present and not the empty string. *)
Definition error_set (e : option string) : bool :=
  match e with
  | Some m => truthy m
  | None => false
  end.

(** The handler that [setupToolRoutes] registers for [POST /tools/<name>]. *)
Definition tool_route (paymentHandler : PaymentHandler.PaymentHandler) (tool : RegisteredTool)
           (ctx : RequestContext) : M World ResponseContext :=
  (let paymentHeader := map_get "x-payment" (headers ctx) in
   result <- Middleware.process paymentHandler
               (Middleware.mkMiddlewareContext (definition tool) paymentHeader
                  (request_body ctx)) ;;
   match Middleware.paymentRequired result with
   | Some required =>
       ret (mkResponseContext (PaymentHandler.status required) []
              (PaymentRequiredBody (PaymentHandler.body required)))
   | None =>
       if error_set (Middleware.error result) then
         ret (mkResponseContext 402 []
                (ErrorBody ("Payment invalid: "
                            ++ match Middleware.error result with
                               | Some m => m
                               | None => EmptyString
                               end)))
       else
         try_catch
           (toolResult <- invoke tool (request_body ctx) ;;
            incrementToolCalls (name (definition tool)) ;;;
            ret (mkResponseContext 200 [] (ResultBody toolResult (Middleware.payment result))))
           (fun error0 =>
              ret (mkResponseContext 500 []
                     (ErrorBody (if instanceof_Error error0 then message_of error0
                                 else "Tool execution failed"))))
   end)%js.

End Server.

(* ========================================================================= *)
(** * payment: EIP-712 payment signing; client-sdk: the MCP client           *)
(* ========================================================================= *)

Module Signing.

Import Core.

(** [CronosPaymentPayload]: the flat payload. *)
Record Authorization : Type := mkAuthorization {
  from : string;
  to : string;
  value : string;
  validAfter : Z;
  validBefore : Z;
  nonce : string;
  signature : string;
  asset : string
}.

Record CronosPaymentPayload : Type := mkCronosPaymentPayload {
  x402Version : Z;
  scheme : string;
  network : string;
  payload : Authorization
}.

Record Domain : Type := mkDomain {
  domain_name : string;
  domain_version : string;
  domain_chainId : Z;
  verifyingContract : string
}.

Record Message : Type := mkMessage {
  message_from : string;
  message_to : string;
  message_value : Z;
  message_validAfter : Z;
  message_validBefore : Z;
  message_nonce : string
}.

(** The key-holding capability: [wallet.address] and
    [wallet.signTypedData(domain, types, message)] for the
    [TransferWithAuthorization] type. *)
Record Wallet : Type := mkWallet {
  address : string;
  signTypedData : Domain -> Message -> Completion string
}.

(** The object literal of a payload, member by member. *)
Definition to_json (p : CronosPaymentPayload) : JSON.Json :=
  JSON.JObject
    [("x402Version", JSON.JNumber (x402Version p));
     ("scheme", JSON.JString (scheme p));
     ("network", JSON.JString (network p));
     ("payload",
      JSON.JObject
        [("from", JSON.JString (from (payload p)));
         ("to", JSON.JString (to (payload p)));
         ("value", JSON.JString (value (payload p)));
         ("validAfter", JSON.JNumber (validAfter (payload p)));
         ("validBefore", JSON.JNumber (validBefore (payload p)));
         ("nonce", JSON.JString (nonce (payload p)));
         ("signature", JSON.JString (signature (payload p)));
         ("asset", JSON.JString (asset (payload p)))])].

(** Reading a parsed value at the type [CronosPaymentPayload]. *)
Definition string_member (key : string) (j : JSON.Json) : option string :=
  match JSON.member key j with Some (JSON.JString s) => Some s | _ => None end.

Definition number_member (key : string) (j : JSON.Json) : option Z :=
  match JSON.member key j with Some (JSON.JNumber z) => Some z | _ => None end.

Definition of_json (j : JSON.Json) : option CronosPaymentPayload :=
  match number_member "x402Version" j, string_member "scheme" j, string_member "network" j,
        JSON.member "payload" j with
  | Some v, Some s, Some n, Some a =>
      match string_member "from" a, string_member "to" a, string_member "value" a,
            number_member "validAfter" a, number_member "validBefore" a,
            string_member "nonce" a, string_member "signature" a, string_member "asset" a with
      | Some f, Some t, Some val, Some va, Some vb, Some no, Some sg, Some asst =>
          Some (mkCronosPaymentPayload v s n (mkAuthorization f t val va vb no sg asst))
      | _, _, _, _, _, _, _, _ => None
      end
  | _, _, _, _ => None
  end.

(** [ethers.hexlify(ethers.randomBytes(32))] *)
Definition generateNonce : M World string := random_nonce.

(** The local [paymentPayload] of [createPaymentHeader]. *)
Definition createPaymentPayload (wallet : Wallet) (requirements : PaymentRequirements)
           (network0 : Network) : M World CronosPaymentPayload :=
  (let networkConfig :=
     match network0 with
     | mainnet => CRONOS_NETWORKS_MAINNET
     | testnet => CRONOS_NETWORKS_TESTNET
     end in
   nonce0 <- generateNonce ;;
   let validAfter0 := 0 in
   now <- Date_now ;;
   let validBefore0 := now / 1000 + TIMEOUTS_PAYMENT_VALIDITY in
   let domain :=
     mkDomain EIP712_DOMAIN_NAME EIP712_DOMAIN_VERSION (chainId networkConfig)
       (Core.asset requirements) in
   value0 <- lift (BigInt (maxAmountRequired requirements)) ;;
   let message :=
     mkMessage (address wallet) (payTo requirements) value0 validAfter0 validBefore0 nonce0 in
   signature0 <- lift (signTypedData wallet domain message) ;;
   ret (mkCronosPaymentPayload X402_VERSION
          (if truthy (Core.scheme requirements) then Core.scheme requirements
           else PAYMENT_SCHEMES_EXACT)
          (Core.network requirements)
          (mkAuthorization (address wallet) (payTo requirements)
             (maxAmountRequired requirements) validAfter0 validBefore0 nonce0 signature0
             (Core.asset requirements))))%js.

(** [createPaymentHeader(wallet, requirements, network = 'testnet')] *)
Definition createPaymentHeader (wallet : Wallet) (requirements : PaymentRequirements)
           (network0 : Network) : M World string :=
  (paymentPayload <- createPaymentPayload wallet requirements network0 ;;
   ret (Buffer.toString_base64 (Buffer.from_utf8 (JSON.stringify (to_json paymentPayload)))))%js.

(** [decodePaymentHeader(base64Header)]: no [try]. *)
Definition decodePaymentHeader (base64Header : string) : Completion JSON.Json :=
  JSON.parse (Buffer.toString_utf8 (Buffer.from_base64 base64Header)).

(** [validatePaymentPayload(payload)] *)
Definition validatePaymentPayload (p : CronosPaymentPayload) : bool :=
  if (x402Version p =? 0) || negb (x402Version p =? X402_VERSION) then false
  else if negb (truthy (scheme p)) || negb (truthy (network p)) then false
  else if negb (truthy (signature (payload p))) || negb (truthy (nonce (payload p)))
          || negb (truthy (asset (payload p))) then false
  else true.

End Signing.

Module Client.

Import Core.

Record MCPClient : Type := mkMCPClient {
  config_network : Network;
  wallet : option Signing.Wallet
}.

(** [generateNonce()] of the core utilities. *)
Definition generateNonce : M World string := random_nonce.

(** The local [payload] of [MCPClient.createPaymentHeader]. *)
Definition createPaymentPayload (this : MCPClient) (requirements : PaymentRequirements)
  : M World Signing.CronosPaymentPayload :=
  match wallet this with
  | None => throw (Error "Wallet not configured - cannot sign payments")
  | Some wallet0 =>
      (nonce0 <- generateNonce ;;
       validBefore0 <- calculateValidBefore (maxTimeoutSeconds requirements) ;;
       let networkConfig :=
         match config_network this with
         | mainnet => CRONOS_NETWORKS_MAINNET
         | testnet => CRONOS_NETWORKS_TESTNET
         end in
       let domain :=
         Signing.mkDomain EIP712_DOMAIN_NAME EIP712_DOMAIN_VERSION (chainId networkConfig)
           (asset requirements) in
       value0 <- lift (BigInt (maxAmountRequired requirements)) ;;
       let message :=
         Signing.mkMessage (Signing.address wallet0) (payTo requirements) value0 0
           validBefore0 nonce0 in
       signature0 <- lift (Signing.signTypedData wallet0 domain message) ;;
       ret (Signing.mkCronosPaymentPayload X402_CONSTANTS_VERSION (scheme requirements)
              (network requirements)
              (Signing.mkAuthorization (Signing.address wallet0) (payTo requirements)
                 (maxAmountRequired requirements) 0 validBefore0 nonce0 signature0
                 (asset requirements))))%js
  end.

(** [MCPClient.createPaymentHeader(requirements)] *)
Definition createPaymentHeader (this : MCPClient) (requirements : PaymentRequirements)
  : M World string :=
  (payload0 <- createPaymentPayload this requirements ;;
   ret (Buffer.toString_base64 (Buffer.from_utf8 (JSON.stringify (Signing.to_json payload0)))))%js.

End Client.

(* ========================================================================= *)
(** * core: addresses, hashes, nonces and explorer links                     *)
(* ========================================================================= *)

Module Utils.

Import Core.

(** [[a-fA-F0-9]] *)
Definition is_hex (c : ascii) : bool :=
  let n := code c in
  ((48 <=? n) && (n <=? 57)) || ((97 <=? n) && (n <=? 102)) || ((65 <=? n) && (n <=? 70)).

(** [[a-fA-F0-9]{n}$]: exactly [n] hexadecimal digits, then the end of the
    text (without the [m] flag, [$] is the end of the input only). *)
Fixpoint hex_run (n : nat) (s : string) : bool :=
  match n, s with
  | O, EmptyString => true
  | S n', String c r => is_hex c && hex_run n' r
  | _, _ => false
  end.

(** [/^0x[a-fA-F0-9]{40}$/.test(address)] *)
Definition isValidAddress (address : string) : bool :=
  match address with
  | String "0" (String "x" r) => hex_run 40 r
  | _ => false
  end.

(** [/^0x[a-fA-F0-9]{64}$/.test(hash)] *)
Definition isValidTxHash (hash : string) : bool :=
  match hash with
  | String "0" (String "x" r) => hex_run 64 r
  | _ => false
  end.

(** A relative index of [slice], clamped to the text: a negative index
    counts from the end. *)
Definition clamp (len k : Z) : Z :=
  if k <? 0 then Z.max (len + k) 0 else Z.min k len.

(** [s.slice(start, end)] for integer arguments on a text of ASCII
    characters; [end] left out is [None]. *)
Definition slice (s : string) (start : Z) (end_ : option Z) : string :=
  let len := Z.of_nat (String.length s) in
  let from := clamp len start in
  let final := match end_ with Some e => clamp len e | None => len end in
  String.substring (Z.to_nat from) (Z.to_nat (final - from)) s.

(** [shortenAddress(address, chars = 4)], for an integer [chars]. *)
Definition shortenAddress (address : string) (chars : Z) : string :=
  if negb (isValidAddress address) then address
  else slice address 0 (Some (chars + 2)) ++ "..." ++ slice address (- chars) None.

(** [b.toString(16)] for an element of a [Uint8Array]. *)
Definition toString16 (b : Z) : string :=
  if b <? 16 then String (JSON.hex_digit b) ""
  else String (JSON.hex_digit (b / 16)) (String (JSON.hex_digit (b mod 16)) "").

(** [s.padStart(2, '0')] *)
Definition padStart2 (s : string) : string :=
  match s with
  | EmptyString => "00"
  | String c EmptyString => String "0" s
  | _ => s
  end.

(** [generateNonce()], the array having been filled with [bytes] by
    [crypto.getRandomValues]. *)
Definition generateNonce (bytes : list ascii) : string :=
  "0x" ++ String.concat "" (map (fun b => padStart2 (toString16 (code b))) bytes).

(** [getExplorerTxUrl(txHash, network)] *)
Definition getExplorerTxUrl (txHash : string) (network0 : Network) : string :=
  let config :=
    match network0 with
    | mainnet => CRONOS_NETWORKS_MAINNET
    | testnet => CRONOS_NETWORKS_TESTNET
    end in
  explorerUrl config ++ "/tx/" ++ txHash.

(** [getExplorerAddressUrl(address, network)] *)
Definition getExplorerAddressUrl (address : string) (network0 : Network) : string :=
  let config :=
    match network0 with
    | mainnet => CRONOS_NETWORKS_MAINNET
    | testnet => CRONOS_NETWORKS_TESTNET
    end in
  explorerUrl config ++ "/address/" ++ address.

End Utils.

(* ========================================================================= *)
(** * server-sdk: tool registry, HTTP transport and server                   *)
(* ========================================================================= *)

Module Tools.

Import Core.

(** [map.has(key)] and [map.delete(key)] of a JavaScript [Map]. *)
Fixpoint map_has {V} (k : string) (m : list (string * V)) : bool :=
  match m with
  | [] => false
  | (k', _) :: r => if String.eqb k' k then true else map_has k r
  end.

Fixpoint map_delete {V} (k : string) (m : list (string * V)) : list (string * V) :=
  match m with
  | [] => []
  | (k', v') :: r => if String.eqb k' k then map_delete k r else (k', v') :: map_delete k r
  end.

(** The private [tools] map of a [ToolRegistry], in insertion order. *)
Definition ToolRegistry : Type := list (string * Server.RegisteredTool).

(** [createToolRegistry()] *)
Definition createToolRegistry : ToolRegistry := [].

Definition register (tool : Server.RegisteredTool) : M ToolRegistry unit :=
  fun this =>
    if map_has (name (Server.definition tool)) this
    then (Throw (Error ("Tool " ++ name (Server.definition tool) ++ " already registered")), this)
    else (Normal tt, map_set (name (Server.definition tool)) tool this).

Definition get (name0 : string) (this : ToolRegistry) : option Server.RegisteredTool :=
  map_get name0 this.

Definition getAll (this : ToolRegistry) : list Server.RegisteredTool := map snd this.

(** [getAll().map(({ handler, ...tool }) => tool)] *)
Definition getDefinitions (this : ToolRegistry) : list PricedTool :=
  map Server.definition (getAll this).

Definition has (name0 : string) (this : ToolRegistry) : bool := map_has name0 this.

Definition remove (name0 : string) : M ToolRegistry bool :=
  fun this => (Normal (map_has name0 this), map_delete name0 this).

Definition size (this : ToolRegistry) : Z := Z.of_nat (List.length this).

End Tools.

Module Transport.

Record TransportConfig : Type := mkTransportConfig {
  config_port : option Z;
  config_host : option string;
  config_cors : option bool
}.

(** What a route handler returns, with a body of type [B]. *)
Record ResponseContext (B : Type) : Type := mkResponseContext {
  status : Z;
  headers : list (string * string);
  body : B
}.
Arguments mkResponseContext {B} status headers body.
Arguments status {B}.
Arguments headers {B}.
Arguments body {B}.

(** The fields of an [HttpTransport]; a registered handler is kept as a
    route of type [R], which the server knows how to run. *)
Record HttpTransport (R : Type) : Type := mkHttpTransport {
  port : Z;
  host : string;
  cors : bool;
  handlers : list (string * R)
}.
Arguments mkHttpTransport {R} port host cors handlers.
Arguments port {R}.
Arguments host {R}.
Arguments cors {R}.
Arguments handlers {R}.

(** A header of an incoming request: one text, or several. *)
Inductive HeaderValue : Type :=
| Single (v : string)
| Multiple (vs : list string).

(** An incoming request: its method, the [pathname] that [new URL] reads
    from its target, its headers (Node gives their names in lower case) and
    the chunks of its body. *)
Record IncomingMessage : Type := mkIncomingMessage {
  req_method : option string;
  pathname : string;
  req_headers : list (string * HeaderValue);
  chunks : list string
}.

(** What the listener writes: [res.writeHead(statusCode, headers)] and
    [res.end(JSON.stringify(body))], or [res.end()] without a body. *)
Record ServerResponse (B : Type) : Type := mkServerResponse {
  statusCode : Z;
  response_headers : list (string * string);
  response_body : option B
}.
Arguments mkServerResponse {B} statusCode response_headers response_body.
Arguments statusCode {B}.
Arguments response_headers {B}.
Arguments response_body {B}.

(** [new HttpTransport(config)]: no handler yet. *)
Definition new {R} (config : TransportConfig) : HttpTransport R :=
  mkHttpTransport
    (match config_port config with
     | Some p => if p =? 0 then 3000 else p
     | None => 3000
     end)
    (or_default (config_host config) "localhost")
    (match config_cors config with
     | Some false => false
     | _ => true
     end)
    [].

(** [createTransport(config?)] *)
Definition createTransport {R} (config : option TransportConfig) : HttpTransport R :=
  new (match config with Some c => c | None => mkTransportConfig None None None end).

(** [c.toUpperCase()] for a character of ASCII. *)
Definition upper (c : ascii) : ascii :=
  let n := code c in
  if (97 <=? n) && (n <=? 122) then Buffer.byte (n - 32) else c.

(** [method.toUpperCase()] for a method name written in ASCII. *)
Fixpoint toUpperCase (s : string) : string :=
  match s with
  | EmptyString => EmptyString
  | String c r => String (upper c) (toUpperCase r)
  end.

(** [route(method, path, handler)] *)
Definition route {R} (method path : string) (handler : R) (this : HttpTransport R)
  : HttpTransport R :=
  mkHttpTransport (port this) (host this) (cors this)
    (map_set (toUpperCase method ++ ":" ++ path) handler (handlers this)).

Definition getCorsHeaders : list (string * string) :=
  [("Access-Control-Allow-Origin", "*");
   ("Access-Control-Allow-Methods", "GET, POST, OPTIONS");
   ("Access-Control-Allow-Headers", "Content-Type, X-PAYMENT, X-Payment")].

(** The object literal [{ ...a, ...b }]. *)
Definition spread (a b : list (string * string)) : list (string * string) :=
  fold_left (fun acc kv => map_set (fst kv) (snd kv) acc) b a.

(** The loop that keeps the headers whose value is one text. *)
Definition collect_headers (given : list (string * HeaderValue)) : list (string * string) :=
  fold_left (fun acc kv =>
               match snd kv with
               | Single v => map_set (fst kv) v acc
               | Multiple _ => acc
               end) given [].

(** The body handed to the handler: [{}] unless the method is [POST] and
    the text of the body is JSON. *)
Definition read_body (method : string) (given : list string) : JSON.Json :=
  if String.eqb method "POST" then
    match JSON.parse (String.concat "" given) with
    | Normal parsed => parsed
    | Throw _ => JSON.JObject []
    end
  else JSON.JObject [].

Section Listener.

Context {S R B : Type}.

(** How a registered handler runs, and the body [{ error: message }]. *)
Variable run : R -> Server.RequestContext -> M S (ResponseContext B).
Variable error_body : string -> B.

(** The answer of the request listener to a request that it has read: the
    target has been parsed and the chunks of the body have arrived, and the
    status, the headers and the body of the answer are ones that [writeHead]
    and [JSON.stringify] take.  [requestListener] below is the listener
    with the steps that can fail. *)
Definition listener (this : HttpTransport R) (req : IncomingMessage) : M S (ServerResponse B) :=
  let method := or_default (req_method req) "GET" in
  let path := pathname req in
  let key := method ++ ":" ++ path in
  if String.eqb method "OPTIONS" then ret (mkServerResponse 204 getCorsHeaders None)
  else
    let headers0 := collect_headers (req_headers req) in
    let body0 := read_body method (chunks req) in
    match map_get key (handlers this) with
    | None =>
        ret (mkServerResponse 404
               (spread [("Content-Type", "application/json")] getCorsHeaders)
               (Some (error_body "Not found")))
    | Some handler =>
        try_catch
          (result <- run handler (Server.mkRequestContext method path headers0 body0) ;;
           ret (mkServerResponse (status result)
                  (spread (spread [("Content-Type", "application/json")] getCorsHeaders)
                     (headers result))
                  (Some (body result))))%js
          (fun _ =>
             ret (mkServerResponse 500
                    (spread [("Content-Type", "application/json")] getCorsHeaders)
                    (Some (error_body "Internal server error"))))
    end.

End Listener.

(** ** The listener from the request as it arrives *)

(** A request as [http.createServer] hands it to the listener: the method
    [req.method], the target [req.url], the headers, and the body as the
    loop [for await (const chunk of req)] meets it: its chunks, or the
    error with which the stream breaks off. *)
Record Arriving : Type := mkArriving {
  arriving_method : option string;
  arriving_url : option string;
  arriving_headers : list (string * HeaderValue);
  arriving_body : Completion (list string)
}.

(** The response object [res]: the status and the headers that [writeHead]
    has stored, and the text that [end] was called with ([Some None] after
    [end()] and after [end(undefined)]). *)
Record Res : Type := mkRes {
  head : option (Z * list (string * string));
  ended : option (option string)
}.

(** The response object as the listener receives it. *)
Definition fresh : Res := mkRes None None.

(** The error of a second [writeHead]. *)
Definition ERR_HTTP_HEADERS_SENT : Thrown :=
  ErrorObject "Error" "Cannot write headers after they are sent to the client".

(** [JSON.stringify({ error: message })] *)
Definition error_text (message : string) : string :=
  JSON.stringify (JSON.JObject [("error", JSON.JString message)]).

(** The chunks that the loop over the body has pushed. *)
Definition chunks_read (given : Completion (list string)) : list string :=
  match given with
  | Normal read => read
  | Throw _ => []
  end.

Section RequestListener.

Context {S R B : Type}.

(** How a registered handler runs. *)
Variable run : R -> Server.RequestContext -> M S (ResponseContext B).

(** What the listener takes from the runtime: [new URL(input, base).pathname],
    which throws for a target that is no URL; the error with which
    [writeHead] refuses a status code or a header, if it refuses them; and
    [JSON.stringify] of the body of a handler, which throws for a value
    that cannot be written (a BigInt, a cycle) and gives [undefined] for
    some values. *)
Variable URL_pathname : string -> string -> Completion string.
Variable head_error : Z -> list (string * string) -> option Thrown.
Variable stringify : B -> Completion (option string).

(** [res.writeHead(statusCode, headers)]: refused once a head is stored. *)
Definition writeHead (statusCode0 : Z) (headers0 : list (string * string)) : M Res unit :=
  fun res =>
    match head res with
    | Some _ => (Throw ERR_HTTP_HEADERS_SENT, res)
    | None =>
        match head_error statusCode0 headers0 with
        | Some e => (Throw e, res)
        | None => (Normal tt, mkRes (Some (statusCode0, headers0)) (ended res))
        end
    end.

(** [res.end(data)] *)
Definition end_ (data : option string) : M Res unit :=
  fun res => (Normal tt, mkRes (head res) (Some data)).

(** A computation of the server, or on the response object, within the
    listener. *)
Definition on_server {A} (c : M S A) : M (S * Res) A :=
  fun sr => let '(r, s') := c (fst sr) in (r, (s', snd sr)).

Definition on_res {A} (c : M Res A) : M (S * Res) A :=
  fun sr => let '(r, res') := c (snd sr) in (r, (fst sr, res')).

(** The listener that [start()] hands to [http.createServer].  It is an
    [async] function of which the server does not await the result: a
    value thrown here is the rejection of a promise that nobody handles. *)
Definition requestListener (this : HttpTransport R) (req : Arriving) : M (S * Res) unit :=
  (path0 <- lift (URL_pathname (or_default (arriving_url req) "/")
                    ("http://" ++ host this ++ ":" ++ toString (port this))) ;;
   let method := or_default (arriving_method req) "GET" in
   let key := method ++ ":" ++ path0 in
   if String.eqb method "OPTIONS" then
     on_res (writeHead 204 getCorsHeaders) ;;;
     on_res (end_ None)
   else
     let headers0 := collect_headers (arriving_headers req) in
     given <- (if String.eqb method "POST" then lift (arriving_body req) else ret []) ;;
     let body0 := read_body method given in
     match map_get key (handlers this) with
     | None =>
         on_res (writeHead 404 (spread [("Content-Type", "application/json")] getCorsHeaders)) ;;;
         on_res (end_ (Some (error_text "Not found")))
     | Some handler =>
         try_catch
           (result <- on_server (run handler
                                   (Server.mkRequestContext method path0 headers0 body0)) ;;
            on_res (writeHead (status result)
                      (spread (spread [("Content-Type", "application/json")] getCorsHeaders)
                         (headers result))) ;;;
            written <- lift (stringify (body result)) ;;
            on_res (end_ written))
           (fun _ =>
              on_res (writeHead 500
                        (spread [("Content-Type", "application/json")] getCorsHeaders)) ;;;
              on_res (end_ (Some (error_text "Internal server error"))))
     end)%js.

End RequestListener.

End Transport.

Module MCPServer.

Import Core.

Record ServerConfig : Type := mkServerConfig {
  config_name : string;
  config_version : string;
  config_description : option string;
  config_paymentAddress : string;
  config_facilitatorUrl : option string;
  config_network : Network;
  config_port : option Z;
  config_host : option string
}.

(** The handlers that the server registers with its transport. *)
Inductive Route : Type :=
| ListTools
| Info
| Health
| Stats
| Payments
| Revenue
| ToolStats
| CallTool (tool : Server.RegisteredTool).

(** Calls and revenue of one tool, as the statistics add them up. *)
Record Aggregate : Type := mkAggregate {
  calls : Z;
  revenue : Z
}.

(** An entry of [tools] in the body of [GET /stats]. *)
Record PaidTool : Type := mkPaidTool {
  paid_name : string;
  paid_price : string;
  paid_calls : Z;
  paid_revenue : string
}.

(** An entry of the body of [GET /api/stats/tools]. *)
Record ToolEntry : Type := mkToolEntry {
  entry_name : string;
  entry_calls : Z;
  entry_revenue : string
}.

Record StatsBody : Type := mkStatsBody {
  serverName : string;
  stats_network : string;
  totalRevenue : string;
  transactionCount : Z;
  tools : list PaidTool;
  recentPayments : list PaymentRecord;
  uptime : Z
}.

Record InfoBody : Type := mkInfoBody {
  info_name : string;
  info_version : string;
  info_description : option string;
  info_network : Network;
  info_paymentAddress : string;
  info_tools : Z
}.

(** The bodies of the responses. *)
Inductive Body : Type :=
| ToolsBody (tools : list PricedTool)
| ServerInfo (info : InfoBody)
| HealthBody (status : string)
| Statistics (stats : StatsBody)
| PaymentList (payments : list PaymentRecord)
| RevenueBody (total : string)
| ToolStatistics (entries : list ToolEntry)
| ToolCall (body : Server.ResponseBody).

Record MCPServer : Type := mkMCPServer {
  config : ServerConfig;
  toolRegistry : Tools.ToolRegistry;
  paymentHandler : PaymentHandler.PaymentHandler;
  transport : Transport.HttpTransport Route;
  startTime : Z;
  world : World
}.

Definition with_registry (s : MCPServer) (r : Tools.ToolRegistry) : MCPServer :=
  mkMCPServer (config s) r (paymentHandler s) (transport s) (startTime s) (world s).


Definition with_world (s : MCPServer) (w : World) : MCPServer :=
  mkMCPServer (config s) (toolRegistry s) (paymentHandler s) (transport s) (startTime s) w.

(** A computation on the tool registry, or on the rest of the heap and the
    environment, run on the server. *)
Definition in_registry {A} (c : M Tools.ToolRegistry A) : M MCPServer A :=
  fun s => let '(r, registry) := c (toolRegistry s) in (r, with_registry s registry).

Definition in_world {A} (c : M World A) : M MCPServer A :=
  fun s => let '(r, w) := c (world s) in (r, with_world s w).

(** [setupRoutes()] *)
Definition setupRoutes (t : Transport.HttpTransport Route) : Transport.HttpTransport Route :=
  Transport.route "GET" "/api/stats/tools" ToolStats
    (Transport.route "GET" "/api/stats/revenue" Revenue
       (Transport.route "GET" "/api/payments" Payments
          (Transport.route "GET" "/stats" Stats
             (Transport.route "GET" "/health" Health
                (Transport.route "GET" "/info" Info
                   (Transport.route "GET" "/tools" ListTools t)))))).

(** [new MCPServer(config)]: the registry, the ledger and the counters
    start empty, and the fixed routes are set up. *)
Definition new (config0 : ServerConfig) (w : World) : MCPServer :=
  mkMCPServer config0 Tools.createToolRegistry
    (PaymentHandler.createPaymentHandler
       (PaymentHandler.mkPaymentHandlerConfig (config_paymentAddress config0)
          (config_network config0) (config_facilitatorUrl config0)))
    (setupRoutes
       (Transport.createTransport
          (Some (Transport.mkTransportConfig (config_port config0) (config_host config0) None))))
    (clock w)
    (with_toolCalls (with_payments w []) []).

(** [createServer(config)] *)
Definition createServer (config0 : ServerConfig) (w : World) : MCPServer := new config0 w.

(** [addTool(options)]: the options are the fields of a registered tool. *)
Definition addTool (options : Server.RegisteredTool) : M MCPServer unit :=
  (in_registry (Tools.register options) ;;;
   in_world (modify (fun w => with_toolCalls w
                                (map_set (name (Server.definition options)) 0 (toolCalls w)))))%js.


(** The loop that adds up calls and revenue by tool name. *)
Fixpoint aggregate (payments0 : list PaymentRecord) (stats : list (string * Aggregate))
  : Completion (list (string * Aggregate)) :=
  match payments0 with
  | [] => Normal stats
  | payment :: rest =>
      let existing :=
        match map_get (World.toolName payment) stats with
        | Some found => found
        | None => mkAggregate 0 0
        end in
      match BigInt (World.amount payment) with
      | Normal a =>
          aggregate rest
            (map_set (World.toolName payment)
               (mkAggregate (calls existing + 1) (revenue existing + a)) stats)
      | Throw e => Throw e
      end
  end.

(** [getAll().filter(tool => BigInt(tool.price) > 0)] *)
Fixpoint paid_tools (all : list Server.RegisteredTool) : Completion (list Server.RegisteredTool) :=
  match all with
  | [] => Normal []
  | tool :: rest =>
      match BigInt (price (Server.definition tool)) with
      | Normal p =>
          match paid_tools rest with
          | Normal kept => Normal (if 0 <? p then tool :: kept else kept)
          | Throw e => Throw e
          end
      | Throw e => Throw e
      end
  end.

(** [payments.slice(-20).reverse()] *)
Definition recent (payments0 : list PaymentRecord) : list PaymentRecord :=
  List.rev (skipn (List.length payments0 - 20)%nat payments0).

Definition networkId_of (network0 : Network) : string :=
  match network0 with
  | mainnet => networkId CRONOS_NETWORKS_MAINNET
  | testnet => networkId CRONOS_NETWORKS_TESTNET
  end.

(** The handler of [GET /stats]. *)
Definition stats_route : M MCPServer (Transport.ResponseContext Body) :=
  fun s =>
    let payments0 := PaymentHandler.getPayments (world s) in
    match PaymentHandler.getTotalRevenue (world s) with
    | Throw e => (Throw e, s)
    | Normal total =>
        match aggregate payments0 [] with
        | Throw e => (Throw e, s)
        | Normal toolStatsMap =>
            match paid_tools (Tools.getAll (toolRegistry s)) with
            | Throw e => (Throw e, s)
            | Normal paid =>
                let tools0 :=
                  map (fun tool =>
                         let stats :=
                           match map_get (name (Server.definition tool)) toolStatsMap with
                           | Some found => found
                           | None => mkAggregate 0 0
                           end in
                         mkPaidTool (name (Server.definition tool))
                           (price (Server.definition tool))
                           (match map_get (name (Server.definition tool))
                                    (toolCalls (world s)) with
                            | Some c => c
                            | None => 0
                            end)
                           (toString (revenue stats))) paid in
                (Normal
                   (Transport.mkResponseContext 200 [("Access-Control-Allow-Origin", "*")]
                      (Statistics
                         (mkStatsBody (config_name (config s))
                            (networkId_of (config_network (config s)))
                            (toString total) (Z.of_nat (List.length payments0)) tools0
                            (recent payments0) (clock (world s) - startTime s)))), s)
            end
        end
    end.

(** The handler of [GET /api/stats/tools]. *)
Definition tool_stats_route : M MCPServer (Transport.ResponseContext Body) :=
  fun s =>
    match aggregate (PaymentHandler.getPayments (world s)) [] with
    | Throw e => (Throw e, s)
    | Normal stats =>
        (Normal
           (Transport.mkResponseContext 200 []
              (ToolStatistics
                 (map (fun entry => mkToolEntry (fst entry) (calls (snd entry))
                                      (toString (revenue (snd entry)))) stats))), s)
    end.

(** The handler registered for a route. *)
Definition run (r : Route) (ctx : Server.RequestContext)
  : M MCPServer (Transport.ResponseContext Body) :=
  match r with
  | ListTools =>
      fun s => (Normal (Transport.mkResponseContext 200 []
                          (ToolsBody (Tools.getDefinitions (toolRegistry s)))), s)
  | Info =>
      fun s => (Normal (Transport.mkResponseContext 200 []
                          (ServerInfo
                             (mkInfoBody (config_name (config s)) (config_version (config s))
                                (config_description (config s)) (config_network (config s))
                                (config_paymentAddress (config s))
                                (Tools.size (toolRegistry s))))), s)
  | Health => ret (Transport.mkResponseContext 200 [] (HealthBody "ok"))
  | Stats => stats_route
  | Payments =>
      fun s => (Normal (Transport.mkResponseContext 200 []
                          (PaymentList (PaymentHandler.getPayments (world s)))), s)
  | Revenue =>
      fun s =>
        match PaymentHandler.getTotalRevenue (world s) with
        | Normal total =>
            (Normal (Transport.mkResponseContext 200 [] (RevenueBody (toString total))), s)
        | Throw e => (Throw e, s)
        end
  | ToolStats => tool_stats_route
  | CallTool tool =>
      fun s =>
        match Server.tool_route (paymentHandler s) tool ctx (world s) with
        | (Normal response, w) =>
            (Normal (Transport.mkResponseContext (Server.status response)
                       (Server.response_headers response) (ToolCall (Server.body response))),
             with_world s w)
        | (Throw e, w) => (Throw e, with_world s w)
        end
  end.


(** [getPayments()] *)
Definition getPayments (s : MCPServer) : list PaymentRecord :=
  PaymentHandler.getPayments (world s).

End MCPServer.

(* ========================================================================= *)
(** * client-sdk: calling a tool                                             *)
(* ========================================================================= *)

Module Caller.

Import Core.

(** [payment] in the body of a tool response. *)
Record PaymentInfo : Type := mkPaymentInfo {
  info_txHash : option string
}.

(** The JSON body of an answer of a server, read at the types
    [ToolResponse], [PaymentRequiredResponse] and [ErrorResponse]: the body
    is an object, as these types say, and a member that it does not have is
    [None]. *)
Record AnswerBody : Type := mkAnswerBody {
  answer_result : option JSON.Json;
  answer_payment : option PaymentInfo;
  answer_paymentRequirements : option PaymentRequirements;
  answer_error : option string
}.

(** What [fetch] gives: it rejects, or a response arrives whose body
    [response.json()] reads ([None]: the body is not JSON). *)
Inductive Answer : Type :=
| Unreachable (e : Thrown)
| Answered (status : Z) (statusText : string) (body : option AnswerBody).

Record Response : Type := mkResponse {
  status : Z;
  statusText : string;
  body : option AnswerBody
}.

(** A request of [callTool]: always a [POST] of the parameters as JSON,
    with or without the [X-PAYMENT] header. *)
Record Request : Type := mkRequest {
  url : string;
  x_payment : option string;
  params : JSON.Json
}.

(** [payment] of a [CallToolResult]. *)
Record Receipt : Type := mkReceipt {
  amount : string;
  txHash : string
}.

Record CallToolResult : Type := mkCallToolResult {
  result : option JSON.Json;
  payment : option Receipt
}.

(** The client at work: the clock and the source of nonces, the budget
    manager, the answers of the servers in the order of the requests, and
    the requests sent so far. *)
Record Session : Type := mkSession {
  world : World;
  budget : Budget.BudgetManager;
  server : nat -> Answer;
  sent : list Request
}.

Definition in_world {A} (c : M World A) : M Session A :=
  fun s => let '(r, w) := c (world s) in (r, mkSession w (budget s) (server s) (sent s)).

Definition in_budget {A} (c : M Budget.BudgetManager A) : M Session A :=
  fun s => let '(r, b) := c (budget s) in (r, mkSession (world s) b (server s) (sent s)).

(** [await fetch(url, { method: 'POST', headers, body })] *)
Definition fetch (request : Request) : M Session Response :=
  fun s =>
    let s' := mkSession (world s) (budget s) (server s) (sent s ++ [request]) in
    match server s (List.length (sent s)) with
    | Unreachable e => (Throw e, s')
    | Answered status0 statusText0 body0 => (Normal (mkResponse status0 statusText0 body0), s')
    end.

(** [await response.json()] *)
Definition json (response : Response) : M Session AnswerBody :=
  match body response with
  | Some data => ret data
  | None => throw JSON.SyntaxError
  end.

(** The budget manager of a new client:
    [createBudgetManager(config.maxBudget || '0')]. *)
Definition initial_budget (maxBudget : option string) : Completion Budget.BudgetManager :=
  Budget.createBudgetManager (or_default maxBudget "0").

(** [callTool(serverUrl, toolName, params)] *)
Definition callTool (this : Client.MCPClient) (serverUrl toolName : string)
           (params0 : JSON.Json) : M Session CallToolResult :=
  (response <- fetch (mkRequest (serverUrl ++ "/tools/" ++ toolName) None params0) ;;
   if response_ok (status response) then
     data <- json response ;;
     ret (mkCallToolResult (answer_result data) None)
   else if status response =? 402 then
     data <- json response ;;
     match answer_paymentRequirements data with
     | None =>
         throw (ErrorObject "TypeError"
                  "Cannot read properties of undefined (reading 'maxAmountRequired')")
     | Some requirements =>
         let amount0 := maxAmountRequired requirements in
         affordable <- in_budget (Budget.canSpend amount0) ;;
         if negb affordable then
           fun s =>
             (Throw (Error ("Insufficient budget: need " ++ amount0 ++ ", have "
                            ++ toString (Budget.getRemaining (budget s)))), s)
         else
           paymentHeader <- in_world (Client.createPaymentHeader this requirements) ;;
           paidResponse <-
             fetch (mkRequest (serverUrl ++ "/tools/" ++ toolName) (Some paymentHeader) params0) ;;
           if negb (response_ok (status paidResponse)) then
             errorData <- json paidResponse ;;
             throw (Error ("Payment failed: "
                           ++ or_default (answer_error errorData) "Unknown error"))
           else
             result0 <- json paidResponse ;;
             let txHash0 :=
               or_default (match answer_payment result0 with
                           | Some info => info_txHash info
                           | None => None
                           end) "" in
             now <- in_world Date_now ;;
             in_budget (Budget.recordSpending now
                          (Budget.mkSpendingEntry toolName serverUrl amount0 txHash0)) ;;;
             ret (mkCallToolResult (answer_result result0) (Some (mkReceipt amount0 txHash0)))
     end
   else
     errorData <- json response ;;
     throw (Error ("Tool call failed: "
                   ++ or_default (answer_error errorData) (statusText response))))%js.

(** [getBudget()] *)
Definition getBudget (s : Session) : Budget.BudgetState := Budget.getState (budget s).

(** A caller making one call after the other, each awaited before the
    next is made, and carrying on after a call that throws.  Calls that
    overlap on one client are not of this form. *)
Fixpoint callEach (this : Client.MCPClient) (calls : list (string * string * JSON.Json))
         (s : Session) : list (Completion CallToolResult) * Session :=
  match calls with
  | [] => ([], s)
  | (serverUrl, toolName, params0) :: rest =>
      let '(r, s1) := callTool this serverUrl toolName params0 s in
      let '(rs, s2) := callEach this rest s1 in
      (r :: rs, s2)
  end.

(** ** Calls that overlap *)

(** What a call holds while it awaits the answer to its paid request. *)
Record Paying : Type := mkPaying {
  paying_serverUrl : string;
  paying_toolName : string;
  paying_params : JSON.Json;
  paying_amount : string;
  paying_header : string
}.

(** [callTool] as far as the second [fetch]: the first request, the check
    of the budget and the signing of the payment.  The call has ended, or
    it is about to send the paid request. *)
Definition callTool_asks (this : Client.MCPClient) (serverUrl toolName : string)
           (params0 : JSON.Json) : M Session (CallToolResult + Paying) :=
  (response <- fetch (mkRequest (serverUrl ++ "/tools/" ++ toolName) None params0) ;;
   if response_ok (status response) then
     data <- json response ;;
     ret (inl (mkCallToolResult (answer_result data) None))
   else if status response =? 402 then
     data <- json response ;;
     match answer_paymentRequirements data with
     | None =>
         throw (ErrorObject "TypeError"
                  "Cannot read properties of undefined (reading 'maxAmountRequired')")
     | Some requirements =>
         let amount0 := maxAmountRequired requirements in
         affordable <- in_budget (Budget.canSpend amount0) ;;
         if negb affordable then
           fun s =>
             (Throw (Error ("Insufficient budget: need " ++ amount0 ++ ", have "
                            ++ toString (Budget.getRemaining (budget s)))), s)
         else
           paymentHeader <- in_world (Client.createPaymentHeader this requirements) ;;
           ret (inr (mkPaying serverUrl toolName params0 amount0 paymentHeader))
     end
   else
     errorData <- json response ;;
     throw (Error ("Tool call failed: "
                   ++ or_default (answer_error errorData) (statusText response))))%js.

(** [callTool] from the second [fetch] on: the paid request, and the
    record of the spending when it is served. *)
Definition callTool_pays (p : Paying) : M Session CallToolResult :=
  (paidResponse <-
     fetch (mkRequest (paying_serverUrl p ++ "/tools/" ++ paying_toolName p)
              (Some (paying_header p)) (paying_params p)) ;;
   if negb (response_ok (status paidResponse)) then
     errorData <- json paidResponse ;;
     throw (Error ("Payment failed: "
                   ++ or_default (answer_error errorData) "Unknown error"))
   else
     result0 <- json paidResponse ;;
     let txHash0 :=
       or_default (match answer_payment result0 with
                   | Some info => info_txHash info
                   | None => None
                   end) "" in
     now <- in_world Date_now ;;
     in_budget (Budget.recordSpending now
                  (Budget.mkSpendingEntry (paying_toolName p) (paying_serverUrl p)
                     (paying_amount p) txHash0)) ;;;
     ret (mkCallToolResult (answer_result result0)
            (Some (mkReceipt (paying_amount p) txHash0))))%js.

(** The rest of a call. *)
Definition callTool_ends (x : CallToolResult + Paying) : M Session CallToolResult :=
  match x with
  | inl result0 => ret result0
  | inr p => callTool_pays p
  end.

(** Two calls on one client that overlap: both have checked the budget
    and signed before either sends its paid request, as when the second
    call is made while the first awaits. *)
Definition overlapping (this : Client.MCPClient) (first second : string * string * JSON.Json)
  : M Session (CallToolResult * CallToolResult) :=
  (let '(serverUrl1, toolName1, params1) := first in
   let '(serverUrl2, toolName2, params2) := second in
   x1 <- callTool_asks this serverUrl1 toolName1 params1 ;;
   x2 <- callTool_asks this serverUrl2 toolName2 params2 ;;
   result1 <- callTool_ends x1 ;;
   result2 <- callTool_ends x2 ;;
   ret (result1, result2))%js.

End Caller.

(* ========================================================================= *)
(** * Vocabulary of the properties                                           *)
(* ========================================================================= *)

Module BudgetSpec.

Import Budget.

Fixpoint sum_Z (l : list Z) : Z :=
  match l with
  | [] => 0
  | x :: r => x + sum_Z r
  end.

(** The amounts of the calls that return: a call whose amount is not a
    BigInt literal throws and records no spending. *)
Fixpoint returned_amounts (calls : list (Z * SpendingEntry)) : list Z :=
  match calls with
  | [] => []
  | (_, e) :: rest =>
      match StringToBigInt (entry_amount e) with
      | Some a => a :: returned_amounts rest
      | None => returned_amounts rest
      end
  end.

(** The integer sum of the amounts held by a transaction list, when every
    one of them is a BigInt literal. *)
Fixpoint recorded_total (txs : list BudgetTransaction) : option Z :=
  match txs with
  | [] => Some 0
  | tx :: rest =>
      match StringToBigInt (amount tx), recorded_total rest with
      | Some a, Some s => Some (a + s)
      | _, _ => None
      end
  end.

Definition stamp (c : Z * SpendingEntry) : BudgetTransaction :=
  mkBudgetTransaction (entry_toolName (snd c)) (entry_serverUrl (snd c))
    (entry_amount (snd c)) (entry_txHash (snd c)) (fst c).

Definition all_literals (calls : list (Z * SpendingEntry)) : Prop :=
  Forall (fun c => StringToBigInt (entry_amount (snd c)) <> None) calls.

Definition sample_calls : list (Z * Budget.SpendingEntry) :=
  [(1700000000000, Budget.mkSpendingEntry "get_ohlcv" "http://localhost:3001" "1000" "0xabc");
   (1700000001000, Budget.mkSpendingEntry "get_trades" "http://localhost:3001" "2500" "0xdef")].

End BudgetSpec.

Import BudgetSpec.

Module FacilitatorSpec.

Import Core.

(** Everything of the world that a facilitator call leaves alone: the
    environment, the ledger and the call counters. *)
Definition same_heap (w w' : World) : Prop :=
  verify_net w' = verify_net w /\ settle_net w' = settle_net w /\
  uuid_source w' = uuid_source w /\ uuids w' = uuids w /\
  nonce_source w' = nonce_source w /\ nonces w' = nonces w /\
  payments w' = payments w /\ toolCalls w' = toolCalls w.

Definition is_throw {T} (c : Completion T) : Prop := exists e, c = Throw e.

Definition thrown_of {T} (c : Completion T) : Thrown :=
  match c with
  | Throw e => e
  | Normal _ => undefined_thrown
  end.

(** The log of [k] failed attempts of the facilitator's [retry], the first
    of them being attempt number [i] of [retries]. *)
Fixpoint failed_log (url header : string) (retries : nat) (delay : Z) (k i : nat)
  : list Event :=
  match k with
  | O => []
  | S k' =>
      (Fetched url header
         :: (if Z.of_nat i <? Z.of_nat retries - 1
             then [Slept (delay * (Z.of_nat i + 1))] else [])
         ++ failed_log url header retries delay k' (S i))%list
  end.

(** The error in hand when the loop is left after [remaining] failures. *)
Definition final_error {T} (net : nat -> Completion T) (first remaining : nat)
           (lastError : option Thrown) : Thrown :=
  match remaining with
  | O => match lastError with Some e => e | None => undefined_thrown end
  | S r => Facilitator.to_Error (thrown_of (net (first + r)%nat))
  end.

(** A transport-level failure of a call: the fetch throws, or the response
    has a status outside 200..299. *)
Definition transport_failure {B} (o : FetchOutcome B) : Prop :=
  match o with
  | FetchRejects _ => True
  | FetchResponds status _ _ => response_ok status = false
  end.

(** The waits [delay * (i + 1)] for [i = 0 .. n - 1]. *)
Definition linear_waits (delay : Z) (n : nat) : list Z :=
  map (fun i => delay * (Z.of_nat i + 1)) (seq 0 n).

(** The waits [baseDelay * 2 ^ i] for [i = 0 .. n - 1]. *)
Definition exponential_waits (baseDelay : Z) (n : nat) : list Z :=
  map (fun i => baseDelay * 2 ^ Z.of_nat i) (seq 0 n).

(** A sequence of waits grows exponentially: wait number [i] is a base
    delay times the [i]-th power of one fixed multiplier [p / q]. *)
Definition geometric (waits : list Z) : Prop :=
  exists base p q : Z,
    0 < q /\
    forall (i : nat) (d : Z), nth_error waits i = Some d -> d * q ^ Z.of_nat i = base * p ^ Z.of_nat i.

(** An idle world: clock at zero, empty log, empty ledger, and a
    facilitator given by the two scripts. *)
Definition idle (v : nat -> FetchOutcome VerifyResponse) (s : nat -> FetchOutcome SettleData)
  : World :=
  mkWorld 0 v s 0 (fun n => "uuid-" ++ toString (Z.of_nat n)) 0
    (fun n => "0x" ++ toString (Z.of_nat n)) 0 [] [] [].

(** An attempt of a facilitator call: one request, whose outcome is the
    next one of the script. *)
Definition attempt {T} (net : World -> nat -> Completion T) (url header : string)
  : M World T :=
  fun w => (net w (fetches w), with_fetch w url header).

(** The URLs of the two calls and the outcomes of their attempts. *)
Definition verify_url (this : Facilitator.FacilitatorClient) : string :=
  Facilitator.baseUrl this ++ Core.FACILITATOR_ENDPOINTS_VERIFY.

Definition settle_url (this : Facilitator.FacilitatorClient) : string :=
  Facilitator.baseUrl this ++ Core.FACILITATOR_ENDPOINTS_SETTLE.

Definition verify_script (w : World) (n : nat) : Completion VerifyResponse :=
  Facilitator.verify_result (verify_net w n).

Definition settle_script (w : World) (n : nat) : Completion Facilitator.SettleResponse :=
  Facilitator.settle_result (settle_net w n).

(** The error of an attempt whose request failed at the transport level,
    written out: what [fetch] threw when that is an [Error], a new [Error]
    with the text of the thrown value when it is not, and for an answer
    outside 200..299 a new [Error] that quotes the status and the body. *)
Definition fault (call : string) {B} (o : FetchOutcome B) : Thrown :=
  match o with
  | FetchRejects (ErrorObject name message) => ErrorObject name message
  | FetchRejects (NonError text) => ErrorObject "Error" text
  | FetchResponds status responseText _ =>
      ErrorObject "Error" (call ++ " failed: " ++ toString status ++ " - " ++ responseText)
  end.

(** The terminal error of a call whose [N] attempts all failed: the error
    of the last attempt, and [undefined] when no attempt was made. *)
Definition terminal_error (call : string) {B} (net : nat -> FetchOutcome B)
           (first N : nat) : Thrown :=
  match N with
  | O => NonError "undefined"
  | S n => fault call (net (first + n)%nat)
  end.

(** An error of a class of its own named [FacilitatorUnavailable], as the
    specification has it. *)
Definition FacilitatorUnavailable (e : Thrown) : Prop :=
  exists message, e = ErrorObject "FacilitatorUnavailable" message.

End FacilitatorSpec.

Import FacilitatorSpec.

Module Samples.

Import Core.

Definition sample_tool : PricedTool :=
  mkPricedTool "get_ohlcv" "Get OHLCV candlestick data" "1000" (JSON.JObject []).

Definition sample_handler : PaymentHandler.PaymentHandler :=
  PaymentHandler.new
    (PaymentHandler.mkPaymentHandlerConfig "0x1111111111111111111111111111111111111111"
       testnet None).

Definition sample_requirements : PaymentRequirements :=
  PaymentHandler.createPaymentRequirements sample_handler sample_tool "tool://get_ohlcv".

Definition service_unavailable {B} : nat -> FetchOutcome B :=
  fun _ => FetchResponds 503 "Service Unavailable" None.

Definition rejecting_verify : nat -> FetchOutcome VerifyResponse :=
  fun _ => FetchResponds 200 "verify body"
             (Some (mkVerifyResponse false (Some "invalid_signature") None)).

Definition accepting_verify : nat -> FetchOutcome VerifyResponse :=
  fun _ => FetchResponds 200 "verify body"
             (Some (mkVerifyResponse true None
                      (Some "0x2222222222222222222222222222222222222222"))).

Definition failing_settle : nat -> FetchOutcome SettleData :=
  fun _ => FetchResponds 200 "settle body"
             (Some (mkSettleData (Some "payment.failed") None None None None None None None
                      (Some "insufficient_funds"))).

Definition settling : nat -> FetchOutcome SettleData :=
  fun _ => FetchResponds 200 "settle body"
             (Some (mkSettleData (Some "payment.settled") (Some "0xabc")
                      (Some "0x2222222222222222222222222222222222222222")
                      (Some "0x1111111111111111111111111111111111111111") (Some "1000")
                      (Some 42) (Some "cronos-testnet") (Some "2025-01-01T00:00:00Z") None)).

Definition sample_client : Facilitator.FacilitatorClient :=
  Facilitator.new None None None.

Definition four_attempts : Facilitator.FacilitatorClient :=
  Facilitator.new None None (Some 4%nat).

End Samples.

Import Samples.

Module OrchestratorSpec.

Import Core.

(** The requirements of a tool call, built as the middleware builds them. *)
Definition requirements_of (this : PaymentHandler.PaymentHandler) (tool : PricedTool)
  : PaymentRequirements :=
  PaymentHandler.createPaymentRequirements this tool ("tool://" ++ name tool).

(** How the exchange with the facilitator ends for an attached payment. *)
Inductive Exchange : Type :=
| VerifyUnavailable (e : Thrown)
| Rejected (v : VerifyResponse)
| SettleUnavailable (e : Thrown)
| SettlementFailed (s : Facilitator.SettleResponse)
| Settled (v : VerifyResponse) (s : Facilitator.SettleResponse).

Definition exchange (this : PaymentHandler.PaymentHandler) (header : string)
           (tool : PricedTool) (w : World) : Exchange :=
  match Facilitator.verify (PaymentHandler.facilitator this) header
          (requirements_of this tool) w with
  | (Throw e, _) => VerifyUnavailable e
  | (Normal v, w1) =>
      if isValid v then
        match Facilitator.settle (PaymentHandler.facilitator this) header
                (requirements_of this tool) w1 with
        | (Throw e, _) => SettleUnavailable e
        | (Normal s, _) => if Facilitator.success s then Settled v s else SettlementFailed s
        end
      else Rejected v
  end.

(** The text that the middleware puts in [error] for a thrown value. *)
Definition surfaced_message (e : Thrown) : string :=
  if instanceof_Error e then message_of e else "Payment failed".

(** Every error with which a fetch of the facilitator rejects carries a
    message, as the errors of the runtime do ([fetch failed], the time-out
    of the abort signal). *)
Definition faults_described (w : World) : Prop :=
  forall n e,
    verify_net w n = FetchRejects e \/ settle_net w n = FetchRejects e ->
    message_of (Facilitator.to_Error e) <> EmptyString.

Definition sample_registered : Server.RegisteredTool :=
  Server.mkRegisteredTool sample_tool (fun _ => Normal (JSON.JString "candles")).

Definition bare_request : Server.RequestContext :=
  Server.mkRequestContext "POST" "/tools/get_ohlcv" [("content-type", "application/json")]
    (JSON.JObject []).

Definition paying_request : Server.RequestContext :=
  Server.mkRequestContext "POST" "/tools/get_ohlcv"
    [("content-type", "application/json"); ("x-payment", "eyJ4NDAyVmVyc2lvbiI6MX0=")]
    (JSON.JObject []).

End OrchestratorSpec.

Import OrchestratorSpec.

Module SigningSpec.

Import Core.

Definition sample_wallet : Signing.Wallet :=
  Signing.mkWallet "0x3333333333333333333333333333333333333333"
    (fun _ _ => Normal "0x5169e7a7").

(** Requirements that allow ten minutes. *)
Definition long_requirements : PaymentRequirements :=
  mkPaymentRequirements "exact" "cronos-testnet" "1000" "tool://get_ohlcv"
    (Some "Get OHLCV candlestick data") "application/json"
    "0x1111111111111111111111111111111111111111" 600
    "0xc01efAaF7C5C61bEbFAeb358E1161b537b8bC0e0".

(** An idle world whose clock reads [now] milliseconds. *)
Definition at_time (now : Z) : World :=
  mkWorld now accepting_verify settling 0 (fun n => "uuid-" ++ toString (Z.of_nat n)) 0
    (fun n => "0x" ++ toString (Z.of_nat n)) 0 [] [] [].

(** The [validBefore] of the payload that a header carries. *)
Definition validBefore_of (header : Completion string) : option Z :=
  match header with
  | Normal h =>
      match Signing.decodePaymentHeader h with
      | Normal j =>
          match Signing.of_json j with
          | Some p => Some (Signing.validBefore (Signing.payload p))
          | None => None
          end
      | Throw _ => None
      end
  | Throw _ => None
  end.

Definition sample_payload : Signing.CronosPaymentPayload :=
  Signing.mkCronosPaymentPayload 1 "exact" "cronos-testnet"
    (Signing.mkAuthorization "0x3333333333333333333333333333333333333333"
       "0x1111111111111111111111111111111111111111" "1000" 0 1700000300
       "0x00000000000000000000000000000000000000000000000000000000000000ff"
       "0x5169e7a7" "0xc01efAaF7C5C61bEbFAeb358E1161b537b8bC0e0").

End SigningSpec.

Import SigningSpec.

Module JsonSpec.

Import JSON.

Fixpoint distinct (keys : list string) : bool :=
  match keys with
  | [] => true
  | k :: r => negb (existsb (String.eqb k) r) && distinct r
  end.

(** The values that [stringify] writes and [parse] reads back unchanged:
    integers for numbers, and no key twice in an object. *)
Fixpoint clean (j : Json) : bool :=
  match j with
  | JFraction _ => false
  | JArray items => forallb clean items
  | JObject members =>
      forallb (fun kv => clean (snd kv)) members && distinct (map fst members)
  | _ => true
  end.

(** An upper bound of the fuel that parsing the text of a value takes. *)
Fixpoint size (j : Json) : nat :=
  match j with
  | JArray items => S (list_sum (map (fun x => S (size x)) items))
  | JObject members => S (list_sum (map (fun kv => S (size (snd kv))) members))
  | _ => 1%nat
  end.

(** What may follow a value inside a text: nothing, or the character that
    separates or closes. *)
Definition delimited (rest : string) : Prop :=
  match rest with
  | EmptyString => True
  | String c _ => c = ","%char \/ c = "]"%char \/ c = "}"%char
  end.

(** RFC 4648 base64: groups of four characters of the alphabet, the last
    group padded with one or two [=]. *)
Definition in_alphabet (c : ascii) : bool :=
  let n := code c in
  ((65 <=? n) && (n <=? 90)) || ((97 <=? n) && (n <=? 122)) || ((48 <=? n) && (n <=? 57))
  || (n =? 43) || (n =? 47).

Fixpoint valid_base64 (text : string) : bool :=
  match text with
  | EmptyString => true
  | String a (String b (String c (String d rest))) =>
      in_alphabet a && in_alphabet b &&
      match rest with
      | EmptyString =>
          (in_alphabet c && in_alphabet d)
          || (in_alphabet c && Ascii.eqb d "="%char)
          || (Ascii.eqb c "="%char && Ascii.eqb d "="%char)
      | _ => in_alphabet c && in_alphabet d && valid_base64 rest
      end
  | _ => false
  end.

(** What may follow a number: no digit, no fraction, no exponent. *)
Definition number_delimited (rest : string) : Prop :=
  match rest with
  | EmptyString => True
  | String c _ =>
      JSON.is_digit c = false /\ Ascii.eqb c "."%char = false /\
      Ascii.eqb c "e"%char = false /\ Ascii.eqb c "E"%char = false
  end.

(** A value is parsed back from its text, whatever follows the text. *)
Definition round_trips (j : Json) : Prop :=
  forall fuel rest,
    (size j <= fuel)%nat -> delimited rest ->
    parse_value fuel (stringify j ++ rest) = Some (j, rest).

(** A text is valid JSON: the parser reads one value from it, with whatever
    fuel, and only white space is left. *)
Definition valid_json (text : string) : Prop :=
  exists f j rest, parse_value f text = Some (j, rest) /\ skip_ws rest = EmptyString.

(** The text of one member of an object. *)
Definition member_text (kv : string * Json) : string :=
  quote (fst kv) ++ ":" ++ stringify (snd kv).

End JsonSpec.

Import JsonSpec.

Module CodecSpec.

(** [payload.asset] of a decoded header, when it is a string. *)
Definition payload_asset (decoded : Completion JSON.Json) : option string :=
  match decoded with
  | Normal j =>
      match JSON.member "payload" j with
      | Some inner => Signing.string_member "asset" inner
      | None => None
      end
  | Throw _ => None
  end.

(** The way both [createPaymentHeader] functions encode their payload. *)
Definition encode (p : Signing.CronosPaymentPayload) : string :=
  Buffer.toString_base64 (Buffer.from_utf8 (JSON.stringify (Signing.to_json p))).

(** The text that a header holds for [JSON.parse]. *)
Definition header_text (base64Header : string) : string :=
  Buffer.toString_utf8 (Buffer.from_base64 base64Header).

End CodecSpec.

Import CodecSpec.

Module RetrySpec.

(** The value in hand when the loop of the core [retry] is left after
    [remaining] failures: the value thrown last, as it was thrown. *)
Definition core_final_error {T} (net : nat -> Completion T) (first remaining : nat)
           (lastError : option Thrown) : Thrown :=
  match remaining with
  | O => match lastError with Some e => e | None => undefined_thrown end
  | S r => thrown_of (net (first + r)%nat)
  end.

(** The last character of a text is a slash. *)
Fixpoint ends_with_slash (s : string) : bool :=
  match s with
  | EmptyString => false
  | String c EmptyString => Ascii.eqb c "/"%char
  | String _ r => ends_with_slash r
  end.

(** A facilitator whose first [k] answers are 503 and whose later answers
    accept the payment. *)
Definition recovering_verify (k : nat) : nat -> FetchOutcome VerifyResponse :=
  fun n => if (n <? k)%nat then service_unavailable n else accepting_verify n.

(** A facilitator that answers 200 with a page that is not JSON. *)
Definition html_answers {B} : nat -> FetchOutcome B :=
  fun _ => FetchResponds 200 "<html>ok</html>" None.

End RetrySpec.

Module TransportSpec.

(** The headers of the answers that the listener writes on its own
    account. *)
Definition plain_headers : list (string * string) :=
  Transport.spread [("Content-Type", "application/json")] Transport.getCorsHeaders.

(** The runtime takes the heads that the listener writes on its own
    account: 204 with the CORS headers, 404 and 500 with the content type
    added. *)
Definition takes_fixed_heads (head_error : Z -> list (string * string) -> option Thrown) : Prop :=
  head_error 204 Transport.getCorsHeaders = None /\
  head_error 404 plain_headers = None /\
  head_error 500 plain_headers = None.

(** The address against which the target of a request is resolved. *)
Definition base_of {R} (this : Transport.HttpTransport R) : string :=
  "http://" ++ Transport.host this ++ ":" ++ toString (Transport.port this).

(** The request has been answered: [end] was called. *)
Definition answered (res : Transport.Res) : Prop := Transport.ended res <> None.

(** The answer with a status, headers and a text. *)
Definition answer (statusCode0 : Z) (headers0 : list (string * string)) (text : option string)
  : Transport.Res :=
  Transport.mkRes (Some (statusCode0, headers0)) (Some text).

(** A runtime to try the listener on: a target that starts with two
    slashes is no URL and any other target is its own path; a status code
    is taken from 100 to 999; a body is a JSON value, or a BigInt, which
    [JSON.stringify] does not write. *)
Definition sample_pathname (input base : string) : Completion string :=
  match input with
  | String "/" (String "/" _) => Throw (ErrorObject "TypeError" "Invalid URL")
  | _ => Normal input
  end.

Definition range_check (statusCode0 : Z) (headers0 : list (string * string)) : option Thrown :=
  if (100 <=? statusCode0) && (statusCode0 <=? 999) then None
  else Some (ErrorObject "RangeError" ("Invalid status code: " ++ toString statusCode0)).

Inductive SampleBody : Type :=
| Plain (j : JSON.Json)
| Big (n : Z).

Definition sample_stringify (b : SampleBody) : Completion (option string) :=
  match b with
  | Plain j => Normal (Some (JSON.stringify j))
  | Big _ => Throw (ErrorObject "TypeError" "Do not know how to serialize a BigInt")
  end.

(** A transport with one handler, which answers with the body it was
    registered with, and a request for it. *)
Definition echo (b : SampleBody) : Transport.HttpTransport SampleBody :=
  Transport.route "GET" "/balance" b (Transport.new (Transport.mkTransportConfig None None None)).

Definition run_echo (b : SampleBody) (ctx : Server.RequestContext)
  : M unit (Transport.ResponseContext SampleBody) :=
  ret (Transport.mkResponseContext 200 [] b).

Definition asking (target : string) : Transport.Arriving :=
  Transport.mkArriving (Some "GET") (Some target) [] (Normal []).

End TransportSpec.

Module ServerSpec.

Import Core.







(** A [POST] request with headers and a body, and a [GET] request. *)
Definition POST (path : string) (headers : list (string * Transport.HeaderValue))
           (chunks : list string) : Transport.IncomingMessage :=
  Transport.mkIncomingMessage (Some "POST") path headers chunks.


(** Totals over the statistics by tool. *)
Definition total_revenue (stats : list (string * MCPServer.Aggregate)) : Z :=
  sum_Z (map (fun entry => MCPServer.revenue (snd entry)) stats).

Definition total_calls (stats : list (string * MCPServer.Aggregate)) : Z :=
  sum_Z (map (fun entry => MCPServer.calls (snd entry)) stats).

(** The price of a tool is an integer above zero. *)
Definition priced (tool : Server.RegisteredTool) : bool :=
  match StringToBigInt (price (Server.definition tool)) with
  | Some p => 0 <? p
  | None => false
  end.

(** A payment was made for the tool of this name. *)
Definition paid_for (name0 : string) (payments0 : list PaymentRecord) : bool :=
  existsb (fun payment => String.eqb (World.toolName payment) name0) payments0.

(** A server configuration and tools to try things on. *)
Definition sample_config : MCPServer.ServerConfig :=
  MCPServer.mkServerConfig "market-data-server" "1.0.0" (Some "Crypto.com market data")
    "0x1111111111111111111111111111111111111111" None testnet (Some 3001) None.

Definition ping : Server.RegisteredTool :=
  Server.mkRegisteredTool (mkPricedTool "ping" "Health check" "0" (JSON.JObject []))
    (fun _ => Normal (JSON.JObject [("pong", JSON.JBool true)])).


(** The state that a computation leaves, and its result. *)
Definition after {S A} (c : M S A) (s : S) : S := snd (c s).

End ServerSpec.

Module CallerSpec.

Import Core.

(** The answer [402 Payment Required] with these requirements. *)
Definition challenge (requirements : PaymentRequirements) : Caller.Answer :=
  Caller.Answered 402 "Payment Required"
    (Some (Caller.mkAnswerBody None None (Some requirements) (Some "Payment Required"))).

(** The answer [200 OK] to a paid call. *)
Definition served (result : JSON.Json) (txHash : string) : Caller.Answer :=
  Caller.Answered 200 "OK"
    (Some (Caller.mkAnswerBody (Some result) (Some (Caller.mkPaymentInfo (Some txHash)))
             None None)).

(** The answer [402] to a payment that the server does not accept. *)
Definition refused (message : string) : Caller.Answer :=
  Caller.Answered 402 "Payment Required"
    (Some (Caller.mkAnswerBody None None None (Some message))).

(** A client session with the given budget, at the given time. *)
Definition session (total spent : Z) (answers : nat -> Caller.Answer) : Caller.Session :=
  Caller.mkSession (at_time 1700000000000) (Budget.mkBudgetManager total spent []) answers [].

Definition sample_caller : Client.MCPClient :=
  Client.mkMCPClient testnet (Some sample_wallet).

(** The budget is respected: what was spent does not exceed the total. *)
Definition within_budget (s : Caller.Session) : Prop :=
  Budget.spent (Caller.budget s) <= Budget.total (Caller.budget s).

(** The requirements of a tool that costs 60, and a server that answers
    the first two requests with them and serves every later request. *)
Definition costing_60 : PaymentRequirements :=
  PaymentHandler.createPaymentRequirements sample_handler
    (mkPricedTool "get_ohlcv" "Get OHLCV candlestick data" "60" (JSON.JObject []))
    "tool://get_ohlcv".

Definition challenges_twice (n : nat) : Caller.Answer :=
  if (n <? 2)%nat then challenge costing_60 else served (JSON.JString "candles") "0xabc".

End CallerSpec.

(* ========================================================================= *)
(** * Properties                                                             *)
(* ========================================================================= *)

Example bigint_samples :
  (Js.StringToBigInt "1000", Js.StringToBigInt " -12 ", Js.StringToBigInt "", Js.StringToBigInt "0x1f",
   Js.StringToBigInt "abc", Js.StringToBigInt "1.5", Js.StringToBigInt "-", Js.StringToBigInt "0x")
  = (Some 1000, Some (-12), Some 0, Some 31, None, None, None, None).
Proof. vm_compute. reflexivity. Qed.

(** White space around a literal is stripped, also the white space that
    is written with several bytes: U+00A0, U+2003, U+2028, U+3000, U+FEFF. *)
Example bigint_white_space :
  let text (bytes : list Z) (rest : string) :=
    fold_right (fun b r => String (Buffer.byte b) r) rest bytes in
  (Js.StringToBigInt (text [194; 160] "5"),
   Js.StringToBigInt (text [239; 187; 191; 9] ("42" ++ text [226; 128; 131; 226; 128; 168] "")),
   Js.StringToBigInt (text [227; 128; 128] ("-7" ++ text [194; 160; 32] "")),
   Js.StringToBigInt (text [194; 160; 226; 128; 169] ""),
   Js.StringToBigInt ("1" ++ text [194; 160] "2"),
   Js.StringToBigInt (text [226; 128; 139] "5"),
   Js.StringToBigInt (text [194] "5"))
  = (Some 5, Some 42, Some (-7), Some 0, None, None, None).
Proof. vm_compute. reflexivity. Qed.


(** ** Budget manager *)

Section BudgetFacts.

Import Budget.

Lemma sum_Z_app l1 l2 : sum_Z (l1 ++ l2) = sum_Z l1 + sum_Z l2.
Proof. induction l1 as [|x l1 IH]; simpl; lia. Qed.

Lemma recorded_total_app txs1 txs2 s1 s2 :
  recorded_total txs1 = Some s1 -> recorded_total txs2 = Some s2 ->
  recorded_total (txs1 ++ txs2) = Some (s1 + s2).
Proof.
  revert s1. induction txs1 as [|tx txs1 IH]; simpl; intros s1 H1 H2.
  - injection H1 as <-. rewrite H2. f_equal.
  - destruct (StringToBigInt (amount tx)) as [a|]; [|discriminate].
    destruct (recorded_total txs1) as [s|] eqn:E; [|discriminate].
    injection H1 as <-. rewrite (IH s eq_refl H2). f_equal. lia.
Qed.

Lemma recordSpending_literal now e a this :
  StringToBigInt (entry_amount e) = Some a ->
  recordSpending now e this =
    (Normal tt, mkBudgetManager (total this) (spent this + a)
                  (transactions this ++ [stamp (now, e)])%list).
Proof. intros H. unfold recordSpending, BigInt. rewrite H. reflexivity. Qed.

Lemma recordSpending_malformed now e this :
  StringToBigInt (entry_amount e) = None ->
  exists err,
    recordSpending now e this =
      (Throw err, mkBudgetManager (total this) (spent this)
                    (transactions this ++ [stamp (now, e)])%list).
Proof. intros H. unfold recordSpending, BigInt. rewrite H. eexists. reflexivity. Qed.

(** The run of a sequence of calls from any manager. *)
Lemma recordEach_run calls : forall this,
  let b := snd (recordEach calls this) in
  total b = total this /\
  spent b = spent this + sum_Z (returned_amounts calls) /\
  transactions b = (transactions this ++ map stamp calls)%list.
Proof.
  induction calls as [|[now e] calls IH]; intros this; simpl.
  - repeat split; try lia. now rewrite List.app_nil_r.
  - destruct (StringToBigInt (entry_amount e)) as [a|] eqn:E.
    + rewrite (recordSpending_literal now e a this E).
      specialize (IH (mkBudgetManager (total this) (spent this + a)
                        (transactions this ++ [stamp (now, e)])%list)).
      destruct (recordEach calls _) as [rs b]. simpl in *.
      destruct IH as (Ht & Hs & Htx). repeat split; auto; try lia.
      rewrite Htx, <- List.app_assoc. reflexivity.
    + destruct (recordSpending_malformed now e this E) as [err ->].
      specialize (IH (mkBudgetManager (total this) (spent this)
                        (transactions this ++ [stamp (now, e)])%list)).
      destruct (recordEach calls _) as [rs b]. simpl in *.
      destruct IH as (Ht & Hs & Htx). repeat split; auto.
      rewrite Htx, <- List.app_assoc. reflexivity.
Qed.

Lemma recordEach_results calls : forall this,
  fst (recordEach calls this) =
    map (fun c => match BigInt (entry_amount (snd c)) with
                  | Normal _ => Normal tt
                  | Throw err => Throw err
                  end) calls.
Proof.
  induction calls as [|[now e] calls IH]; intros this; simpl; [reflexivity|].
  unfold recordSpending at 1. simpl.
  destruct (BigInt (entry_amount e)) as [a|err];
    match goal with |- context [recordEach calls ?b] =>
      specialize (IH b); destruct (recordEach calls b) as [rs b'] end;
    simpl in *; now rewrite IH.
Qed.

Lemma recorded_total_literals calls :
  all_literals calls ->
  recorded_total (map stamp calls) = Some (sum_Z (returned_amounts calls)).
Proof.
  induction 1 as [|[now e] calls Hc Hall IH]; simpl; [reflexivity|].
  simpl in Hc. destruct (StringToBigInt (entry_amount e)) as [a|]; [|congruence].
  rewrite IH. reflexivity.
Qed.

End BudgetFacts.

(** What the budget manager does apart from the defect shown below.  After
    any sequence of [recordSpending] calls on a fresh budget manager,
    [spent] is the exact integer sum of the amounts of the calls that
    returned; when every call carries an integer amount this is the sum of
    the amounts of all recorded transactions.  [getRemaining] and the
    [remaining] of [getState] are computed as [total - spent] from the two
    stored fields, for every manager. *)
Theorem budget_spent_is_sum_and_remaining_is_computed :
  forall (total0 : Z) (calls : list (Z * Budget.SpendingEntry)),
    let b := snd (Budget.recordEach calls (Budget.mkBudgetManager total0 0 [])) in
    Budget.getSpent b = sum_Z (returned_amounts calls) /\
    Budget.getTransactions b = map stamp calls /\
    (all_literals calls ->
     recorded_total (Budget.getTransactions b) = Some (Budget.getSpent b)) /\
    Budget.getRemaining b = total0 - Budget.getSpent b /\
    Budget.state_spent (Budget.getState b) = toString (Budget.getSpent b) /\
    Budget.state_remaining (Budget.getState b) = toString (total0 - Budget.getSpent b) /\
    (forall m : Budget.BudgetManager,
        Budget.getRemaining m = Budget.total m - Budget.spent m /\
        Budget.state_remaining (Budget.getState m) = toString (Budget.total m - Budget.spent m)).
Proof.
  intros total0 calls b.
  destruct (recordEach_run calls (Budget.mkBudgetManager total0 0 [])) as (Ht & Hs & Htx).
  fold b in Ht, Hs, Htx. simpl in Ht, Hs, Htx.
  unfold Budget.getSpent, Budget.getTransactions, Budget.getRemaining, Budget.getState. simpl.
  rewrite Ht, Hs, Htx. simpl.
  repeat split; try reflexivity.
  intros Hall. now apply recorded_total_literals.
Qed.

Lemma budget_spent_is_sum_and_remaining_is_computed_witness :
  all_literals sample_calls /\
  recorded_total
    (Budget.getTransactions
       (snd (Budget.recordEach sample_calls (Budget.mkBudgetManager 5000 0 [])))) = Some 3500.
Proof.
  assert (H : all_literals sample_calls).
  { repeat constructor; vm_compute; discriminate. }
  split; [exact H|].
  exact (proj1 (proj2 (proj2 (budget_spent_is_sum_and_remaining_is_computed 5000 sample_calls))) H).
Defined.

(** C5, the defect.  The claim holds that [spent] is the sum of all
    recorded amounts after any sequence of calls.  [recordSpending] pushes
    the transaction before it converts the amount, so a call whose amount
    is no integer throws after the transaction has been recorded.  After
    the calls with the amounts ["1.5"] and ["3"] on a new manager with a
    total of 100, the first call has thrown a [SyntaxError] and the second
    has returned; the history holds both transactions, [spent] is 3, and
    the recorded amounts have no integer sum ([spent] leaves out the 1.5
    that was recorded); [remaining] is still [total - spent]. *)
Theorem spent_misses_a_recorded_amount :
  let calls :=
    [(1700000000000, Budget.mkSpendingEntry "get_ohlcv" "http://localhost:3001" "1.5" "0xabc");
     (1700000001000, Budget.mkSpendingEntry "get_trades" "http://localhost:3001" "3" "0xdef")] in
  let run := Budget.recordEach calls (Budget.mkBudgetManager 100 0 []) in
  fst run = [Throw (ErrorObject "SyntaxError" "Cannot convert 1.5 to a BigInt"); Normal tt] /\
  map Budget.amount (Budget.getTransactions (snd run)) = ["1.5"; "3"] /\
  Budget.getSpent (snd run) = 3 /\
  recorded_total (Budget.getTransactions (snd run)) = None /\
  recorded_total (Budget.getTransactions (snd run)) <> Some (Budget.getSpent (snd run)) /\
  Budget.getRemaining (snd run) = 97 /\
  Budget.state_spent (Budget.getState (snd run)) = "3" /\
  Budget.state_remaining (Budget.getState (snd run)) = "97".
Proof. vm_compute. repeat split; try reflexivity. discriminate. Qed.


(** C10. [recordSpending] checks no ceiling: on every manager, a call whose
    amount is an integer returns, adds exactly that amount to [spent] and
    appends the transaction, whatever [canSpend] answers; when the new
    [spent] exceeds [total], [canSpend] had answered [false] and
    [getRemaining] is negative afterwards. *)
Theorem recordSpending_enforces_no_ceiling :
  forall (this : Budget.BudgetManager) (now : Z) (entry : Budget.SpendingEntry) (a : Z),
    StringToBigInt (Budget.entry_amount entry) = Some a ->
    exists this',
      Budget.recordSpending now entry this = (Normal tt, this') /\
      Budget.getSpent this' = Budget.getSpent this + a /\
      Budget.total this' = Budget.total this /\
      Budget.getTransactions this' = (Budget.getTransactions this ++ [stamp (now, entry)])%list /\
      (Budget.spent this + a > Budget.total this ->
       fst (Budget.canSpend (Budget.entry_amount entry) this) = Normal false /\
       Budget.getRemaining this' < 0).
Proof.
  intros this now entry a Ha.
  eexists. split; [apply (recordSpending_literal now entry a this Ha)|].
  unfold Budget.getSpent, Budget.getTransactions, Budget.getRemaining, Budget.canSpend, BigInt.
  rewrite Ha. simpl. repeat split; try reflexivity.
  - f_equal. apply Z.leb_gt. lia.
  - lia.
Qed.

Lemma recordSpending_enforces_no_ceiling_witness :
  exists this',
    Budget.recordSpending 1700000000000
      (Budget.mkSpendingEntry "get_ohlcv" "http://localhost:3001" "1000" "0xabc")
      (Budget.mkBudgetManager 500 0 []) = (Normal tt, this') /\
    Budget.getSpent this' = 1000 /\ Budget.getRemaining this' < 0.
Proof.
  destruct (recordSpending_enforces_no_ceiling (Budget.mkBudgetManager 500 0 []) 1700000000000
              (Budget.mkSpendingEntry "get_ohlcv" "http://localhost:3001" "1000" "0xabc") 1000
              eq_refl) as (this' & Hrun & Hspent & _ & _ & Hneg).
  exists this'. split; [exact Hrun|]. split; [exact Hspent|].
  apply Hneg. simpl. lia.
Defined.


(** ** The facilitator's retry loop *)

Section RetryLoop.

Context {T : Type}.
Variable net : World -> nat -> Completion T.
Variables url header : string.
Variable retries : nat.
Variable delay : Z.

Hypothesis net_stable : forall w w', same_heap w w' -> net w' = net w.

Lemma same_heap_refl w : same_heap w w.
Proof. repeat split. Qed.

Lemma same_heap_trans w1 w2 w3 : same_heap w1 w2 -> same_heap w2 w3 -> same_heap w1 w3.
Proof.
  unfold same_heap. intros (a1 & a2 & a3 & a4 & a5 & a6 & a7 & a8)
                           (b1 & b2 & b3 & b4 & b5 & b6 & b7 & b8).
  repeat split; congruence.
Qed.

Lemma same_heap_fetch w u h : same_heap w (with_fetch w u h).
Proof. repeat split. Qed.

Lemma same_heap_sleep w ms : same_heap w (snd (sleep ms w)).
Proof. repeat split. Qed.

(** The loop either returns the value of the first attempt that does not
    throw, or throws after [remaining] failed attempts. *)
Lemma retry_from_cases (remaining : nat) :
  forall (i : nat) (lastError : option Thrown) (w : World),
  exists r w',
    Facilitator.retry_from (attempt net url header) retries delay remaining i lastError w = (r, w') /\
    same_heap w w' /\
    ((exists k a,
         (k < remaining)%nat /\
         (forall j, (j < k)%nat -> is_throw (net w (fetches w + j)%nat)) /\
         net w (fetches w + k)%nat = Normal a /\ r = Normal a /\
         fetches w' = (fetches w + S k)%nat /\
         log w' = (log w ++ failed_log url header retries delay k i
                     ++ [Fetched url header])%list)
     \/
     ((forall j, (j < remaining)%nat -> is_throw (net w (fetches w + j)%nat)) /\
      r = Throw (final_error (net w) (fetches w) remaining lastError) /\
      fetches w' = (fetches w + remaining)%nat /\
      log w' = (log w ++ failed_log url header retries delay remaining i)%list)).
Proof.
  induction remaining as [|remaining IH]; intros i lastError w.
  - exists (Throw (final_error (net w) (fetches w) 0 lastError)), w.
    split; [simpl; destruct lastError; reflexivity|].
    split; [apply same_heap_refl|]. right.
    split; [intros j Hj; lia|]. split; [reflexivity|].
    split; [lia|]. simpl. now rewrite List.app_nil_r.
  - simpl Facilitator.retry_from. unfold try_catch, attempt at 1.
    destruct (net w (fetches w)) as [a|e] eqn:E0.
    + exists (Normal a), (with_fetch w url header).
      split; [reflexivity|]. split; [apply same_heap_fetch|]. left.
      exists O, a. split; [lia|]. split; [intros j Hj; lia|].
      rewrite Nat.add_0_r. split; [exact E0|]. split; [reflexivity|].
      split; [simpl; lia|]. reflexivity.
    + set (w1 := with_fetch w url header).
      set (w2 := if Z.of_nat i <? Z.of_nat retries - 1
                 then snd (sleep (delay * (Z.of_nat i + 1)) w1) else w1).
      assert (Hw2 : same_heap w w2).
      { unfold w2. destruct (Z.of_nat i <? Z.of_nat retries - 1).
        - apply same_heap_trans with w1; [apply same_heap_fetch|apply same_heap_sleep].
        - apply same_heap_fetch. }
      assert (Hf2 : fetches w2 = S (fetches w)).
      { unfold w2. destruct (Z.of_nat i <? Z.of_nat retries - 1); reflexivity. }
      assert (Hl2 : log w2 = (log w ++ Fetched url header
                                :: (if Z.of_nat i <? Z.of_nat retries - 1
                                    then [Slept (delay * (Z.of_nat i + 1))] else []))%list).
      { unfold w2. destruct (Z.of_nat i <? Z.of_nat retries - 1); simpl.
        - now rewrite <- List.app_assoc.
        - reflexivity. }
      assert (Hn2 : net w2 = net w) by (apply net_stable; exact Hw2).
      destruct (IH (S i) (Some (Facilitator.to_Error e)) w2)
        as (r & w' & Hrun & Hheap & Hcases).
      exists r, w'. split.
      { unfold bind. fold w1.
        replace ((if Z.of_nat i <? Z.of_nat retries - 1
                  then sleep (delay * (Z.of_nat i + 1)) else ret tt) w1)
          with (@Normal unit tt, w2).
        - exact Hrun.
        - unfold w2. destruct (Z.of_nat i <? Z.of_nat retries - 1); reflexivity. }
      split; [apply same_heap_trans with w2; assumption|].
      rewrite Hn2, Hf2, Hl2 in Hcases.
      destruct Hcases as [(k & a & Hk & Hfail & Hok & Hr & Hfet & Hlog)
                         |(Hfail & Hr & Hfet & Hlog)].
      * left. exists (S k), a. split; [lia|]. split.
        { intros j Hj. destruct j as [|j].
          - rewrite Nat.add_0_r, E0. now exists e.
          - replace (fetches w + S j)%nat with (S (fetches w) + j)%nat by lia.
            apply Hfail. lia. }
        split; [replace (fetches w + S k)%nat with (S (fetches w) + k)%nat by lia; exact Hok|].
        split; [exact Hr|]. split; [lia|].
        rewrite Hlog. simpl. rewrite <- !List.app_assoc. reflexivity.
      * right. split.
        { intros j Hj. destruct j as [|j].
          - rewrite Nat.add_0_r, E0. now exists e.
          - replace (fetches w + S j)%nat with (S (fetches w) + j)%nat by lia.
            apply Hfail. lia. }
        split.
        { rewrite Hr. f_equal. destruct remaining as [|remaining'].
          - simpl. now rewrite Nat.add_0_r, E0.
          - simpl. do 3 f_equal. lia. }
        split; [lia|].
        rewrite Hlog. simpl. rewrite <- !List.app_assoc. reflexivity.
Qed.

End RetryLoop.


(** ** Logs of the retry loop *)

Lemma sleeps_app l1 l2 : sleeps (l1 ++ l2) = (sleeps l1 ++ sleeps l2)%list.
Proof.
  induction l1 as [|e l1 IH]; simpl; [reflexivity|].
  destruct e; simpl; now rewrite IH.
Qed.

Lemma invocations_app l1 l2 : invocations (l1 ++ l2) = (invocations l1 + invocations l2)%nat.
Proof.
  induction l1 as [|e l1 IH]; simpl; [reflexivity|].
  destruct e; simpl; now rewrite IH.
Qed.

Lemma ledger_writes_app l1 l2 :
  ledger_writes (l1 ++ l2) = (ledger_writes l1 + ledger_writes l2)%nat.
Proof.
  induction l1 as [|e l1 IH]; simpl; [reflexivity|].
  destruct e; simpl; now rewrite IH.
Qed.

Lemma requests_to_app u l1 l2 :
  requests_to u (l1 ++ l2) = (requests_to u l1 + requests_to u l2)%nat.
Proof.
  induction l1 as [|e l1 IH]; simpl; [reflexivity|].
  destruct e; simpl; rewrite IH; lia.
Qed.

Section FailedLog.

Variables url header : string.
Variable retries : nat.
Variable delay : Z.

Lemma failed_log_invocations k : forall i,
  invocations (failed_log url header retries delay k i) = O.
Proof.
  induction k as [|k IH]; intros i; simpl; [reflexivity|].
  rewrite invocations_app, IH.
  now destruct (Z.of_nat i <? Z.of_nat retries - 1).
Qed.

Lemma failed_log_ledger_writes k : forall i,
  ledger_writes (failed_log url header retries delay k i) = O.
Proof.
  induction k as [|k IH]; intros i; simpl; [reflexivity|].
  rewrite ledger_writes_app, IH.
  now destruct (Z.of_nat i <? Z.of_nat retries - 1).
Qed.

Lemma failed_log_requests k : forall i,
  requests_to url (failed_log url header retries delay k i) = k.
Proof.
  induction k as [|k IH]; intros i; simpl; [reflexivity|].
  rewrite String.eqb_refl, requests_to_app, IH.
  now destruct (Z.of_nat i <? Z.of_nat retries - 1).
Qed.

Lemma failed_log_other_requests u k : forall i,
  String.eqb url u = false ->
  requests_to u (failed_log url header retries delay k i) = O.
Proof.
  induction k as [|k IH]; intros i Hu; simpl; [reflexivity|].
  rewrite Hu, requests_to_app, IH by exact Hu.
  now destruct (Z.of_nat i <? Z.of_nat retries - 1).
Qed.

(** With [k] failures left of [retries], a wait follows each failure but
    the last: [delay * (i + 1)] after attempt [i]. *)
Lemma failed_log_sleeps k : forall i,
  (i + k = retries)%nat ->
  sleeps (failed_log url header retries delay k i) =
    map (fun j => delay * (Z.of_nat j + 1)) (seq i (k - 1)).
Proof.
  induction k as [|k IH]; intros i Hik; simpl; [reflexivity|].
  rewrite sleeps_app, (IH (S i)) by lia.
  destruct (Z.of_nat i <? Z.of_nat retries - 1) eqn:E.
  - apply Z.ltb_lt in E. destruct k as [|k]; [lia|].
    simpl. now rewrite Nat.sub_0_r.
  - apply Z.ltb_ge in E. destruct k as [|k]; [reflexivity|lia].
Qed.

End FailedLog.

(** ** The two facilitator calls *)

Lemma verify_script_stable w w' : same_heap w w' -> verify_script w' = verify_script w.
Proof. intros (H & _). unfold verify_script. now rewrite H. Qed.

Lemma settle_script_stable w w' : same_heap w w' -> settle_script w' = settle_script w.
Proof. intros (_ & H & _). unfold settle_script. now rewrite H. Qed.

Lemma verify_cases this header reqs w :
  exists r w',
    Facilitator.verify this header reqs w = (r, w') /\
    same_heap w w' /\
    ((exists k a,
         (k < Facilitator.retries this)%nat /\
         (forall j, (j < k)%nat -> is_throw (verify_script w (fetches w + j)%nat)) /\
         verify_script w (fetches w + k)%nat = Normal a /\ r = Normal a /\
         fetches w' = (fetches w + S k)%nat /\
         log w' = (log w ++ failed_log (verify_url this) header (Facilitator.retries this) 1000 k 0
                     ++ [Fetched (verify_url this) header])%list)
     \/
     ((forall j, (j < Facilitator.retries this)%nat ->
                 is_throw (verify_script w (fetches w + j)%nat)) /\
      r = Throw (final_error (verify_script w) (fetches w) (Facilitator.retries this) None) /\
      fetches w' = (fetches w + Facilitator.retries this)%nat /\
      log w' = (log w ++ failed_log (verify_url this) header (Facilitator.retries this) 1000
                           (Facilitator.retries this) 0)%list)).
Proof.
  exact (retry_from_cases verify_script (verify_url this) header (Facilitator.retries this) 1000
           verify_script_stable (Facilitator.retries this) 0%nat None w).
Qed.

Lemma settle_cases this header reqs w :
  exists r w',
    Facilitator.settle this header reqs w = (r, w') /\
    same_heap w w' /\
    ((exists k a,
         (k < Facilitator.retries this)%nat /\
         (forall j, (j < k)%nat -> is_throw (settle_script w (fetches w + j)%nat)) /\
         settle_script w (fetches w + k)%nat = Normal a /\ r = Normal a /\
         fetches w' = (fetches w + S k)%nat /\
         log w' = (log w ++ failed_log (settle_url this) header (Facilitator.retries this) 1000 k 0
                     ++ [Fetched (settle_url this) header])%list)
     \/
     ((forall j, (j < Facilitator.retries this)%nat ->
                 is_throw (settle_script w (fetches w + j)%nat)) /\
      r = Throw (final_error (settle_script w) (fetches w) (Facilitator.retries this) None) /\
      fetches w' = (fetches w + Facilitator.retries this)%nat /\
      log w' = (log w ++ failed_log (settle_url this) header (Facilitator.retries this) 1000
                           (Facilitator.retries this) 0)%list)).
Proof.
  exact (retry_from_cases settle_script (settle_url this) header (Facilitator.retries this) 1000
           settle_script_stable (Facilitator.retries this) 0%nat None w).
Qed.

Lemma transport_failure_verify o :
  transport_failure o -> is_throw (Facilitator.verify_result o).
Proof.
  destruct o as [e|status text body]; simpl; intros H.
  - now exists e.
  - rewrite H. simpl. eexists. reflexivity.
Qed.

Lemma transport_failure_settle o :
  transport_failure o -> is_throw (Facilitator.settle_result o).
Proof.
  destruct o as [e|status text body]; simpl; intros H.
  - now exists e.
  - rewrite H. simpl. eexists. reflexivity.
Qed.

Lemma is_throw_not_normal {T} (c : Completion T) a : is_throw c -> c = Normal a -> False.
Proof. intros [e ->]. discriminate. Qed.


(** ** The retry of the core utilities *)

Section CoreRetry.

Context {T : Type}.
Variable fn : M World T.
Variable maxRetries : nat.
Variable baseDelay : Z.

Hypothesis fn_throws : forall w, is_throw (fst (fn w)).
Hypothesis fn_no_sleep : forall w, sleeps (log (snd (fn w))) = sleeps (log w).

Lemma core_retry_from_sleeps remaining : forall i lastError w,
  (i + remaining = maxRetries)%nat ->
  sleeps (log (snd (Core.retry_from fn maxRetries baseDelay remaining i lastError w))) =
    (sleeps (log w) ++ map (fun j => baseDelay * 2 ^ Z.of_nat j) (seq i (remaining - 1)))%list.
Proof.
  induction remaining as [|remaining IH]; intros i lastError w Hi.
  - simpl. destruct lastError; simpl; now rewrite List.app_nil_r.
  - simpl Core.retry_from. unfold try_catch.
    destruct (fn_throws w) as [e He]. specialize (fn_no_sleep w).
    destruct (fn w) as [r w1]. simpl in He, fn_no_sleep. subst r.
    unfold bind.
    destruct (Z.of_nat i <? Z.of_nat maxRetries - 1) eqn:E.
    + apply Z.ltb_lt in E. unfold sleep. cbv beta iota.
      rewrite IH by lia. simpl log. rewrite sleeps_app, fn_no_sleep. simpl.
      destruct remaining as [|remaining]; [lia|].
      simpl. rewrite Nat.sub_0_r, <- List.app_assoc. reflexivity.
    + apply Z.ltb_ge in E. unfold ret. cbv beta iota.
      rewrite IH by lia. rewrite fn_no_sleep.
      destruct remaining as [|remaining]; [reflexivity|lia].
Qed.

End CoreRetry.

Lemma verify_terminal_error (w : World) (N : nat) :
  (forall j, (j < N)%nat -> transport_failure (verify_net w (fetches w + j)%nat)) ->
  final_error (verify_script w) (fetches w) N None =
    terminal_error "Verify" (verify_net w) (fetches w) N.
Proof.
  intros Hfail. destruct N as [|n]; [reflexivity|].
  specialize (Hfail n (Nat.lt_succ_diag_r n)).
  unfold final_error, terminal_error, verify_script, Facilitator.verify_result, fault.
  destruct (verify_net w (fetches w + n)%nat) as [e|status text body]; simpl in *.
  - now destruct e.
  - now rewrite Hfail.
Qed.

Lemma settle_terminal_error (w : World) (N : nat) :
  (forall j, (j < N)%nat -> transport_failure (settle_net w (fetches w + j)%nat)) ->
  final_error (settle_script w) (fetches w) N None =
    terminal_error "Settle" (settle_net w) (fetches w) N.
Proof.
  intros Hfail. destruct N as [|n]; [reflexivity|].
  specialize (Hfail n (Nat.lt_succ_diag_r n)).
  unfold final_error, terminal_error, settle_script, Facilitator.settle_result, fault.
  destruct (settle_net w (fetches w + n)%nat) as [e|status text body]; simpl in *.
  - now destruct e.
  - now rewrite Hfail.
Qed.

(** C3, as amended. A facilitator client configured with [N] retries whose
    every attempt fails at the transport level (the fetch throws or answers
    with a status outside 200..299) makes exactly [N] requests and then
    throws the error of its last attempt as it is: the [Error] that [fetch]
    threw (a new [Error] with its text when the thrown value is no
    [Error]), or the plain [Error] [Verify failed: <status> - <body>]
    ([Settle failed: ...] for settle); with [N = 0] no request is made and
    [undefined] is thrown.  When the first attempt brings a well-formed
    rejection (a verify body with [isValid = false], a settle body with
    event [payment.failed]) the call returns it after exactly one request
    and without waiting. *)
Theorem facilitator_retry_bound :
  forall (this : Facilitator.FacilitatorClient) (header : string)
         (reqs : Core.PaymentRequirements) (w : World),
    let N := Facilitator.retries this in
    ((forall j, (j < N)%nat -> transport_failure (verify_net w (fetches w + j)%nat)) ->
     exists w',
       Facilitator.verify this header reqs w =
         (Throw (terminal_error "Verify" (verify_net w) (fetches w) N), w') /\
       fetches w' = (fetches w + N)%nat /\
       requests_to (verify_url this) (log w') = (requests_to (verify_url this) (log w) + N)%nat) /\
    ((forall j, (j < N)%nat -> transport_failure (settle_net w (fetches w + j)%nat)) ->
     exists w',
       Facilitator.settle this header reqs w =
         (Throw (terminal_error "Settle" (settle_net w) (fetches w) N), w') /\
       fetches w' = (fetches w + N)%nat /\
       requests_to (settle_url this) (log w') = (requests_to (settle_url this) (log w) + N)%nat) /\
    (forall status text response,
        (1 <= N)%nat ->
        verify_net w (fetches w) = FetchResponds status text (Some response) ->
        response_ok status = true -> isValid response = false ->
        Facilitator.verify this header reqs w =
          (Normal response, with_fetch w (verify_url this) header)) /\
    (forall status text data,
        (1 <= N)%nat ->
        settle_net w (fetches w) = FetchResponds status text (Some data) ->
        response_ok status = true -> data_event data = Some "payment.failed" ->
        Facilitator.settle this header reqs w =
          (Normal (Facilitator.map_settle data), with_fetch w (settle_url this) header) /\
        Facilitator.success (Facilitator.map_settle data) = false /\
        Facilitator.errorReason (Facilitator.map_settle data) = data_error data).
Proof.
  intros this header reqs w N. split; [|split; [|split]].
  - intros Hfail.
    destruct (verify_cases this header reqs w) as (r & w' & Hrun & _ & Hcases).
    destruct Hcases as [(k & a & Hk & _ & Hok & _)|(_ & Hr & Hfet & Hlog)].
    + exfalso. apply (is_throw_not_normal _ a (transport_failure_verify _ (Hfail k Hk))).
      exact Hok.
    + exists w'. rewrite Hrun, Hr. fold N. rewrite (verify_terminal_error w N Hfail).
      split; [reflexivity|]. split; [exact Hfet|].
      now rewrite Hlog, requests_to_app, failed_log_requests.
  - intros Hfail.
    destruct (settle_cases this header reqs w) as (r & w' & Hrun & _ & Hcases).
    destruct Hcases as [(k & a & Hk & _ & Hok & _)|(_ & Hr & Hfet & Hlog)].
    + exfalso. apply (is_throw_not_normal _ a (transport_failure_settle _ (Hfail k Hk))).
      exact Hok.
    + exists w'. rewrite Hrun, Hr. fold N. rewrite (settle_terminal_error w N Hfail).
      split; [reflexivity|]. split; [exact Hfet|].
      now rewrite Hlog, requests_to_app, failed_log_requests.
  - intros status text response HN Hnet Hok Hinvalid.
    unfold Facilitator.verify, Facilitator.retry. fold N.
    destruct N as [|n]; [lia|].
    simpl. unfold try_catch, Facilitator.verify_attempt.
    rewrite Hnet. simpl. rewrite Hok. reflexivity.
  - intros status text data HN Hnet Hok Hevent. split.
    + unfold Facilitator.settle, Facilitator.retry. fold N.
      destruct N as [|n]; [lia|].
      simpl. unfold try_catch, Facilitator.settle_attempt.
      rewrite Hnet. simpl. rewrite Hok. reflexivity.
    + simpl. rewrite Hevent. split; reflexivity.
Qed.

Lemma facilitator_retry_bound_witness :
  (exists w',
      Facilitator.verify sample_client "header" sample_requirements
        (idle service_unavailable service_unavailable) =
        (Throw (Error "Verify failed: 503 - Service Unavailable"), w') /\
      fetches w' = 3%nat) /\
  Facilitator.verify sample_client "header" sample_requirements (idle rejecting_verify settling) =
    (Normal (mkVerifyResponse false (Some "invalid_signature") None),
     with_fetch (idle rejecting_verify settling) (verify_url sample_client) "header") /\
  fst (Facilitator.settle sample_client "header" sample_requirements
         (idle accepting_verify failing_settle)) =
    Normal (Facilitator.map_settle
              (mkSettleData (Some "payment.failed") None None None None None None None
                 (Some "insufficient_funds"))).
Proof.
  split; [|split].
  - destruct (proj1 (facilitator_retry_bound sample_client "header" sample_requirements
                       (idle service_unavailable service_unavailable)))
      as (w' & Hrun & Hfet & _).
    + intros j _. reflexivity.
    + exists w'. split; [exact Hrun|exact Hfet].
  - apply (proj1 (proj2 (proj2 (facilitator_retry_bound sample_client "header"
                                  sample_requirements (idle rejecting_verify settling))))
             200 "verify body" (mkVerifyResponse false (Some "invalid_signature") None));
      [simpl; lia|reflexivity|reflexivity|reflexivity].
  - rewrite (proj1 (proj2 (proj2 (proj2 (facilitator_retry_bound sample_client "header"
                                  sample_requirements (idle accepting_verify failing_settle))))
               200 "settle body"
               (mkSettleData (Some "payment.failed") None None None None None None None
                  (Some "insufficient_funds"))
               ltac:(simpl; lia) eq_refl eq_refl eq_refl)).
    reflexivity.
Defined.

(** C3, as stated, fails: with three retries against a facilitator that
    answers 503 each time, [verify] and [settle] make their three requests
    and throw plain [Error]s that quote the last answer; the code has no
    class [FacilitatorUnavailable], and no error of that name is thrown. *)
Lemma terminal_error_is_no_FacilitatorUnavailable :
  let w := idle service_unavailable service_unavailable in
  (forall j, (j < Facilitator.retries sample_client)%nat ->
             transport_failure (verify_net w (fetches w + j)%nat) /\
             transport_failure (settle_net w (fetches w + j)%nat)) /\
  fst (Facilitator.verify sample_client "header" sample_requirements w) =
    Throw (ErrorObject "Error" "Verify failed: 503 - Service Unavailable") /\
  fst (Facilitator.settle sample_client "header" sample_requirements w) =
    Throw (ErrorObject "Error" "Settle failed: 503 - Service Unavailable") /\
  ~ (exists e, fst (Facilitator.verify sample_client "header" sample_requirements w) = Throw e /\
               FacilitatorUnavailable e) /\
  ~ (exists e, fst (Facilitator.settle sample_client "header" sample_requirements w) = Throw e /\
               FacilitatorUnavailable e).
Proof.
  split; [intros j _; split; reflexivity|].
  split; [reflexivity|]. split; [reflexivity|].
  split; intros (e & He & message & Hm); subst e; vm_compute in He; discriminate.
Qed.



(** ** Waits between attempts *)

Lemma geometric_fails_on_linear_waits : ~ geometric [1000; 2000; 3000].
Proof.
  intros (base & p & q & Hq & H).
  pose proof (H 0%nat 1000 eq_refl) as H0.
  pose proof (H 1%nat 2000 eq_refl) as H1.
  pose proof (H 2%nat 3000 eq_refl) as H2.
  change (Z.of_nat 0) with 0 in H0. change (Z.of_nat 1) with 1 in H1.
  change (Z.of_nat 2) with 2 in H2.
  rewrite !Z.pow_0_r in H0. rewrite !Z.pow_1_r in H1. rewrite !Z.pow_2_r in H2.
  assert (Hb : base = 1000) by lia. subst base.
  assert (Hp : p = 2 * q) by lia. subst p.
  nia.
Qed.

(** C8, as the code has it.  When every attempt of a facilitator call fails
    at the transport level, the wait after attempt [i] (counted from 0) is
    [1000 * (i + 1)] milliseconds, for [i = 0 .. N - 2]: the waits grow
    linearly, and none follows the last attempt.  The [retry] of the core
    utilities, which the facilitator client does not use, waits
    [baseDelay * 2 ^ attempt] between the attempts of a function that keeps
    throwing. *)
Theorem facilitator_waits_grow_linearly :
  forall (this : Facilitator.FacilitatorClient) (header : string)
         (reqs : Core.PaymentRequirements) (w : World),
    let N := Facilitator.retries this in
    ((forall j, (j < N)%nat -> transport_failure (verify_net w (fetches w + j)%nat)) ->
     sleeps (log (snd (Facilitator.verify this header reqs w))) =
       (sleeps (log w) ++ linear_waits 1000 (N - 1))%list) /\
    ((forall j, (j < N)%nat -> transport_failure (settle_net w (fetches w + j)%nat)) ->
     sleeps (log (snd (Facilitator.settle this header reqs w))) =
       (sleeps (log w) ++ linear_waits 1000 (N - 1))%list) /\
    (forall (T : Type) (fn : M World T) (maxRetries : nat) (baseDelay : Z),
        (forall w0, is_throw (fst (fn w0))) ->
        (forall w0, sleeps (log (snd (fn w0))) = sleeps (log w0)) ->
        sleeps (log (snd (Core.retry fn maxRetries baseDelay w))) =
          (sleeps (log w) ++ exponential_waits baseDelay (maxRetries - 1))%list).
Proof.
  intros this header reqs w N. repeat split.
  - intros Hfail.
    destruct (verify_cases this header reqs w) as (r & w' & Hrun & _ & Hcases).
    rewrite Hrun. simpl snd.
    destruct Hcases as [(k & a & Hk & _ & Hok & _)|(_ & _ & _ & Hlog)].
    + exfalso. apply (is_throw_not_normal _ a (transport_failure_verify _ (Hfail k Hk))).
      exact Hok.
    + rewrite Hlog, sleeps_app, failed_log_sleeps by reflexivity. reflexivity.
  - intros Hfail.
    destruct (settle_cases this header reqs w) as (r & w' & Hrun & _ & Hcases).
    rewrite Hrun. simpl snd.
    destruct Hcases as [(k & a & Hk & _ & Hok & _)|(_ & _ & _ & Hlog)].
    + exfalso. apply (is_throw_not_normal _ a (transport_failure_settle _ (Hfail k Hk))).
      exact Hok.
    + rewrite Hlog, sleeps_app, failed_log_sleeps by reflexivity. reflexivity.
  - intros T fn maxRetries baseDelay Hthrows Hquiet.
    unfold Core.retry.
    now rewrite (core_retry_from_sleeps fn maxRetries baseDelay Hthrows Hquiet maxRetries 0%nat).
Qed.

Lemma facilitator_waits_grow_linearly_witness :
  sleeps (log (snd (Facilitator.verify four_attempts "header" sample_requirements
                      (idle service_unavailable service_unavailable)))) = [1000; 2000; 3000].
Proof.
  apply (proj1 (facilitator_waits_grow_linearly four_attempts "header" sample_requirements
                  (idle service_unavailable service_unavailable))).
  intros j _. reflexivity.
Defined.

(** C8, as stated, fails: with four attempts against a facilitator that
    answers 503 each time, the three waits are 1000, 2000 and 3000
    milliseconds, which no base delay and multiplier produce. *)
Lemma facilitator_waits_not_exponential :
  let w := idle service_unavailable service_unavailable in
  (3 <= Facilitator.retries four_attempts)%nat /\
  (forall j, (j < Facilitator.retries four_attempts)%nat ->
             transport_failure (verify_net w (fetches w + j)%nat)) /\
  ~ geometric (sleeps (log (snd (Facilitator.verify four_attempts "header"
                                   sample_requirements w)))).
Proof.
  split; [simpl; lia|]. split; [intros j _; reflexivity|].
  exact geometric_fails_on_linear_waits.
Qed.


(** ** The payment handler, the middleware and the tool route, step by step *)

Section Orchestrator.

Import Core.

Variable this : PaymentHandler.PaymentHandler.
Variable tool : PricedTool.
Variable header : string.

Let fac := PaymentHandler.facilitator this.
Let reqs := requirements_of this tool.
Let resource0 := "tool://" ++ name tool.

Lemma processPayment_verify_throws w e w1 :
  Facilitator.verify fac header reqs w = (Throw e, w1) ->
  PaymentHandler.processPayment this header tool resource0 w = (Throw e, w1).
Proof.
  intros H. unfold PaymentHandler.processPayment, bind.
  fold resource0. change (PaymentHandler.createPaymentRequirements this tool resource0) with reqs.
  fold fac. now rewrite H.
Qed.

Lemma processPayment_rejected w v w1 :
  Facilitator.verify fac header reqs w = (Normal v, w1) ->
  isValid v = false ->
  PaymentHandler.processPayment this header tool resource0 w =
    (Throw (Error ("Payment invalid: " ++ or_default (invalidReason v) "unknown")), w1).
Proof.
  intros H Hv. unfold PaymentHandler.processPayment, bind.
  change (PaymentHandler.createPaymentRequirements this tool resource0) with reqs.
  fold fac. rewrite H, Hv. reflexivity.
Qed.

Lemma processPayment_settle_throws w v w1 e w2 :
  Facilitator.verify fac header reqs w = (Normal v, w1) ->
  isValid v = true ->
  Facilitator.settle fac header reqs w1 = (Throw e, w2) ->
  PaymentHandler.processPayment this header tool resource0 w = (Throw e, w2).
Proof.
  intros H Hv Hs. unfold PaymentHandler.processPayment, bind.
  change (PaymentHandler.createPaymentRequirements this tool resource0) with reqs.
  fold fac. rewrite H, Hv. simpl. now rewrite Hs.
Qed.

Lemma processPayment_settlement_failed w v w1 s w2 :
  Facilitator.verify fac header reqs w = (Normal v, w1) ->
  isValid v = true ->
  Facilitator.settle fac header reqs w1 = (Normal s, w2) ->
  Facilitator.success s = false ->
  PaymentHandler.processPayment this header tool resource0 w =
    (Throw (Error ("Settlement failed: " ++ or_default (Facilitator.errorReason s) "unknown")),
     w2).
Proof.
  intros H Hv Hs Hf. unfold PaymentHandler.processPayment, bind.
  change (PaymentHandler.createPaymentRequirements this tool resource0) with reqs.
  fold fac. rewrite H, Hv. simpl. rewrite Hs, Hf. reflexivity.
Qed.

Lemma processPayment_settled w v w1 s w2 :
  Facilitator.verify fac header reqs w = (Normal v, w1) ->
  isValid v = true ->
  Facilitator.settle fac header reqs w1 = (Normal s, w2) ->
  Facilitator.success s = true ->
  exists record w3,
    PaymentHandler.processPayment this header tool resource0 w = (Normal record, w3) /\
    id record = uuid_source w2 (uuids w2) /\
    World.toolName record = name tool /\ World.amount record = price tool /\
    World.txHash record = or_default (Facilitator.transaction s) "" /\
    World.status record = "settled" /\
    log w3 = (log w2 ++ [LedgerSet (id record)])%list /\
    payments w3 = map_set (id record) record (payments w2).
Proof.
  intros H Hv Hs Hf. unfold PaymentHandler.processPayment, bind.
  change (PaymentHandler.createPaymentRequirements this tool resource0) with reqs.
  fold fac. rewrite H, Hv. simpl. rewrite Hs, Hf. simpl.
  eexists. eexists. split; [reflexivity|]. simpl. repeat split.
Qed.

(** The middleware on a priced tool with a payment attached. *)
Lemma process_with_payment params w p :
  StringToBigInt (price tool) = Some p -> p <> 0 -> header <> EmptyString ->
  Middleware.process this (Middleware.mkMiddlewareContext tool (Some header) params) w =
    match PaymentHandler.processPayment this header tool resource0 w with
    | (Normal record, w') => (Normal (Middleware.mkMiddlewareResult true None (Some record) None), w')
    | (Throw e, w') =>
        (Normal (Middleware.mkMiddlewareResult false None None (Some (surfaced_message e))), w')
    end.
Proof.
  intros Hp Hnz Hh. unfold Middleware.process, bind, lift, BigInt.
  cbn [Middleware.tool Middleware.paymentHeader Middleware.header_missing
       Middleware.header_text].
  rewrite Hp. apply Z.eqb_neq in Hnz. rewrite Hnz.
  assert (Ht : truthy header = true).
  { unfold truthy. destruct (String.eqb_spec header ""); [contradiction|reflexivity]. }
  rewrite Ht. cbn [negb]. unfold try_catch, bind. fold resource0.
  destruct (PaymentHandler.processPayment this header tool resource0 w) as [[record|e] w'];
    reflexivity.
Qed.

(** The middleware on a priced tool without a payment. *)
Lemma process_without_payment h params w p :
  StringToBigInt (price tool) = Some p -> p <> 0 -> Middleware.header_missing h = true ->
  Middleware.process this (Middleware.mkMiddlewareContext tool h params) w =
    (Normal (Middleware.mkMiddlewareResult false
               (Some (PaymentHandler.create402Response this tool resource0)) None None), w).
Proof.
  intros Hp Hnz Hh. unfold Middleware.process, bind, lift, BigInt.
  cbn [Middleware.tool Middleware.paymentHeader].
  rewrite Hp. apply Z.eqb_neq in Hnz. rewrite Hnz, Hh. reflexivity.
Qed.

End Orchestrator.


Section ToolRoute.

Import Core.

Variable this : PaymentHandler.PaymentHandler.
Variable rt : Server.RegisteredTool.
Variable ctx : Server.RequestContext.

Let tool := Server.definition rt.
Let resource0 := "tool://" ++ name tool.

Lemma tool_route_challenge w p :
  StringToBigInt (price tool) = Some p -> p <> 0 ->
  Middleware.header_missing (map_get "x-payment" (Server.headers ctx)) = true ->
  Server.tool_route this rt ctx w =
    (Normal (Server.mkResponseContext 402 []
               (Server.PaymentRequiredBody
                  (PaymentHandler.mkPaymentRequiredBody "Payment Required"
                     (requirements_of this tool) [requirements_of this tool]))), w).
Proof.
  intros Hp Hnz Hh. unfold Server.tool_route, bind. fold tool.
  rewrite (process_without_payment this tool _ _ w p Hp Hnz Hh). reflexivity.
Qed.

Lemma tool_route_declined header w p e w' :
  StringToBigInt (price tool) = Some p -> p <> 0 ->
  map_get "x-payment" (Server.headers ctx) = Some header -> header <> EmptyString ->
  PaymentHandler.processPayment this header tool resource0 w = (Throw e, w') ->
  surfaced_message e <> EmptyString ->
  Server.tool_route this rt ctx w =
    (Normal (Server.mkResponseContext 402 []
               (Server.ErrorBody ("Payment invalid: " ++ surfaced_message e))), w').
Proof.
  intros Hp Hnz Hh Hne Hrun Hmsg. unfold Server.tool_route, bind. fold tool.
  rewrite Hh, (process_with_payment this tool header _ w p Hp Hnz Hne).
  fold resource0. rewrite Hrun.
  cbn [Middleware.paymentRequired Middleware.error Server.error_set].
  assert (Ht : truthy (surfaced_message e) = true).
  { unfold truthy. destruct (String.eqb_spec (surfaced_message e) "");
      [contradiction|reflexivity]. }
  rewrite Ht. reflexivity.
Qed.

(** The handler runs once: the invocation is the last event of the log. *)
Lemma tool_route_executes header w p record w' :
  StringToBigInt (price tool) = Some p -> p <> 0 ->
  map_get "x-payment" (Server.headers ctx) = Some header -> header <> EmptyString ->
  PaymentHandler.processPayment this header tool resource0 w = (Normal record, w') ->
  exists response w'',
    Server.tool_route this rt ctx w = (Normal response, w'') /\
    log w'' = (log w' ++ [HandlerInvoked (name tool)])%list /\
    payments w'' = payments w' /\
    match Server.handler rt (Server.request_body ctx) with
    | Normal result =>
        response = Server.mkResponseContext 200 [] (Server.ResultBody result (Some record))
    | Throw _ => Server.status response = 500
    end.
Proof.
  intros Hp Hnz Hh Hne Hrun. unfold Server.tool_route, bind. fold tool.
  rewrite Hh, (process_with_payment this tool header _ w p Hp Hnz Hne).
  fold resource0. rewrite Hrun.
  cbn [Middleware.paymentRequired Middleware.error Server.error_set Middleware.payment].
  unfold try_catch, bind, Server.invoke. fold tool.
  destruct (Server.handler rt (Server.request_body ctx)) as [result|e];
    eexists; eexists; (split; [reflexivity|]); repeat split.
Qed.

(** With an empty error text the route does not stop: it runs the handler. *)
Lemma tool_route_slips header w p e w' :
  StringToBigInt (price tool) = Some p -> p <> 0 ->
  map_get "x-payment" (Server.headers ctx) = Some header -> header <> EmptyString ->
  PaymentHandler.processPayment this header tool resource0 w = (Throw e, w') ->
  surfaced_message e = EmptyString ->
  log (snd (Server.tool_route this rt ctx w)) = (log w' ++ [HandlerInvoked (name tool)])%list.
Proof.
  intros Hp Hnz Hh Hne Hrun Hmsg. unfold Server.tool_route, bind. fold tool.
  rewrite Hh, (process_with_payment this tool header _ w p Hp Hnz Hne).
  fold resource0. rewrite Hrun.
  cbn [Middleware.paymentRequired Middleware.error Server.error_set Middleware.payment].
  rewrite Hmsg. cbn [truthy String.eqb negb].
  unfold try_catch, bind, Server.invoke. fold tool.
  destruct (Server.handler rt (Server.request_body ctx)) as [result|e0]; reflexivity.
Qed.

End ToolRoute.

Lemma verify_settle_urls_differ b :
  String.eqb (b ++ "/verify") (b ++ "/settle") = false.
Proof.
  induction b as [|c b IH]; [reflexivity|].
  simpl. now rewrite Ascii.eqb_refl.
Qed.

(** What a verify call that returns leaves behind: requests to the verify
    endpoint and waits, nothing else. *)
Lemma verify_returns_quietly this header reqs w v w1 :
  Facilitator.verify this header reqs w = (Normal v, w1) ->
  same_heap w w1 /\
  invocations (log w1) = invocations (log w) /\
  ledger_writes (log w1) = ledger_writes (log w) /\
  requests_to (settle_url this) (log w1) = requests_to (settle_url this) (log w).
Proof.
  intros Hrun.
  destruct (verify_cases this header reqs w) as (r & w' & Hrun' & Hheap & Hcases).
  rewrite Hrun in Hrun'. injection Hrun' as <- <-.
  split; [exact Hheap|].
  destruct Hcases as [(k & a & _ & _ & _ & _ & _ & Hlog)|(_ & Hr & _)]; [|discriminate].
  rewrite Hlog.
  rewrite !invocations_app, !ledger_writes_app, !requests_to_app.
  rewrite failed_log_invocations, failed_log_ledger_writes.
  rewrite failed_log_other_requests by apply verify_settle_urls_differ.
  simpl. unfold verify_url, settle_url, Core.FACILITATOR_ENDPOINTS_VERIFY, Core.FACILITATOR_ENDPOINTS_SETTLE.
  rewrite verify_settle_urls_differ. repeat split; lia.
Qed.


Lemma verify_quiet this header reqs w :
  same_heap w (snd (Facilitator.verify this header reqs w)) /\
  invocations (log (snd (Facilitator.verify this header reqs w))) = invocations (log w) /\
  ledger_writes (log (snd (Facilitator.verify this header reqs w))) = ledger_writes (log w).
Proof.
  destruct (verify_cases this header reqs w) as (r & w' & Hrun & Hheap & Hcases).
  rewrite Hrun. simpl snd. split; [exact Hheap|].
  destruct Hcases as [(k & a & _ & _ & _ & _ & _ & Hlog)|(_ & _ & _ & Hlog)];
    rewrite Hlog, !invocations_app, !ledger_writes_app,
      ?failed_log_invocations, ?failed_log_ledger_writes; simpl; split; lia.
Qed.

Lemma settle_quiet this header reqs w :
  same_heap w (snd (Facilitator.settle this header reqs w)) /\
  invocations (log (snd (Facilitator.settle this header reqs w))) = invocations (log w) /\
  ledger_writes (log (snd (Facilitator.settle this header reqs w))) = ledger_writes (log w).
Proof.
  destruct (settle_cases this header reqs w) as (r & w' & Hrun & Hheap & Hcases).
  rewrite Hrun. simpl snd. split; [exact Hheap|].
  destruct Hcases as [(k & a & _ & _ & _ & _ & _ & Hlog)|(_ & _ & _ & Hlog)];
    rewrite Hlog, !invocations_app, !ledger_writes_app,
      ?failed_log_invocations, ?failed_log_ledger_writes; simpl; split; lia.
Qed.

(** A settle call that returns ends with its request to the settle endpoint. *)
Lemma settle_returns_last this header reqs w s w2 :
  Facilitator.settle this header reqs w = (Normal s, w2) ->
  exists pre,
    log w2 = (pre ++ [Fetched (settle_url this) header])%list /\
    invocations pre = invocations (log w) /\
    ledger_writes pre = ledger_writes (log w).
Proof.
  intros Hrun.
  destruct (settle_cases this header reqs w) as (r & w' & Hrun' & Hheap & Hcases).
  rewrite Hrun in Hrun'. injection Hrun' as <- <-.
  destruct Hcases as [(k & a & _ & _ & _ & _ & _ & Hlog)|(_ & Hr & _)]; [|discriminate].
  exists (log w ++ failed_log (settle_url this) header (Facilitator.retries this) 1000 k 0)%list.
  split; [now rewrite Hlog, List.app_assoc|].
  rewrite invocations_app, ledger_writes_app, failed_log_invocations, failed_log_ledger_writes.
  split; lia.
Qed.

Lemma to_Error_is_Error e : instanceof_Error (Facilitator.to_Error e) = true.
Proof. now destruct e. Qed.

Lemma final_error_described {T} (net : nat -> Completion T) first remaining :
  (forall n e, net n = Throw e -> message_of (Facilitator.to_Error e) <> EmptyString) ->
  (forall j, (j < remaining)%nat -> is_throw (net (first + j)%nat)) ->
  surfaced_message (final_error net first remaining None) <> EmptyString.
Proof.
  intros Hdesc Hfail. destruct remaining as [|r]; simpl.
  - discriminate.
  - destruct (Hfail r ltac:(lia)) as [e He].
    unfold surfaced_message. rewrite to_Error_is_Error, He. simpl.
    now apply (Hdesc _ e He).
Qed.

Lemma verify_script_described w n e :
  faults_described w -> verify_script w n = Throw e ->
  message_of (Facilitator.to_Error e) <> EmptyString.
Proof.
  intros Hd. unfold verify_script, Facilitator.verify_result.
  destruct (verify_net w n) as [e0|status text body] eqn:E.
  - intros H. injection H as <-. apply (Hd n e0). now left.
  - destruct (negb (response_ok status)); [|destruct body];
      intros H; try discriminate; injection H as <-; discriminate.
Qed.

Lemma settle_script_described w n e :
  faults_described w -> settle_script w n = Throw e ->
  message_of (Facilitator.to_Error e) <> EmptyString.
Proof.
  intros Hd. unfold settle_script, Facilitator.settle_result.
  destruct (settle_net w n) as [e0|status text body] eqn:E.
  - intros H. injection H as <-. apply (Hd n e0). now right.
  - destruct (negb (response_ok status)); [|destruct body];
      intros H; try discriminate; injection H as <-; discriminate.
Qed.

Lemma faults_described_heap w w' : same_heap w w' -> faults_described w -> faults_described w'.
Proof.
  intros (Hv & Hs & _) Hd n e. rewrite Hv, Hs. apply Hd.
Qed.

Lemma verify_throw_described this header reqs w e w1 :
  faults_described w ->
  Facilitator.verify this header reqs w = (Throw e, w1) ->
  surfaced_message e <> EmptyString.
Proof.
  intros Hd Hrun.
  destruct (verify_cases this header reqs w) as (r & w' & Hrun' & _ & Hcases).
  rewrite Hrun in Hrun'. injection Hrun' as <- <-.
  destruct Hcases as [(k & a & _ & _ & _ & Hr & _)|(Hfail & Hr & _)]; [discriminate|].
  injection Hr as ->.
  apply final_error_described; [|exact Hfail].
  intros n e. now apply verify_script_described.
Qed.

Lemma settle_throw_described this header reqs w e w1 :
  faults_described w ->
  Facilitator.settle this header reqs w = (Throw e, w1) ->
  surfaced_message e <> EmptyString.
Proof.
  intros Hd Hrun.
  destruct (settle_cases this header reqs w) as (r & w' & Hrun' & _ & Hcases).
  rewrite Hrun in Hrun'. injection Hrun' as <- <-.
  destruct Hcases as [(k & a & _ & _ & _ & Hr & _)|(Hfail & Hr & _)]; [discriminate|].
  injection Hr as ->.
  apply final_error_described; [|exact Hfail].
  intros n e. now apply settle_script_described.
Qed.

(** C7. A priced tool with price ["1000"] called without a payment header
    (absent, or empty) is answered with status 402 and the body
    [{error: "Payment Required", paymentRequirements, accepts:
    [paymentRequirements]}], where the requirements carry
    [maxAmountRequired = "1000"], [scheme = "exact"],
    [mimeType = "application/json"] and [maxTimeoutSeconds = 300]; nothing
    is sent, recorded or executed. *)
Theorem unpaid_call_is_challenged :
  forall (this : PaymentHandler.PaymentHandler) (rt : Server.RegisteredTool)
         (ctx : Server.RequestContext) (w : World),
    Core.price (Server.definition rt) = "1000" ->
    Middleware.header_missing (map_get "x-payment" (Server.headers ctx)) = true ->
    let requirements := requirements_of this (Server.definition rt) in
    Middleware.process this
      (Middleware.mkMiddlewareContext (Server.definition rt)
         (map_get "x-payment" (Server.headers ctx)) (Server.request_body ctx)) w =
      (Normal (Middleware.mkMiddlewareResult false
                 (Some (PaymentHandler.mkPaymentRequired 402
                          (PaymentHandler.mkPaymentRequiredBody "Payment Required" requirements
                             [requirements]))) None None), w) /\
    Server.tool_route this rt ctx w =
      (Normal (Server.mkResponseContext 402 []
                 (Server.PaymentRequiredBody
                    (PaymentHandler.mkPaymentRequiredBody "Payment Required" requirements
                       [requirements]))), w) /\
    Core.maxAmountRequired requirements = "1000" /\
    Core.scheme requirements = "exact" /\
    Core.mimeType requirements = "application/json" /\
    Core.maxTimeoutSeconds requirements = 300.
Proof.
  intros this rt ctx w Hprice Hmissing requirements.
  assert (Hp : StringToBigInt (Core.price (Server.definition rt)) = Some 1000)
    by (rewrite Hprice; reflexivity).
  split.
  - apply (process_without_payment this (Server.definition rt) _ _ w 1000 Hp); [lia|assumption].
  - split.
    + apply (tool_route_challenge this rt ctx w 1000 Hp); [lia|assumption].
    + unfold requirements, requirements_of, PaymentHandler.createPaymentRequirements.
      simpl. auto.
Qed.

Lemma unpaid_call_is_challenged_witness :
  Server.status (match fst (Server.tool_route sample_handler sample_registered bare_request
                              (idle accepting_verify settling)) with
                 | Normal response => response
                 | Throw _ => Server.mkResponseContext 0 [] (Server.ErrorBody "")
                 end) = 402.
Proof.
  rewrite (proj1 (proj2 (unpaid_call_is_challenged sample_handler sample_registered bare_request
                           (idle accepting_verify settling) eq_refl eq_refl))).
  reflexivity.
Defined.


(** C2. When the verify call returns [isValid = false] with a reason, the
    payment handler throws [Payment invalid: <reason>], the route answers
    402 with that text, no request goes to the settle endpoint, the ledger
    and the total revenue are unchanged, and the tool handler is not
    invoked. *)
Theorem rejected_payment_carries_reason_and_changes_nothing :
  forall (this : PaymentHandler.PaymentHandler) (rt : Server.RegisteredTool)
         (ctx : Server.RequestContext) (header reason : string) (p : Z)
         (w w1 : World) (v : VerifyResponse),
    StringToBigInt (Core.price (Server.definition rt)) = Some p -> 0 < p ->
    map_get "x-payment" (Server.headers ctx) = Some header -> header <> EmptyString ->
    Facilitator.verify (PaymentHandler.facilitator this) header
      (requirements_of this (Server.definition rt)) w = (Normal v, w1) ->
    isValid v = false -> invalidReason v = Some reason -> reason <> EmptyString ->
    PaymentHandler.processPayment this header (Server.definition rt)
      ("tool://" ++ Core.name (Server.definition rt)) w =
      (Throw (Error ("Payment invalid: " ++ reason)), w1) /\
    Server.tool_route this rt ctx w =
      (Normal (Server.mkResponseContext 402 []
                 (Server.ErrorBody ("Payment invalid: " ++ "Payment invalid: " ++ reason))), w1) /\
    requests_to (settle_url (PaymentHandler.facilitator this)) (log w1) =
      requests_to (settle_url (PaymentHandler.facilitator this)) (log w) /\
    payments w1 = payments w /\
    PaymentHandler.getPayments w1 = PaymentHandler.getPayments w /\
    PaymentHandler.getTotalRevenue w1 = PaymentHandler.getTotalRevenue w /\
    ledger_writes (log w1) = ledger_writes (log w) /\
    invocations (log w1) = invocations (log w).
Proof.
  intros this rt ctx header reason p w w1 v Hp Hpos Hh Hne Hrun Hinvalid Hreason Hrne.
  assert (Hproc : PaymentHandler.processPayment this header (Server.definition rt)
                    ("tool://" ++ Core.name (Server.definition rt)) w =
                  (Throw (Error ("Payment invalid: " ++ reason)), w1)).
  { rewrite (processPayment_rejected this (Server.definition rt) header w v w1 Hrun Hinvalid).
    rewrite Hreason. unfold or_default, truthy.
    destruct (String.eqb_spec reason ""); [contradiction|reflexivity]. }
  destruct (verify_returns_quietly _ _ _ _ _ _ Hrun) as (Hheap & Hinv & Hled & Hreq).
  destruct Hheap as (_ & _ & _ & _ & _ & _ & Hpay & _).
  split; [exact Hproc|]. split.
  - apply (tool_route_declined this rt ctx header w p _ w1 Hp ltac:(lia) Hh Hne Hproc).
    discriminate.
  - unfold PaymentHandler.getTotalRevenue, PaymentHandler.getPayments.
    rewrite Hpay. repeat split; assumption.
Qed.

Lemma rejected_payment_carries_reason_and_changes_nothing_witness :
  fst (Server.tool_route sample_handler sample_registered paying_request
         (idle rejecting_verify settling)) =
    Normal (Server.mkResponseContext 402 []
              (Server.ErrorBody "Payment invalid: Payment invalid: invalid_signature")) /\
  payments (snd (Server.tool_route sample_handler sample_registered paying_request
                   (idle rejecting_verify settling))) = [].
Proof.
  destruct (rejected_payment_carries_reason_and_changes_nothing sample_handler sample_registered
              paying_request "eyJ4NDAyVmVyc2lvbiI6MX0=" "invalid_signature" 1000
              (idle rejecting_verify settling)
              (with_fetch (idle rejecting_verify settling)
                 (verify_url (PaymentHandler.facilitator sample_handler))
                 "eyJ4NDAyVmVyc2lvbiI6MX0=")
              (mkVerifyResponse false (Some "invalid_signature") None)
              eq_refl eq_refl eq_refl ltac:(discriminate) eq_refl eq_refl eq_refl
              ltac:(discriminate))
    as (_ & Hroute & _ & Hpay & _).
  rewrite Hroute. split; [reflexivity|exact Hpay].
Defined.


(** ** Pay, then execute *)

Lemma header_present h :
  Middleware.header_missing h = false -> exists header, h = Some header /\ header <> EmptyString.
Proof.
  destruct h as [header|]; simpl; [|discriminate].
  intros H. exists header. split; [reflexivity|].
  intros ->. discriminate.
Qed.

Lemma header_not_missing header :
  header <> EmptyString -> Middleware.header_missing (Some header) = false.
Proof.
  intros H. simpl. unfold truthy.
  destruct (String.eqb_spec header ""); [contradiction|reflexivity].
Qed.

(** The log of the route for every end of the exchange with the facilitator. *)
Lemma paid_route_log this rt ctx w p header :
  StringToBigInt (Core.price (Server.definition rt)) = Some p -> 0 < p ->
  map_get "x-payment" (Server.headers ctx) = Some header -> header <> EmptyString ->
  let w' := snd (Server.tool_route this rt ctx w) in
  match exchange this header (Server.definition rt) w with
  | Settled v s =>
      exists pre ident,
        log w' = (pre ++ [Fetched (settle_url (PaymentHandler.facilitator this)) header;
                          LedgerSet ident;
                          HandlerInvoked (Core.name (Server.definition rt))])%list /\
        invocations pre = invocations (log w) /\
        ledger_writes pre = ledger_writes (log w) /\
        invocations (log w') = S (invocations (log w))
  | Rejected _ | SettlementFailed _ => invocations (log w') = invocations (log w)
  | VerifyUnavailable e | SettleUnavailable e =>
      surfaced_message e <> EmptyString -> invocations (log w') = invocations (log w)
  end.
Proof.
  intros Hp Hpos Hh Hne w'. unfold exchange.
  assert (Hnz : p <> 0) by lia.
  pose proof (verify_quiet (PaymentHandler.facilitator this) header
                (requirements_of this (Server.definition rt)) w) as Hvq.
  destruct (Facilitator.verify (PaymentHandler.facilitator this) header
              (requirements_of this (Server.definition rt)) w) as [[v|e] w1] eqn:Hv;
    simpl snd in Hvq; destruct Hvq as (Hheap1 & Hinv1 & Hled1).
  2:{ intros Hmsg. unfold w'.
      rewrite (tool_route_declined this rt ctx header w p e w1 Hp Hnz Hh Hne
                 (processPayment_verify_throws this _ header w e w1 Hv) Hmsg).
      exact Hinv1. }
  destruct (isValid v) eqn:Hvalid.
  2:{ unfold w'.
      rewrite (tool_route_declined this rt ctx header w p _ w1 Hp Hnz Hh Hne
                 (processPayment_rejected this _ header w v w1 Hv Hvalid)
                 ltac:(discriminate)).
      exact Hinv1. }
  pose proof (settle_quiet (PaymentHandler.facilitator this) header
                (requirements_of this (Server.definition rt)) w1) as Hsq.
  destruct (Facilitator.settle (PaymentHandler.facilitator this) header
              (requirements_of this (Server.definition rt)) w1) as [[s|e] w2] eqn:Hs;
    simpl snd in Hsq; destruct Hsq as (Hheap2 & Hinv2 & Hled2).
  2:{ intros Hmsg. unfold w'.
      rewrite (tool_route_declined this rt ctx header w p e w2 Hp Hnz Hh Hne
                 (processPayment_settle_throws this _ header w v w1 e w2 Hv Hvalid Hs) Hmsg).
      simpl snd. congruence. }
  destruct (Facilitator.success s) eqn:Hsucc.
  2:{ unfold w'.
      rewrite (tool_route_declined this rt ctx header w p _ w2 Hp Hnz Hh Hne
                 (processPayment_settlement_failed this _ header w v w1 s w2 Hv Hvalid Hs Hsucc)
                 ltac:(discriminate)).
      simpl snd. congruence. }
  destruct (processPayment_settled this _ header w v w1 s w2 Hv Hvalid Hs Hsucc)
    as (record & w3 & Hproc & _ & _ & _ & _ & _ & Hlog3 & _).
  destruct (tool_route_executes this rt ctx header w p record w3 Hp Hnz Hh Hne Hproc)
    as (response & w'' & Hroute & Hlog'' & _).
  destruct (settle_returns_last _ _ _ _ _ _ Hs) as (pre & Hlog2 & Hpre & Hpre').
  unfold w'. rewrite Hroute. simpl snd.
  exists pre, (id record).
  assert (Hlog : log w'' =
                 (pre ++ [Fetched (settle_url (PaymentHandler.facilitator this)) header;
                          LedgerSet (id record);
                          HandlerInvoked (Core.name (Server.definition rt))])%list).
  { rewrite Hlog'', Hlog3, Hlog2, <- !List.app_assoc. reflexivity. }
  split; [exact Hlog|]. split; [congruence|]. split; [congruence|].
  rewrite Hlog, invocations_app. simpl. rewrite Hpre, Hinv1. lia.
Qed.

(** What the route does apart from the defect shown below.  For a tool
    with a price above zero: without a payment header nothing happens but
    the challenge; after a rejected verify or a failed settlement the
    handler is not invoked; after a settlement the handler is invoked
    exactly once, as the last effect, after the settle request and the
    ledger write.  When the facilitator cannot be reached the handler is
    not invoked as long as the error in hand carries a message. *)
Theorem handler_runs_iff_payment_settled :
  forall (this : PaymentHandler.PaymentHandler) (rt : Server.RegisteredTool)
         (ctx : Server.RequestContext) (w : World) (p : Z),
    StringToBigInt (Core.price (Server.definition rt)) = Some p -> 0 < p ->
    let h := map_get "x-payment" (Server.headers ctx) in
    let w' := snd (Server.tool_route this rt ctx w) in
    (Middleware.header_missing h = true -> log w' = log w) /\
    (forall header, h = Some header -> header <> EmptyString ->
       match exchange this header (Server.definition rt) w with
       | Settled v s =>
           exists pre ident,
             log w' = (pre ++ [Fetched (settle_url (PaymentHandler.facilitator this)) header;
                               LedgerSet ident;
                               HandlerInvoked (Core.name (Server.definition rt))])%list /\
             invocations pre = invocations (log w) /\
             ledger_writes pre = ledger_writes (log w) /\
             invocations (log w') = S (invocations (log w))
       | Rejected _ | SettlementFailed _ => invocations (log w') = invocations (log w)
       | VerifyUnavailable e | SettleUnavailable e =>
           surfaced_message e <> EmptyString -> invocations (log w') = invocations (log w)
       end) /\
    (faults_described w ->
     (invocations (log w') = S (invocations (log w)) <->
      exists header v s,
        h = Some header /\ header <> EmptyString /\
        exchange this header (Server.definition rt) w = Settled v s) /\
     (invocations (log w') = invocations (log w) \/
      invocations (log w') = S (invocations (log w)))).
Proof.
  intros this rt ctx w p Hp Hpos h w'.
  assert (Hnz : p <> 0) by lia.
  assert (Hchallenge : Middleware.header_missing h = true -> log w' = log w).
  { intros Hmissing. unfold w'.
    now rewrite (tool_route_challenge this rt ctx w p Hp Hnz Hmissing). }
  assert (Hpaid : forall header, h = Some header -> header <> EmptyString ->
            match exchange this header (Server.definition rt) w with
            | Settled v s =>
                exists pre ident,
                  log w' = (pre ++ [Fetched (settle_url (PaymentHandler.facilitator this)) header;
                                    LedgerSet ident;
                                    HandlerInvoked (Core.name (Server.definition rt))])%list /\
                  invocations pre = invocations (log w) /\
                  ledger_writes pre = ledger_writes (log w) /\
                  invocations (log w') = S (invocations (log w))
            | Rejected _ | SettlementFailed _ => invocations (log w') = invocations (log w)
            | VerifyUnavailable e | SettleUnavailable e =>
                surfaced_message e <> EmptyString -> invocations (log w') = invocations (log w)
            end).
  { intros header Hh Hne. exact (paid_route_log this rt ctx w p header Hp Hpos Hh Hne). }
  split; [exact Hchallenge|]. split; [exact Hpaid|].
  intros Hdesc.
  destruct (Middleware.header_missing h) eqn:Hmissing.
  { specialize (Hchallenge eq_refl). rewrite Hchallenge. split; [|now left].
    split; [lia|].
    intros (header & v & s & Hh & Hne & _). rewrite Hh in Hmissing.
    rewrite (header_not_missing header Hne) in Hmissing. discriminate. }
  destruct (header_present h Hmissing) as (header & Hh & Hne).
  specialize (Hpaid header Hh Hne).
  assert (Hunavailable :
            match exchange this header (Server.definition rt) w with
            | VerifyUnavailable e | SettleUnavailable e => surfaced_message e <> EmptyString
            | _ => True
            end).
  { unfold exchange.
    pose proof (verify_quiet (PaymentHandler.facilitator this) header
                  (requirements_of this (Server.definition rt)) w) as Hvq.
    destruct (Facilitator.verify (PaymentHandler.facilitator this) header
                (requirements_of this (Server.definition rt)) w) as [[v|e] w1] eqn:Hv.
    - simpl snd in Hvq. destruct Hvq as (Hheap & _).
      destruct (isValid v); [|exact I].
      destruct (Facilitator.settle (PaymentHandler.facilitator this) header
                  (requirements_of this (Server.definition rt)) w1) as [[s|e] w2] eqn:Hs.
      + now destruct (Facilitator.success s).
      + refine (settle_throw_described _ _ _ w1 e w2 _ Hs).
        now apply (faults_described_heap w).
    - exact (verify_throw_described _ _ _ w e w1 Hdesc Hv). }
  destruct (exchange this header (Server.definition rt) w) as [e|v|e|s|v s] eqn:Hex.
  - specialize (Hpaid Hunavailable). rewrite Hpaid. split; [|now left].
    split; [lia|]. intros (header' & v & s & Hh' & _ & Hex').
    rewrite Hh in Hh'. injection Hh' as <-. congruence.
  - rewrite Hpaid. split; [|now left].
    split; [lia|]. intros (header' & v' & s & Hh' & _ & Hex').
    rewrite Hh in Hh'. injection Hh' as <-. congruence.
  - specialize (Hpaid Hunavailable). rewrite Hpaid. split; [|now left].
    split; [lia|]. intros (header' & v & s & Hh' & _ & Hex').
    rewrite Hh in Hh'. injection Hh' as <-. congruence.
  - rewrite Hpaid. split; [|now left].
    split; [lia|]. intros (header' & v & s' & Hh' & _ & Hex').
    rewrite Hh in Hh'. injection Hh' as <-. congruence.
  - destruct Hpaid as (pre & ident & _ & _ & _ & Hinv). split; [|now right].
    split; [|intros _; exact Hinv].
    intros _. exists header, v, s. split; [exact Hh|]. split; [exact Hne|exact Hex].
Qed.


Lemma handler_runs_iff_payment_settled_witness :
  invocations (log (snd (Server.tool_route sample_handler sample_registered paying_request
                           (idle accepting_verify settling)))) = 1%nat /\
  invocations (log (snd (Server.tool_route sample_handler sample_registered paying_request
                           (idle rejecting_verify settling)))) = 0%nat.
Proof.
  split.
  - destruct (handler_runs_iff_payment_settled sample_handler sample_registered paying_request
                (idle accepting_verify settling) 1000 eq_refl eq_refl) as (_ & _ & Hiff).
    apply (proj1 (Hiff ltac:(intros n e [H|H]; discriminate))).
    eexists. eexists. eexists.
    split; [reflexivity|]. split; [discriminate|reflexivity].
  - destruct (handler_runs_iff_payment_settled sample_handler sample_registered paying_request
                (idle rejecting_verify settling) 1000 eq_refl eq_refl) as (_ & Hpaid & _).
    exact (Hpaid "eyJ4NDAyVmVyc2lvbiI6MX0=" eq_refl ltac:(discriminate)).
Defined.

(** The assumption on the messages of the faults cannot be dropped: the
    route tests the error text, not [proceed], so a fault without a message
    lets the handler run unpaid. *)
Example handler_runs_after_fault_without_message :
  invocations (log (snd (Server.tool_route sample_handler sample_registered paying_request
                           (idle (fun _ => FetchRejects (Error "")) settling)))) = 1%nat.
Proof. reflexivity. Qed.

(** C1, the defect.  The claim holds that the handler of a priced tool runs
    only after verify and settle succeeded.  The route of the tool tests
    the error text that the middleware returns, not [proceed]: when the
    verify requests are rejected with an [Error] whose message is empty,
    the middleware returns [proceed = false] with the empty text as
    [error], the route takes that for no error and runs the handler.  The
    call with a payment header is answered 200 with the result of the tool
    and no payment, after three verify requests; no settle request was
    made, nothing was written to the ledger, and the call is counted. *)
Theorem handler_runs_without_settlement :
  let w := idle (fun _ => FetchRejects (Error "")) settling in
  let facilitator0 := PaymentHandler.facilitator sample_handler in
  let header := "eyJ4NDAyVmVyc2lvbiI6MX0=" in
  let w' := snd (Server.tool_route sample_handler sample_registered paying_request w) in
  StringToBigInt (Core.price (Server.definition sample_registered)) = Some 1000 /\
  map_get "x-payment" (Server.headers paying_request) = Some header /\
  exchange sample_handler header (Server.definition sample_registered) w =
    VerifyUnavailable (Error "") /\
  fst (Middleware.process sample_handler
         (Middleware.mkMiddlewareContext (Server.definition sample_registered) (Some header)
            (Server.request_body paying_request)) w) =
    Normal (Middleware.mkMiddlewareResult false None None (Some "")) /\
  fst (Server.tool_route sample_handler sample_registered paying_request w) =
    Normal (Server.mkResponseContext 200 []
              (Server.ResultBody (JSON.JString "candles") None)) /\
  invocations (log w') = 1%nat /\
  requests_to (verify_url facilitator0) (log w') = 3%nat /\
  requests_to (settle_url facilitator0) (log w') = 0%nat /\
  ledger_writes (log w') = 0%nat /\
  payments w' = [] /\
  map_get "get_ohlcv" (toolCalls w') = Some 1.
Proof. vm_compute. repeat split; reflexivity. Qed.


(** ** Validity window of a signed payload *)

Lemma client_validBefore this requirements w payload w' :
  Client.createPaymentPayload this requirements w = (Normal payload, w') ->
  Signing.validBefore (Signing.payload payload) =
    clock w / 1000 + Core.maxTimeoutSeconds requirements.
Proof.
  unfold Client.createPaymentPayload.
  destruct (Client.wallet this) as [wallet0|]; [|discriminate].
  unfold bind, Client.generateNonce, random_nonce, Core.calculateValidBefore, bind, Date_now,
    ret, lift. simpl.
  destruct (BigInt (Core.maxAmountRequired requirements)) as [value0|e]; [|discriminate].
  destruct (Signing.signTypedData wallet0 _ _) as [signature0|e]; [|discriminate].
  intros H. injection H as <- _. reflexivity.
Qed.

Lemma signing_validBefore wallet requirements network w payload w' :
  Signing.createPaymentPayload wallet requirements network w = (Normal payload, w') ->
  Signing.validBefore (Signing.payload payload) = clock w / 1000 + Core.TIMEOUTS_PAYMENT_VALIDITY.
Proof.
  unfold Signing.createPaymentPayload.
  unfold bind, Signing.generateNonce, random_nonce, Date_now, ret, lift. simpl.
  destruct (BigInt (Core.maxAmountRequired requirements)) as [value0|e]; [|discriminate].
  destruct (Signing.signTypedData wallet _ _) as [signature0|e]; [|discriminate].
  intros H. injection H as <- _. reflexivity.
Qed.

(** C9 at the failing input.  Requirements that allow 600 seconds, signed at
    1700000000 seconds: the header of the client carries
    [validBefore = 1700000600], the header of [createPaymentHeader] of the
    payment package carries [validBefore = 1700000300], the fixed validity
    of 300 seconds. *)
Theorem payment_package_validBefore_ignores_maxTimeoutSeconds :
  Core.maxTimeoutSeconds long_requirements = 600 /\
  validBefore_of
    (fst (Client.createPaymentHeader (Client.mkMCPClient Core.testnet (Some sample_wallet))
            long_requirements (at_time 1700000000000))) = Some 1700000600 /\
  validBefore_of
    (fst (Signing.createPaymentHeader sample_wallet long_requirements Core.testnet
            (at_time 1700000000000))) = Some 1700000300.
Proof. vm_compute. repeat split. Qed.


(** ** Base64: decoding what the encoder wrote *)

Lemma code_range c : 0 <= code c < 256.
Proof.
  unfold code. pose proof (nat_ascii_bounded c). lia.
Qed.

Lemma byte_code c : Buffer.byte (code c) = c.
Proof.
  unfold Buffer.byte, code. rewrite Nat2Z.id. apply ascii_nat_embedding.
Qed.

Lemma base64_char_value (k : nat) :
  (k < 64)%nat ->
  Buffer.unbase64 (Buffer.base64_char (Z.of_nat k)) = Some (Z.of_nat k) /\
  Ascii.eqb (Buffer.base64_char (Z.of_nat k)) "="%char = false.
Proof.
  intros H.
  do 64 (destruct k as [|k]; [vm_compute; split; reflexivity|]).
  lia.
Qed.

Lemma sextets_char n rest :
  0 <= n < 64 ->
  Buffer.sextets (String (Buffer.base64_char n) rest) = n :: Buffer.sextets rest.
Proof.
  intros Hn.
  destruct (base64_char_value (Z.to_nat n) ltac:(lia)) as [Hv He].
  rewrite Z2Nat.id in Hv, He by lia.
  simpl. now rewrite He, Hv.
Qed.

Lemma list_ind3 {A} (P : list A -> Prop) :
  P [] -> (forall x, P [x]) -> (forall x y, P [x; y]) ->
  (forall x y z r, P r -> P (x :: y :: z :: r)) ->
  forall l, P l.
Proof.
  intros H0 H1 H2 H3.
  fix IH 1. intros [|x [|y [|z r]]].
  - exact H0.
  - apply H1.
  - apply H2.
  - apply H3. apply IH.
Qed.

Theorem base64_round_trip (b : Buffer.Buffer) :
  Buffer.from_base64 (Buffer.toString_base64 b) = b.
Proof.
  unfold Buffer.from_base64.
  induction b as [|x|x y|x y z r IH] using list_ind3.
  - reflexivity.
  - pose proof (code_range x) as Hx.
    cbn [Buffer.toString_base64].
    rewrite !sextets_char by (Z.div_mod_to_equations; lia).
    cbn [Buffer.sextets Ascii.eqb Bool.eqb Buffer.bytes_of_sextets].
    f_equal. rewrite <- (byte_code x) at 3. f_equal.
    Z.div_mod_to_equations; lia.
  - pose proof (code_range x) as Hx. pose proof (code_range y) as Hy.
    cbn [Buffer.toString_base64].
    rewrite !sextets_char by (Z.div_mod_to_equations; lia).
    cbn [Buffer.sextets Ascii.eqb Bool.eqb Buffer.bytes_of_sextets].
    f_equal; [|f_equal].
    + rewrite <- (byte_code x) at 3. f_equal. Z.div_mod_to_equations; lia.
    + rewrite <- (byte_code y) at 3. f_equal. Z.div_mod_to_equations; lia.
  - pose proof (code_range x) as Hx. pose proof (code_range y) as Hy.
    pose proof (code_range z) as Hz.
    cbn [Buffer.toString_base64].
    rewrite !sextets_char by (Z.div_mod_to_equations; lia).
    cbn [Buffer.bytes_of_sextets]. rewrite IH.
    f_equal; [|f_equal; [|f_equal]].
    + rewrite <- (byte_code x) at 3. f_equal. Z.div_mod_to_equations; lia.
    + rewrite <- (byte_code y) at 3. f_equal. Z.div_mod_to_equations; lia.
    + rewrite <- (byte_code z) at 3. f_equal. Z.div_mod_to_equations; lia.
Qed.

Lemma utf8_round_trip (text : string) : Buffer.toString_utf8 (Buffer.from_utf8 text) = text.
Proof. apply string_of_list_ascii_of_string. Qed.


(** ** JSON: parsing what [stringify] wrote *)

Lemma append_assoc_string (a b c : string) : (a ++ b) ++ c = a ++ (b ++ c).
Proof. induction a as [|x a IH]; simpl; [reflexivity|now rewrite IH]. Qed.

Lemma parse_quote_char (c : ascii) (tail : string) :
  JSON.parse_string_body (JSON.quote_char c ++ tail) =
    JSON.prepend (String c "") (JSON.parse_string_body tail).
Proof.
  destruct c as [[] [] [] [] [] [] [] []]; reflexivity.
Qed.

Lemma parse_string_body_quote (s rest : string) :
  JSON.parse_string_body (JSON.quote_body s ++ String JSON.dquote rest) = Some (s, rest).
Proof.
  induction s as [|c s IH].
  - reflexivity.
  - cbn [JSON.quote_body]. rewrite append_assoc_string, parse_quote_char, IH. reflexivity.
Qed.


Lemma span_digits_uint (d : uint) (rest : string) :
  match rest with EmptyString => True | String c _ => JSON.is_digit c = false end ->
  JSON.span_digits (NilEmpty.string_of_uint d ++ rest) = (NilEmpty.string_of_uint d, rest).
Proof.
  intros Hrest.
  induction d as [|d IH|d IH|d IH|d IH|d IH|d IH|d IH|d IH|d IH|d IH];
    try (cbn [NilEmpty.string_of_uint append JSON.span_digits];
         change (JSON.is_digit _) with true; cbn iota; now rewrite IH).
  cbn [NilEmpty.string_of_uint append].
  destruct rest as [|c rest]; [reflexivity|].
  cbn [JSON.span_digits]. now rewrite Hrest.
Qed.

Lemma nzhead_no_leading_zero (d d' : uint) : nzhead d <> D0 d'.
Proof. induction d; simpl; try discriminate. exact IHd. Qed.

Lemma pos_to_uint_head (p : positive) :
  exists c s,
    NilEmpty.string_of_uint (Pos.to_uint p) = String c s /\
    JSON.is_digit c = true /\ Ascii.eqb c "0"%char = false /\ Ascii.eqb c "-"%char = false.
Proof.
  pose proof (DecimalPos.Unsigned.to_of (Pos.to_uint p)) as Hnorm.
  rewrite DecimalPos.Unsigned.of_to in Hnorm. simpl N.to_uint in Hnorm.
  pose proof (DecimalPos.Unsigned.to_uint_nonzero p) as Hnz.
  destruct (Pos.to_uint p) as [|d|d|d|d|d|d|d|d|d|d] eqn:E;
    try (eexists; eexists; split; [reflexivity|repeat split]).
  - exfalso. revert Hnorm. unfold unorm. simpl. discriminate.
  - exfalso. revert Hnorm. unfold unorm. simpl.
    destruct (nzhead d) eqn:En; intros H; try discriminate.
    + injection H as H. subst d. now apply Hnz.
    + injection H as H. subst u. now apply (nzhead_no_leading_zero d d).
Qed.

Lemma digits_to_Z_pos (p : positive) :
  JSON.digits_to_Z (NilEmpty.string_of_uint (Pos.to_uint p)) = Z.pos p.
Proof.
  unfold JSON.digits_to_Z. rewrite NilEmpty.usu.
  unfold N.of_uint. now rewrite DecimalPos.Unsigned.of_to.
Qed.

Lemma finish_number_delimited negative int_part rest :
  number_delimited rest ->
  JSON.finish_number negative int_part rest =
    Some (JSON.JNumber (if negative then - JSON.digits_to_Z int_part
                        else JSON.digits_to_Z int_part), rest).
Proof.
  intros Hrest. unfold JSON.finish_number.
  destruct rest as [|c rest]; [reflexivity|].
  destruct Hrest as (_ & Hdot & He & HE).
  assert (Hfrac : JSON.parse_fraction (String c rest) = Some (EmptyString, String c rest)).
  { unfold JSON.parse_fraction.
    destruct c as [[] [] [] [] [] [] [] []]; try reflexivity; discriminate. }
  rewrite Hfrac. unfold JSON.parse_exponent. rewrite He, HE. reflexivity.
Qed.

Lemma number_delimited_digit rest :
  number_delimited rest ->
  match rest with EmptyString => True | String c _ => JSON.is_digit c = false end.
Proof. destruct rest; [trivial|]. now intros (H & _). Qed.

Lemma parse_positive (negative : bool) (p : positive) (rest : string) :
  number_delimited rest ->
  (let s := NilEmpty.string_of_uint (Pos.to_uint p) ++ rest in
   match s with
   | EmptyString => None
   | String c r =>
       if Ascii.eqb c "0"%char then JSON.finish_number negative "0" r
       else if JSON.is_digit c then
              let '(ds, rest') := JSON.span_digits s in JSON.finish_number negative ds rest'
            else None
   end) = Some (JSON.JNumber (if negative then Z.neg p else Z.pos p), rest).
Proof.
  intros Hrest.
  destruct (pos_to_uint_head p) as (c & s & Hs & Hdigit & Hzero & _).
  cbv zeta.
  rewrite (span_digits_uint _ _ (number_delimited_digit _ Hrest)).
  rewrite Hs at 1. cbn [append]. rewrite Hzero, Hdigit.
  rewrite finish_number_delimited by exact Hrest.
  rewrite digits_to_Z_pos. now destruct negative.
Qed.

Lemma parse_number_toString (z : Z) (rest : string) :
  number_delimited rest ->
  JSON.parse_number (toString z ++ rest) = Some (JSON.JNumber z, rest).
Proof.
  intros Hrest. unfold toString, JSON.parse_number.
  destruct z as [|p|p].
  - cbn. now rewrite finish_number_delimited.
  - change (NilZero.string_of_int (Z.to_int (Z.pos p)))
      with (NilZero.string_of_uint (Pos.to_uint p)).
    assert (Hne : NilZero.string_of_uint (Pos.to_uint p) =
                  NilEmpty.string_of_uint (Pos.to_uint p)).
    { unfold NilZero.string_of_uint.
      pose proof (DecimalPos.Unsigned.to_uint_nonnil p).
      now destruct (Pos.to_uint p). }
    rewrite Hne.
    destruct (pos_to_uint_head p) as (c & s & Hs & _ & _ & Hminus).
    pose proof (parse_positive false p rest Hrest) as Hpos. cbv zeta in Hpos.
    rewrite Hs in *. cbn [append] in *.
    replace (match String c (s ++ rest) with
             | String "-"%char r => (true, r)
             | _ => (false, String c (s ++ rest))
             end) with (false, String c (s ++ rest)).
    + exact Hpos.
    + destruct c as [[] [] [] [] [] [] [] []]; try reflexivity; discriminate.
  - change (NilZero.string_of_int (Z.to_int (Z.neg p)))
      with (String "-" (NilZero.string_of_uint (Pos.to_uint p))).
    assert (Hne : NilZero.string_of_uint (Pos.to_uint p) =
                  NilEmpty.string_of_uint (Pos.to_uint p)).
    { unfold NilZero.string_of_uint.
      pose proof (DecimalPos.Unsigned.to_uint_nonnil p).
      now destruct (Pos.to_uint p). }
    rewrite Hne. cbn [append].
    exact (parse_positive true p rest Hrest).
Qed.


Lemma delimited_number rest : delimited rest -> number_delimited rest.
Proof.
  destruct rest as [|c rest]; [trivial|].
  intros [-> | [-> | ->]]; repeat split.
Qed.

(** The head of the text of a number: a digit or the minus sign. *)
Lemma toString_head (z : Z) :
  exists c s, toString z = String c s /\ (JSON.is_digit c = true \/ c = "-"%char).
Proof.
  unfold toString. destruct z as [|p|p].
  - exists "0"%char, EmptyString. split; [reflexivity|now left].
  - destruct (pos_to_uint_head p) as (c & s & Hs & Hd & _).
    exists c, s. split; [|now left].
    change (NilZero.string_of_int (Z.to_int (Z.pos p)))
      with (NilZero.string_of_uint (Pos.to_uint p)).
    unfold NilZero.string_of_uint.
    pose proof (DecimalPos.Unsigned.to_uint_nonnil p).
    destruct (Pos.to_uint p); [contradiction|exact Hs..].
  - eexists. eexists. split; [reflexivity|now right].
Qed.

Lemma number_head_tests (c : ascii) :
  JSON.is_digit c = true \/ c = "-"%char ->
  JSON.is_json_space c = false /\ Ascii.eqb c "{"%char = false /\
  Ascii.eqb c "["%char = false /\ Ascii.eqb c JSON.dquote = false /\
  Ascii.eqb c "t"%char = false /\ Ascii.eqb c "f"%char = false /\
  Ascii.eqb c "n"%char = false /\ Ascii.eqb c "]"%char = false /\
  Ascii.eqb c "}"%char = false.
Proof.
  intros [H | ->]; [|repeat split].
  destruct c as [[] [] [] [] [] [] [] []]; try discriminate; repeat split.
Qed.

Lemma parse_value_number (f : nat) (z : Z) (rest : string) :
  number_delimited rest ->
  JSON.parse_value (S f) (toString z ++ rest) = Some (JSON.JNumber z, rest).
Proof.
  intros Hrest.
  pose proof (parse_number_toString z rest Hrest) as Hnum.
  destruct (toString_head z) as (c & s & Hs & Hc).
  destruct (number_head_tests c Hc) as (H1 & H2 & H3 & H4 & H5 & H6 & H7 & _).
  rewrite Hs in *. cbn [append] in *.
  cbn [JSON.parse_value JSON.skip_ws]. rewrite H1, H2, H3, H4, H5, H6, H7.
  exact Hnum.
Qed.

(** The head of the text of a clean value: no white space, no closing
    bracket. *)
Lemma stringify_head (j : JSON.Json) :
  clean j = true ->
  exists c s,
    JSON.stringify j = String c s /\ JSON.is_json_space c = false /\
    Ascii.eqb c "]"%char = false /\ Ascii.eqb c "}"%char = false.
Proof.
  intros Hclean. destruct j as [|b|z|lexeme|str|items|members].
  - eexists; eexists; split; [reflexivity|repeat split].
  - destruct b; eexists; eexists; (split; [reflexivity|repeat split]).
  - destruct (toString_head z) as (c & s & Hs & Hc).
    destruct (number_head_tests c Hc) as (H1 & _ & _ & _ & _ & _ & _ & H8 & H9).
    exists c, s. cbn [JSON.stringify]. now repeat split.
  - discriminate.
  - eexists; eexists; split; [reflexivity|repeat split].
  - eexists; eexists; split; [reflexivity|repeat split].
  - eexists; eexists; split; [reflexivity|repeat split].
Qed.

Lemma skip_ws_delimited rest :
  delimited rest -> JSON.skip_ws rest = rest.
Proof.
  destruct rest as [|c rest]; [reflexivity|].
  intros [-> | [-> | ->]]; reflexivity.
Qed.

(** Assigning members with distinct keys keeps them as written. *)
Lemma set_member_fresh k v acc :
  existsb (String.eqb k) (map fst acc) = false ->
  JSON.set_member k v acc = (acc ++ [(k, v)])%list.
Proof.
  induction acc as [|[k' v'] acc IH]; simpl; [reflexivity|].
  intros H. apply orb_false_iff in H. destruct H as [Hk Hrest].
  rewrite String.eqb_sym, Hk. now rewrite IH.
Qed.

Lemma fold_set_member ms : forall acc,
  distinct (map fst acc ++ map fst ms) = true ->
  fold_left (fun a kv => JSON.set_member (fst kv) (snd kv) a) ms acc = (acc ++ ms)%list.
Proof.
  induction ms as [|[k v] ms IH]; intros acc Hd; simpl.
  - now rewrite List.app_nil_r.
  - assert (Hfresh : existsb (String.eqb k) (map fst acc) = false).
    { clear IH. induction acc as [|[k' v'] acc IHa]; simpl in *; [reflexivity|].
      apply andb_true_iff in Hd. destruct Hd as [Hk' Hd].
      rewrite (IHa Hd), orb_false_r.
      apply negb_true_iff in Hk'. rewrite existsb_app in Hk'.
      apply orb_false_iff in Hk'. destruct Hk' as [_ Hk']. simpl in Hk'.
      apply orb_false_iff in Hk'. destruct Hk' as [Hk' _].
      now rewrite String.eqb_sym. }
    rewrite (set_member_fresh k v acc Hfresh), IH.
    + now rewrite <- List.app_assoc.
    + rewrite map_app. simpl. now rewrite <- List.app_assoc.
Qed.

Lemma build_object_distinct ms :
  distinct (map fst ms) = true -> JSON.build_object ms = JSON.JObject ms.
Proof.
  intros H. unfold JSON.build_object. now rewrite (fold_set_member ms []).
Qed.


(** Induction on a value with the hypothesis for every element of an array
    and every member of an object. *)
Lemma Json_nested_ind (P : JSON.Json -> Prop) :
  P JSON.JNull ->
  (forall b, P (JSON.JBool b)) ->
  (forall z, P (JSON.JNumber z)) ->
  (forall lexeme, P (JSON.JFraction lexeme)) ->
  (forall s, P (JSON.JString s)) ->
  (forall items, Forall P items -> P (JSON.JArray items)) ->
  (forall members, Forall (fun kv => P (snd kv)) members -> P (JSON.JObject members)) ->
  forall j, P j.
Proof.
  intros P_null P_bool P_number P_fraction P_string P_array P_object.
  fix IH 1. intros [|b|z|lexeme|s|items|members].
  - exact P_null.
  - apply P_bool.
  - apply P_number.
  - apply P_fraction.
  - apply P_string.
  - apply P_array. induction items as [|x items IHitems]; constructor.
    + apply IH.
    + exact IHitems.
  - apply P_object. induction members as [|kv members IHmembers]; constructor.
    + apply IH.
    + exact IHmembers.
Qed.

Lemma concat_cons (sep a : string) (ys : list string) :
  ys <> [] -> String.concat sep (a :: ys) = a ++ sep ++ String.concat sep ys.
Proof. destruct ys; [congruence|reflexivity]. Qed.

Lemma elements_step f x s tail :
  JSON.parse_value f s = Some (x, String "," tail) ->
  JSON.parse_elements (S f) s =
    match JSON.parse_elements f tail with
    | Some (vs, r2) => Some (x :: vs, r2)
    | None => None
    end.
Proof. intros H. cbn [JSON.parse_elements]. rewrite H. reflexivity. Qed.

Lemma elements_last f x s rest :
  JSON.parse_value f s = Some (x, String "]" rest) ->
  JSON.parse_elements (S f) s = Some ([x], rest).
Proof. intros H. cbn [JSON.parse_elements]. rewrite H. reflexivity. Qed.

Lemma parse_elements_round_trip (items : list JSON.Json) :
  items <> [] -> Forall round_trips items ->
  forall fuel rest,
    (list_sum (map (fun x => S (size x)) items) <= fuel)%nat ->
    JSON.parse_elements fuel
      (String.concat "," (map JSON.stringify items) ++ String "]" rest) = Some (items, rest).
Proof.
  induction items as [|x items IH]; [congruence|].
  intros _ Hall fuel rest Hfuel.
  inversion Hall as [|x' items' Hx Hitems]; subst.
  change (S (size x) + list_sum (map (fun x => S (size x)) items) <= fuel)%nat in Hfuel.
  destruct fuel as [|f]; [lia|].
  destruct items as [|y items].
  - cbn [map String.concat].
    apply elements_last. apply Hx; [lia|]. simpl. now right; left.
  - change (map JSON.stringify (x :: y :: items))
      with (JSON.stringify x :: map JSON.stringify (y :: items)).
    rewrite concat_cons by discriminate.
    rewrite !append_assoc_string.
    change ("," ++ String.concat "," (map JSON.stringify (y :: items)) ++ String "]" rest)
      with (String "," (String.concat "," (map JSON.stringify (y :: items)) ++ String "]" rest)).
    rewrite (elements_step f x _ _
               (Hx f (String "," (String.concat "," (map JSON.stringify (y :: items))
                                    ++ String "]" rest))
                  ltac:(lia) (or_introl eq_refl))).
    rewrite IH; [reflexivity|discriminate|exact Hitems|lia].
Qed.


Lemma member_text_shape k s tail :
  (JSON.quote k ++ ":" ++ s) ++ tail =
    String JSON.dquote (JSON.quote_body k ++ String JSON.dquote (String ":" (s ++ tail))).
Proof.
  unfold JSON.quote. cbn [append]. rewrite !append_assoc_string. reflexivity.
Qed.

Lemma members_step f k v s tail :
  JSON.parse_value f s = Some (v, String "," tail) ->
  JSON.parse_members (S f)
    (String JSON.dquote (JSON.quote_body k ++ String JSON.dquote (String ":" s))) =
    match JSON.parse_members f tail with
    | Some (ms, r5) => Some ((k, v) :: ms, r5)
    | None => None
    end.
Proof.
  intros H. cbn [JSON.parse_members JSON.skip_ws].
  change (JSON.is_json_space JSON.dquote) with false. cbv iota.
  change (Ascii.eqb JSON.dquote JSON.dquote) with true. cbv iota.
  rewrite parse_string_body_quote. cbn [JSON.skip_ws].
  change (JSON.is_json_space ":") with false. cbv iota.
  change (Ascii.eqb ":" ":") with true. cbv iota.
  rewrite H. reflexivity.
Qed.

Lemma members_last f k v s rest :
  JSON.parse_value f s = Some (v, String "}" rest) ->
  JSON.parse_members (S f)
    (String JSON.dquote (JSON.quote_body k ++ String JSON.dquote (String ":" s))) =
    Some ([(k, v)], rest).
Proof.
  intros H. cbn [JSON.parse_members JSON.skip_ws].
  change (JSON.is_json_space JSON.dquote) with false. cbv iota.
  change (Ascii.eqb JSON.dquote JSON.dquote) with true. cbv iota.
  rewrite parse_string_body_quote. cbn [JSON.skip_ws].
  change (JSON.is_json_space ":") with false. cbv iota.
  change (Ascii.eqb ":" ":") with true. cbv iota.
  rewrite H. reflexivity.
Qed.

Lemma parse_members_round_trip (members : list (string * JSON.Json)) :
  members <> [] -> Forall (fun kv => round_trips (snd kv)) members ->
  forall fuel rest,
    (list_sum (map (fun kv => S (size (snd kv))) members) <= fuel)%nat ->
    JSON.parse_members fuel
      (String.concat "," (map member_text members) ++ String "}" rest) = Some (members, rest).
Proof.
  induction members as [|[k v] members IH]; [congruence|].
  intros _ Hall fuel rest Hfuel.
  inversion Hall as [|kv' members' Hv Hmembers]; subst. simpl snd in Hv.
  change (S (size v) + list_sum (map (fun kv => S (size (snd kv))) members) <= fuel)%nat
    in Hfuel.
  destruct fuel as [|f]; [lia|].
  destruct members as [|m members].
  - cbn [map String.concat]. unfold member_text at 1. cbn [fst snd].
    rewrite member_text_shape.
    apply members_last. apply Hv; [lia|]. simpl. now right; right.
  - change (map member_text ((k, v) :: m :: members))
      with (member_text (k, v) :: map member_text (m :: members)).
    rewrite concat_cons by discriminate.
    rewrite append_assoc_string.
    unfold member_text at 1. cbn [fst snd].
    rewrite member_text_shape.
    change (("," ++ String.concat "," (map member_text (m :: members))) ++ String "}" rest)
      with (String "," (String.concat "," (map member_text (m :: members))
                          ++ String "}" rest)).
    rewrite (members_step f k v _ _
               (Hv f (String "," (String.concat "," (map member_text (m :: members))
                                    ++ String "}" rest))
                  ltac:(lia) (or_introl eq_refl))).
    rewrite IH; [reflexivity|discriminate|exact Hmembers|lia].
Qed.


Lemma forallb_Forall_clean {A} (f : A -> JSON.Json) (P : JSON.Json -> Prop) (l : list A) :
  Forall (fun a => clean (f a) = true -> P (f a)) l ->
  forallb (fun a => clean (f a)) l = true ->
  Forall (fun a => P (f a)) l.
Proof.
  induction 1 as [|a l Ha Hl IH]; simpl; intros Hc; constructor.
  - apply Ha. now apply andb_true_iff in Hc.
  - apply IH. now apply andb_true_iff in Hc.
Qed.

Lemma parse_value_array f c s :
  JSON.is_json_space c = false -> Ascii.eqb c "]" = false ->
  JSON.parse_value (S f) (String "[" (String c s)) =
    match JSON.parse_elements f (String c s) with
    | Some (vs, r2) => Some (JSON.JArray vs, r2)
    | None => None
    end.
Proof.
  intros Hws Hclose. cbn [JSON.parse_value JSON.skip_ws].
  change (JSON.is_json_space "[") with false. cbv iota.
  change (Ascii.eqb "[" "{") with false. change (Ascii.eqb "[" "[") with true. cbv iota.
  cbn [JSON.skip_ws]. rewrite Hws, Hclose. reflexivity.
Qed.

Lemma parse_value_object f s :
  JSON.parse_value (S f) (String "{" (String JSON.dquote s)) =
    match JSON.parse_members f (String JSON.dquote s) with
    | Some (ms, r2) => Some (JSON.build_object ms, r2)
    | None => None
    end.
Proof. reflexivity. Qed.

(** Every clean value is parsed back from its text, whatever follows it. *)
Theorem clean_round_trips (j : JSON.Json) : clean j = true -> round_trips j.
Proof.
  induction j as [|b|z|lexeme|s|items IH|members IH] using Json_nested_ind;
    intros Hclean fuel rest Hfuel Hrest.
  - destruct fuel as [|f]; [simpl in Hfuel; lia|]. reflexivity.
  - destruct fuel as [|f]; [simpl in Hfuel; lia|]. destruct b; reflexivity.
  - destruct fuel as [|f]; [simpl in Hfuel; lia|].
    apply parse_value_number. now apply delimited_number.
  - discriminate.
  - destruct fuel as [|f]; [simpl in Hfuel; lia|].
    cbn [JSON.stringify]. unfold JSON.quote. cbn [append].
    rewrite append_assoc_string. cbn [append JSON.parse_value JSON.skip_ws].
    change (JSON.is_json_space JSON.dquote) with false. cbv iota.
    change (Ascii.eqb JSON.dquote "{") with false.
    change (Ascii.eqb JSON.dquote "[") with false.
    change (Ascii.eqb JSON.dquote JSON.dquote) with true. cbv iota.
    now rewrite parse_string_body_quote.
  - cbn [clean] in Hclean.
    assert (Hall : Forall round_trips items).
    { apply (forallb_Forall_clean (fun x => x) round_trips items IH Hclean). }
    cbn [size] in Hfuel.
    destruct fuel as [|f]; [lia|].
    cbn [JSON.stringify]. cbn [append]. rewrite append_assoc_string.
    change ("]" ++ rest) with (String "]" rest).
    destruct items as [|x items].
    + reflexivity.
    + assert (Hx : clean x = true) by (simpl in Hclean; now apply andb_true_iff in Hclean).
      pose proof (parse_elements_round_trip (x :: items) ltac:(discriminate) Hall f rest
                    ltac:(lia)) as Hel.
      assert (Hhead : exists c s,
                 String.concat "," (map JSON.stringify (x :: items)) ++ String "]" rest
                 = String c s /\ JSON.is_json_space c = false /\ Ascii.eqb c "]" = false).
      { destruct (stringify_head x Hx) as (c & s & Hs & Hws & Hclose & _).
        change (map JSON.stringify (x :: items))
          with (JSON.stringify x :: map JSON.stringify items).
        destruct (map JSON.stringify items) as [|y ys].
        - cbn [String.concat]. rewrite Hs. cbn [append]. eauto.
        - rewrite concat_cons by discriminate. rewrite Hs. cbn [append]. eauto. }
      destruct Hhead as (c & s & Htext & Hws & Hclose).
      rewrite Htext in *.
      rewrite (parse_value_array f c s Hws Hclose), Hel. reflexivity.
  - cbn [clean] in Hclean. apply andb_true_iff in Hclean. destruct Hclean as [Hclean Hkeys].
    assert (Hall : Forall (fun kv => round_trips (snd kv)) members).
    { apply (forallb_Forall_clean snd round_trips members IH Hclean). }
    cbn [size] in Hfuel.
    destruct fuel as [|f]; [lia|].
    cbn [JSON.stringify].
    change (fun kv : string * JSON.Json => JSON.quote (fst kv) ++ ":" ++ JSON.stringify (snd kv))
      with member_text.
    cbn [append]. rewrite append_assoc_string.
    change ("}" ++ rest) with (String "}" rest).
    destruct members as [|[k v] members].
    + reflexivity.
    + pose proof (parse_members_round_trip ((k, v) :: members) ltac:(discriminate) Hall f rest
                    ltac:(lia)) as Hmem.
      assert (Hhead : exists s,
                 String.concat "," (map member_text ((k, v) :: members)) ++ String "}" rest
                 = String JSON.dquote s).
      { change (map member_text ((k, v) :: members))
          with (member_text (k, v) :: map member_text members).
        destruct (map member_text members) as [|y ys].
        - cbn [String.concat]. unfold member_text, JSON.quote. cbn [append]. eauto.
        - rewrite concat_cons by discriminate.
          unfold member_text, JSON.quote. cbn [append]. eauto. }
      destruct Hhead as (s & Htext).
      rewrite Htext in *.
      rewrite parse_value_object, Hmem. now rewrite build_object_distinct.
Qed.


Lemma length_append_string (a b : string) :
  String.length (a ++ b) = (String.length a + String.length b)%nat.
Proof. induction a as [|c a IH]; simpl; [reflexivity|now rewrite IH]. Qed.

Lemma append_empty_r (a : string) : a ++ "" = a.
Proof. induction a as [|c a IH]; simpl; [reflexivity|now rewrite IH]. Qed.

Lemma concat_length_bound {A} (sz : A -> nat) (txt : A -> string) (l : list A) :
  Forall (fun a => (sz a <= 2 * String.length (txt a))%nat) l ->
  (list_sum (map (fun a => S (sz a)) l)
   <= 2 * String.length (String.concat "," (map txt l)) + 2)%nat.
Proof.
  induction 1 as [|a l Ha Hl IH]; [simpl; lia|].
  change (list_sum (map (fun a => S (sz a)) (a :: l)))
    with (S (sz a) + list_sum (map (fun a => S (sz a)) l))%nat.
  change (map txt (a :: l)) with (txt a :: map txt l).
  destruct l as [|b l].
  - cbn [map String.concat list_sum]. simpl list_sum. lia.
  - rewrite concat_cons by discriminate.
    rewrite !length_append_string. simpl String.length at 2. lia.
Qed.

Lemma size_bound (j : JSON.Json) :
  clean j = true -> (size j <= 2 * String.length (JSON.stringify j))%nat.
Proof.
  induction j as [|b|z|lexeme|s|items IH|members IH] using Json_nested_ind; intros Hclean.
  - simpl. lia.
  - destruct b; simpl; lia.
  - destruct (toString_head z) as (c & s & Hs & _).
    cbn [JSON.stringify size]. rewrite Hs. simpl. lia.
  - discriminate.
  - cbn [JSON.stringify size]. unfold JSON.quote. simpl. lia.
  - cbn [clean] in Hclean.
    pose proof (forallb_Forall_clean (fun x => x)
                  (fun x => (size x <= 2 * String.length (JSON.stringify x))%nat)
                  items IH Hclean) as Hall.
    pose proof (concat_length_bound size JSON.stringify items Hall) as Hb.
    cbn [JSON.stringify size]. rewrite !length_append_string.
    simpl String.length. lia.
  - cbn [clean] in Hclean. apply andb_true_iff in Hclean. destruct Hclean as [Hclean _].
    pose proof (forallb_Forall_clean snd
                  (fun x => (size x <= 2 * String.length (JSON.stringify x))%nat)
                  members IH Hclean) as Hall.
    assert (Hall' : Forall (fun kv => (size (snd kv) <= 2 * String.length (member_text kv))%nat)
                      members).
    { eapply Forall_impl; [|exact Hall]. intros kv Hkv. cbv beta in Hkv.
      unfold member_text. rewrite !length_append_string. lia. }
    pose proof (concat_length_bound (fun kv => size (snd kv)) member_text members Hall') as Hb.
    cbn [JSON.stringify size].
    change (fun kv : string * JSON.Json => JSON.quote (fst kv) ++ ":" ++ JSON.stringify (snd kv))
      with member_text.
    rewrite !length_append_string. simpl String.length. lia.
Qed.

(** [JSON.parse(JSON.stringify(value))] gives the value back. *)
Theorem parse_stringify (j : JSON.Json) :
  clean j = true -> JSON.parse (JSON.stringify j) = Normal j.
Proof.
  intros Hclean. unfold JSON.parse.
  pose proof (clean_round_trips j Hclean (2 * String.length (JSON.stringify j) + 2)%nat "")
    as H.
  rewrite append_empty_r in H.
  rewrite H; [reflexivity| |exact I].
  pose proof (size_bound j Hclean). lia.
Qed.


(** ** Payment header codec *)

Lemma to_json_clean (p : Signing.CronosPaymentPayload) : clean (Signing.to_json p) = true.
Proof. reflexivity. Qed.

Lemma of_json_to_json (p : Signing.CronosPaymentPayload) :
  Signing.of_json (Signing.to_json p) = Some p.
Proof. destruct p as [v s n [f t val va vb no sg a]]. reflexivity. Qed.

Lemma header_text_encode (j : JSON.Json) :
  header_text (Core.encodePaymentHeader j) = JSON.stringify j.
Proof.
  unfold header_text, Core.encodePaymentHeader.
  now rewrite base64_round_trip, utf8_round_trip.
Qed.

Lemma decode_encode (p : Signing.CronosPaymentPayload) :
  Signing.decodePaymentHeader (encode p) = Normal (Signing.to_json p).
Proof.
  unfold Signing.decodePaymentHeader.
  change (Buffer.toString_utf8 (Buffer.from_base64 (encode p)))
    with (header_text (Core.encodePaymentHeader (Signing.to_json p))).
  rewrite header_text_encode. apply parse_stringify, to_json_clean.
Qed.

Lemma parse_encode (j : JSON.Json) :
  clean j = true -> Core.parsePaymentHeader (Core.encodePaymentHeader j) = Normal j.
Proof.
  intros Hclean. unfold Core.parsePaymentHeader.
  change (Buffer.toString_utf8 (Buffer.from_base64 (Core.encodePaymentHeader j)))
    with (header_text (Core.encodePaymentHeader j)).
  now rewrite header_text_encode, parse_stringify.
Qed.

Lemma signing_header_is_encoding wallet requirements network w header w' :
  Signing.createPaymentHeader wallet requirements network w = (Normal header, w') ->
  exists p,
    Signing.createPaymentPayload wallet requirements network w = (Normal p, w') /\
    header = encode p /\
    Signing.asset (Signing.payload p) = Core.asset requirements.
Proof.
  unfold Signing.createPaymentHeader, bind.
  destruct (Signing.createPaymentPayload wallet requirements network w) as [[p|e] w1] eqn:E;
    [|discriminate].
  intros H. injection H as <- <-. exists p. split; [reflexivity|]. split; [reflexivity|].
  revert E. unfold Signing.createPaymentPayload, bind, Signing.generateNonce, random_nonce,
    Date_now, ret, lift. simpl.
  destruct (BigInt (Core.maxAmountRequired requirements)); [|discriminate].
  destruct (Signing.signTypedData wallet _ _); [|discriminate].
  intros H. injection H as <- _. reflexivity.
Qed.

Lemma client_header_is_encoding this requirements w header w' :
  Client.createPaymentHeader this requirements w = (Normal header, w') ->
  exists p,
    Client.createPaymentPayload this requirements w = (Normal p, w') /\
    header = encode p /\
    Signing.asset (Signing.payload p) = Core.asset requirements.
Proof.
  unfold Client.createPaymentHeader, bind.
  destruct (Client.createPaymentPayload this requirements w) as [[p|e] w1] eqn:E;
    [|discriminate].
  intros H. injection H as <- <-. exists p. split; [reflexivity|]. split; [reflexivity|].
  revert E. unfold Client.createPaymentPayload.
  destruct (Client.wallet this) as [wallet0|]; [|discriminate].
  unfold bind, Client.generateNonce, random_nonce, Core.calculateValidBefore, bind, Date_now,
    ret, lift. simpl.
  destruct (BigInt (Core.maxAmountRequired requirements)); [|discriminate].
  destruct (Signing.signTypedData wallet0 _ _); [|discriminate].
  intros H. injection H as <- _. reflexivity.
Qed.

(** C4. For every valid payment payload, decoding the encoded header gives
    the payload back, with [decodePaymentHeader] as with
    [parsePaymentHeader], and the decoded value has a non-empty
    [payload.asset].  The headers that the two [createPaymentHeader]
    functions return decode to the payload they signed, whose
    [payload.asset] is the asset of the requirements. *)
Theorem payment_header_round_trip :
  forall p : Signing.CronosPaymentPayload,
    Signing.validatePaymentPayload p = true ->
    Core.encodePaymentHeader (Signing.to_json p) = encode p /\
    Signing.decodePaymentHeader (encode p) = Normal (Signing.to_json p) /\
    Core.parsePaymentHeader (encode p) = Normal (Signing.to_json p) /\
    Signing.of_json (Signing.to_json p) = Some p /\
    payload_asset (Signing.decodePaymentHeader (encode p)) =
      Some (Signing.asset (Signing.payload p)) /\
    Signing.asset (Signing.payload p) <> EmptyString /\
    (forall wallet requirements network w header w',
        Signing.createPaymentHeader wallet requirements network w = (Normal header, w') ->
        payload_asset (Signing.decodePaymentHeader header) = Some (Core.asset requirements)) /\
    (forall this requirements w header w',
        Client.createPaymentHeader this requirements w = (Normal header, w') ->
        payload_asset (Signing.decodePaymentHeader header) = Some (Core.asset requirements)).
Proof.
  intros p Hvalid.
  split; [reflexivity|]. split; [apply decode_encode|].
  split; [apply (parse_encode _ (to_json_clean p))|].
  split; [apply of_json_to_json|].
  split; [rewrite decode_encode; reflexivity|]. split.
  - unfold Signing.validatePaymentPayload in Hvalid.
    destruct ((Signing.x402Version p =? 0) || negb (Signing.x402Version p =? Core.X402_VERSION));
      [discriminate|].
    destruct (negb (truthy (Signing.scheme p)) || negb (truthy (Signing.network p)));
      [discriminate|].
    intros Hempty. rewrite Hempty in Hvalid. simpl in Hvalid.
    rewrite !orb_true_r in Hvalid. discriminate.
  - split.
    + intros wallet requirements network w header w' Hrun.
      destruct (signing_header_is_encoding _ _ _ _ _ _ Hrun) as (q & _ & -> & Hasset).
      rewrite decode_encode. simpl. now rewrite Hasset.
    + intros this requirements w header w' Hrun.
      destruct (client_header_is_encoding _ _ _ _ _ Hrun) as (q & _ & -> & Hasset).
      rewrite decode_encode. simpl. now rewrite Hasset.
Qed.

Lemma payment_header_round_trip_witness :
  Signing.decodePaymentHeader (encode sample_payload) = Normal (Signing.to_json sample_payload) /\
  payload_asset (Signing.decodePaymentHeader (encode sample_payload)) =
    Some "0xc01efAaF7C5C61bEbFAeb358E1161b537b8bC0e0".
Proof.
  destruct (payment_header_round_trip sample_payload eq_refl)
    as (_ & Hdecode & _ & _ & Hasset & _).
  split; [exact Hdecode|exact Hasset].
Defined.


(** ** The fuel of [JSON.parse] is enough *)

Lemma skip_ws_length (s : string) : (String.length (JSON.skip_ws s) <= String.length s)%nat.
Proof.
  induction s as [|c s IH]; simpl; [lia|].
  destruct (JSON.is_json_space c); simpl; lia.
Qed.

Lemma prepend_some p x str r :
  JSON.prepend p x = Some (str, r) -> exists str', x = Some (str', r).
Proof.
  destruct x as [[str' r']|]; simpl; [|discriminate].
  intros H. injection H as _ <-. now exists str'.
Qed.

Lemma parse_string_body_length (n : nat) : forall s str r,
  (String.length s <= n)%nat ->
  JSON.parse_string_body s = Some (str, r) -> (String.length r < String.length s)%nat.
Proof.
  induction n as [|n IH]; intros s str r Hn H.
  - destruct s; [discriminate|simpl in Hn; lia].
  - destruct s as [|c s]; [discriminate|]. simpl in Hn.
    cbn [JSON.parse_string_body] in H.
    destruct (Ascii.eqb c JSON.dquote).
    { injection H as _ <-. simpl. lia. }
    destruct (Ascii.eqb c JSON.backslash).
    { destruct s as [|e r1]; [discriminate|]. simpl in Hn.
      destruct (JSON.simple_escape e).
      - apply prepend_some in H. destruct H as [str' H].
        apply IH in H; [simpl; lia|lia].
      - destruct (Ascii.eqb e "u"); [|discriminate].
        destruct r1 as [|h1 [|h2 [|h3 [|h4 r2]]]]; try discriminate.
        destruct (JSON.hex_value h1), (JSON.hex_value h2), (JSON.hex_value h3),
          (JSON.hex_value h4); try discriminate.
        apply prepend_some in H. destruct H as [str' H].
        simpl in Hn. apply IH in H; [simpl; lia|lia]. }
    destruct (code c <? 32); [discriminate|].
    apply prepend_some in H. destruct H as [str' H].
    apply IH in H; [simpl; lia|lia].
Qed.

Lemma span_digits_length (s : string) :
  (String.length (snd (JSON.span_digits s)) <= String.length s)%nat.
Proof.
  induction s as [|c s IH]; simpl; [lia|].
  destruct (JSON.is_digit c); [|simpl; lia].
  destruct (JSON.span_digits s) as [ds rest]. simpl in *. lia.
Qed.

Lemma parse_fraction_length s fr r :
  JSON.parse_fraction s = Some (fr, r) -> (String.length r <= String.length s)%nat.
Proof.
  unfold JSON.parse_fraction.
  destruct s as [|c s]; [intros H; injection H as _ <-; simpl; lia|].
  destruct (Ascii.eqb_spec c ".") as [->|Hc].
  - pose proof (span_digits_length s) as Hl.
    destruct (JSON.span_digits s) as [[|d ds] rest]; [discriminate|].
    intros H. injection H as _ <-. simpl in *. lia.
  - intros H.
    assert (Hr : r = String c s).
    { destruct c as [[] [] [] [] [] [] [] []]; try (injection H as _ <-; reflexivity).
      now contradiction Hc. }
    subst r. lia.
Qed.

Lemma parse_exponent_length s ex r :
  JSON.parse_exponent s = Some (ex, r) -> (String.length r <= String.length s)%nat.
Proof.
  unfold JSON.parse_exponent.
  destruct s as [|c s]; [intros H; injection H as _ <-; simpl; lia|].
  destruct (Ascii.eqb c "e" || Ascii.eqb c "E").
  - assert (Hsign : (String.length (snd (match s with
                       | String "+" r' => ("+", r')
                       | String "-" r' => ("-", r')
                       | _ => ("", s)
                       end)) <= String.length s)%nat).
    { destruct s as [|d s']; [simpl; lia|].
      destruct d as [[] [] [] [] [] [] [] []]; simpl; lia. }
    destruct (match s with
              | String "+" r' => ("+", r')
              | String "-" r' => ("-", r')
              | _ => ("", s)
              end) as [sign r1].
    simpl in Hsign. pose proof (span_digits_length r1) as Hl.
    destruct (JSON.span_digits r1) as [[|d ds] rest]; [discriminate|].
    intros H. injection H as _ <-. simpl in *. lia.
  - intros H. injection H as _ <-. lia.
Qed.

Lemma finish_number_length negative int_part s j r :
  JSON.finish_number negative int_part s = Some (j, r) ->
  (String.length r <= String.length s)%nat.
Proof.
  unfold JSON.finish_number.
  destruct (JSON.parse_fraction s) as [[fr r1]|] eqn:Hf; [|discriminate].
  destruct (JSON.parse_exponent r1) as [[ex r2]|] eqn:He; [|discriminate].
  apply parse_fraction_length in Hf. apply parse_exponent_length in He.
  destruct fr, ex; intros H; injection H as _ <-; lia.
Qed.

Lemma parse_unsigned_length negative s j r :
  match s with
  | EmptyString => None
  | String c r0 =>
      if Ascii.eqb c "0" then JSON.finish_number negative "0" r0
      else if JSON.is_digit c then
             let '(ds, rest') := JSON.span_digits s in JSON.finish_number negative ds rest'
           else None
  end = Some (j, r) ->
  (String.length r < String.length s)%nat.
Proof.
  destruct s as [|c r0]; [discriminate|].
  destruct (Ascii.eqb c "0").
  - intros H. apply finish_number_length in H. simpl. lia.
  - destruct (JSON.is_digit c) eqn:Hd; [|discriminate].
    pose proof (span_digits_length r0) as Hl.
    cbn [JSON.span_digits]. rewrite Hd.
    destruct (JSON.span_digits r0) as [ds rest]. simpl in Hl.
    intros H. apply finish_number_length in H. simpl. lia.
Qed.

Lemma parse_number_length s j r :
  JSON.parse_number s = Some (j, r) -> (String.length r < String.length s)%nat.
Proof.
  unfold JSON.parse_number.
  assert (Hcases : (exists r0, s = String "-" r0 /\
                      (match s with String "-" r1 => (true, r1) | _ => (false, s) end)
                      = (true, r0)) \/
                   (match s with String "-" r1 => (true, r1) | _ => (false, s) end)
                   = (false, s)).
  { destruct s as [|c s']; [now right|].
    destruct c as [[] [] [] [] [] [] [] []]; try (now right).
    left. now exists s'. }
  destruct Hcases as [(r0 & Hs & Heq)|Heq]; rewrite Heq.
  - intros H. apply parse_unsigned_length in H. subst s. simpl. lia.
  - apply parse_unsigned_length.
Qed.

Lemma expect_length word : forall s r,
  JSON.expect word s = Some r -> (String.length r <= String.length s)%nat.
Proof.
  induction word as [|w word IH]; intros s r H; simpl in H.
  - injection H as <-. lia.
  - destruct s as [|c s]; [discriminate|].
    destruct (Ascii.eqb c w); [|discriminate].
    apply IH in H. simpl. lia.
Qed.


(** A parse that succeeds with some fuel consumes input, and succeeds with
    every fuel of at least twice the number of characters it consumes. *)
Lemma parse_fuel_adequate (f : nat) :
  (forall s j rest,
      JSON.parse_value f s = Some (j, rest) ->
      (String.length rest < String.length s)%nat /\
      forall f2, (2 * (String.length s - String.length rest) <= f2)%nat ->
                 JSON.parse_value f2 s = Some (j, rest)) /\
  (forall s vs rest,
      JSON.parse_elements f s = Some (vs, rest) ->
      (String.length rest < String.length s)%nat /\
      forall f2, (2 * (String.length s - String.length rest) <= f2)%nat ->
                 JSON.parse_elements f2 s = Some (vs, rest)) /\
  (forall s ms rest,
      JSON.parse_members f s = Some (ms, rest) ->
      (String.length rest < String.length s)%nat /\
      forall f2, (2 * (String.length s - String.length rest) <= f2)%nat ->
                 JSON.parse_members f2 s = Some (ms, rest)).
Proof.
  induction f as [|f (IHv & IHe & IHm)]; [repeat split; discriminate|].
  split; [|split].
  - (* values *)
    intros s j rest H.
    pose proof (skip_ws_length s) as Hws.
    cbn [JSON.parse_value] in H.
    destruct (JSON.skip_ws s) as [|c r] eqn:Hs; [discriminate|].
    simpl String.length in Hws.
    destruct (Ascii.eqb c "{") eqn:Hobj.
    { pose proof (skip_ws_length r) as Hws1.
      destruct (JSON.skip_ws r) as [|c1 r1] eqn:Hr; [discriminate|].
      simpl String.length in Hws1.
      destruct (Ascii.eqb c1 "}") eqn:Hclose.
      - injection H as <- <-. split; [lia|].
        intros f2 Hf2. destruct f2 as [|f2]; [lia|].
        cbn [JSON.parse_value]. now rewrite Hs, Hobj, Hr, Hclose.
      - destruct (JSON.parse_members f (String c1 r1)) as [[ms r2]|] eqn:Hm; [|discriminate].
        injection H as <- <-.
        destruct (IHm _ _ _ Hm) as [Hlen Hfuel]. simpl String.length in Hlen, Hfuel.
        split; [lia|].
        intros f2 Hf2. destruct f2 as [|f2]; [lia|].
        cbn [JSON.parse_value]. rewrite Hs, Hobj, Hr, Hclose, Hfuel by lia. reflexivity. }
    destruct (Ascii.eqb c "[") eqn:Harr.
    { pose proof (skip_ws_length r) as Hws1.
      destruct (JSON.skip_ws r) as [|c1 r1] eqn:Hr; [discriminate|].
      simpl String.length in Hws1.
      destruct (Ascii.eqb c1 "]") eqn:Hclose.
      - injection H as <- <-. split; [lia|].
        intros f2 Hf2. destruct f2 as [|f2]; [lia|].
        cbn [JSON.parse_value]. now rewrite Hs, Hobj, Harr, Hr, Hclose.
      - destruct (JSON.parse_elements f (String c1 r1)) as [[vs r2]|] eqn:He; [|discriminate].
        injection H as <- <-.
        destruct (IHe _ _ _ He) as [Hlen Hfuel]. simpl String.length in Hlen, Hfuel.
        split; [lia|].
        intros f2 Hf2. destruct f2 as [|f2]; [lia|].
        cbn [JSON.parse_value]. rewrite Hs, Hobj, Harr, Hr, Hclose, Hfuel by lia. reflexivity. }
    assert (Hleaf : forall f2, JSON.parse_value (S f2) s = JSON.parse_value (S f) s).
    { intros f2. cbn [JSON.parse_value]. now rewrite Hs, Hobj, Harr. }
    assert (Hlen : (String.length rest < String.length s)%nat).
    { destruct (Ascii.eqb c JSON.dquote).
      { destruct (JSON.parse_string_body r) as [[str r1]|] eqn:Hb; [|discriminate].
        injection H as _ <-.
        apply (parse_string_body_length (String.length r)) in Hb; lia. }
      destruct (Ascii.eqb c "t").
      { destruct (JSON.expect "rue" r) as [r1|] eqn:Hx; [|discriminate].
        injection H as _ <-. apply expect_length in Hx. lia. }
      destruct (Ascii.eqb c "f").
      { destruct (JSON.expect "alse" r) as [r1|] eqn:Hx; [|discriminate].
        injection H as _ <-. apply expect_length in Hx. lia. }
      destruct (Ascii.eqb c "n").
      { destruct (JSON.expect "ull" r) as [r1|] eqn:Hx; [|discriminate].
        injection H as _ <-. apply expect_length in Hx. lia. }
      apply parse_number_length in H. simpl String.length in H. lia. }
    split; [exact Hlen|].
    intros f2 Hf2. destruct f2 as [|f2]; [lia|].
    rewrite Hleaf. cbn [JSON.parse_value]. rewrite Hs, Hobj, Harr. exact H.
  - (* elements *)
    intros s vs rest H.
    cbn [JSON.parse_elements] in H.
    destruct (JSON.parse_value f s) as [[v r]|] eqn:Hv; [|discriminate].
    destruct (IHv _ _ _ Hv) as [Hlen Hfuel].
    pose proof (skip_ws_length r) as Hws.
    destruct (JSON.skip_ws r) as [|c r1] eqn:Hr; [discriminate|].
    simpl String.length in Hws.
    destruct (Ascii.eqb c ",") eqn:Hcomma.
    + destruct (JSON.parse_elements f r1) as [[vs' r2]|] eqn:He; [|discriminate].
      injection H as <- <-.
      destruct (IHe _ _ _ He) as [Hlen' Hfuel'].
      split; [lia|].
      intros f2 Hf2. destruct f2 as [|f2]; [lia|].
      cbn [JSON.parse_elements]. rewrite Hfuel by lia. rewrite Hr, Hcomma, Hfuel' by lia.
      reflexivity.
    + destruct (Ascii.eqb c "]") eqn:Hclose; [|discriminate].
      injection H as <- <-. split; [lia|].
      intros f2 Hf2. destruct f2 as [|f2]; [lia|].
      cbn [JSON.parse_elements]. rewrite Hfuel by lia. now rewrite Hr, Hcomma, Hclose.
  - (* members *)
    intros s ms rest H.
    pose proof (skip_ws_length s) as Hws.
    cbn [JSON.parse_members] in H.
    destruct (JSON.skip_ws s) as [|q r] eqn:Hs; [discriminate|].
    simpl String.length in Hws.
    destruct (Ascii.eqb q JSON.dquote) eqn:Hq; [|discriminate].
    destruct (JSON.parse_string_body r) as [[k r1]|] eqn:Hk; [|discriminate].
    pose proof (parse_string_body_length (String.length r) r k r1 (Nat.le_refl _) Hk) as Hlk.
    pose proof (skip_ws_length r1) as Hws1.
    destruct (JSON.skip_ws r1) as [|colon r2] eqn:Hr1; [discriminate|].
    simpl String.length in Hws1.
    destruct (Ascii.eqb colon ":") eqn:Hcolon; [|discriminate].
    destruct (JSON.parse_value f r2) as [[v r3]|] eqn:Hv; [|discriminate].
    destruct (IHv _ _ _ Hv) as [Hlen Hfuel].
    pose proof (skip_ws_length r3) as Hws3.
    destruct (JSON.skip_ws r3) as [|c r4] eqn:Hr3; [discriminate|].
    simpl String.length in Hws3.
    destruct (Ascii.eqb c ",") eqn:Hcomma.
    + destruct (JSON.parse_members f r4) as [[ms' r5]|] eqn:Hm; [|discriminate].
      injection H as <- <-.
      destruct (IHm _ _ _ Hm) as [Hlen' Hfuel'].
      split; [lia|].
      intros f2 Hf2. destruct f2 as [|f2]; [lia|].
      cbn [JSON.parse_members]. rewrite Hs, Hq, Hk, Hr1, Hcolon, Hfuel by lia.
      rewrite Hr3, Hcomma, Hfuel' by lia. reflexivity.
    + destruct (Ascii.eqb c "}") eqn:Hclose; [|discriminate].
      injection H as <- <-. split; [lia|].
      intros f2 Hf2. destruct f2 as [|f2]; [lia|].
      cbn [JSON.parse_members]. rewrite Hs, Hq, Hk, Hr1, Hcolon, Hfuel by lia.
      now rewrite Hr3, Hcomma, Hclose.
Qed.

(** [JSON.parse] accepts every text that the parser accepts with any fuel:
    whether a text is valid JSON does not depend on the fuel. *)
Theorem parse_fuel_independent (f : nat) (text : string) (j : JSON.Json) (rest : string) :
  JSON.parse_value f text = Some (j, rest) -> JSON.skip_ws rest = EmptyString ->
  JSON.parse text = Normal j.
Proof.
  intros H Hrest. unfold JSON.parse.
  destruct (proj1 (parse_fuel_adequate f) text j rest H) as [Hlen Hfuel].
  rewrite Hfuel by lia. now rewrite Hrest.
Qed.

Lemma valid_json_parse (text : string) :
  valid_json text <-> exists j, JSON.parse text = Normal j.
Proof.
  split.
  - intros (f & j & rest & H & Hrest). exists j.
    exact (parse_fuel_independent f text j rest H Hrest).
  - intros (j & H). unfold JSON.parse in H.
    destruct (JSON.parse_value (2 * String.length text + 2) text) as [[j' rest]|] eqn:E;
      [|discriminate].
    destruct (JSON.skip_ws rest) eqn:Hrest; [|discriminate].
    now exists (2 * String.length text + 2)%nat, j', rest.
Qed.

(** C6, as the code has it.  [parsePaymentHeader] never lets an exception
    of [JSON.parse] escape: for every input it returns the parsed value when
    the text that the lenient base64 decoder gives is valid JSON, and throws
    an [Error] with the message [Invalid payment header format] otherwise;
    this is the only error it throws.  Base64 that is not well formed is not
    rejected as such. *)
Theorem parsePaymentHeader_throws_one_error :
  forall base64Header : string,
    (valid_json (header_text base64Header) ->
     exists j, Core.parsePaymentHeader base64Header = Normal j /\
               JSON.parse (header_text base64Header) = Normal j) /\
    (~ valid_json (header_text base64Header) ->
     Core.parsePaymentHeader base64Header = Throw (Error "Invalid payment header format")) /\
    (forall e, Core.parsePaymentHeader base64Header = Throw e ->
               e = Error "Invalid payment header format" /\
               ~ valid_json (header_text base64Header)).
Proof.
  intros base64Header.
  pose proof (valid_json_parse (header_text base64Header)) as Hvalid.
  unfold Core.parsePaymentHeader.
  change (Buffer.toString_utf8 (Buffer.from_base64 base64Header))
    with (header_text base64Header).
  destruct (JSON.parse (header_text base64Header)) as [j|e0].
  - split; [intros _; now exists j|].
    split; [intros Hinvalid; exfalso; apply Hinvalid, Hvalid; now exists j|].
    intros e H. discriminate.
  - assert (Hinvalid : ~ valid_json (header_text base64Header)).
    { intros H. apply Hvalid in H. destruct H as [j H]. discriminate. }
    split; [intros H; contradiction|]. split; [reflexivity|].
    intros e H. injection H as <-. split; [reflexivity|exact Hinvalid].
Qed.

Lemma parsePaymentHeader_throws_one_error_witness :
  ~ valid_json (header_text "bm90IGpzb24=") /\
  Core.parsePaymentHeader "bm90IGpzb24=" = Throw (Error "Invalid payment header format").
Proof.
  assert (H : ~ valid_json (header_text "bm90IGpzb24=")).
  { intros H. apply valid_json_parse in H. destruct H as [j H]. vm_compute in H. discriminate. }
  split; [exact H|].
  exact (proj1 (proj2 (parsePaymentHeader_throws_one_error "bm90IGpzb24=")) H).
Defined.

(** C6, as stated, fails: a header with a character outside the base64
    alphabet is not valid base64, and it is decoded without any error. *)
Lemma invalid_base64_header_is_accepted :
  valid_base64 "e3*0=" = false /\
  Core.parsePaymentHeader "e3*0=" = Normal (JSON.JObject []) /\
  Signing.decodePaymentHeader "e3*0=" = Normal (JSON.JObject []).
Proof. repeat split. Qed.

(** [decodePaymentHeader] has no [try]: the [SyntaxError] of [JSON.parse]
    reaches its caller. *)
Example decodePaymentHeader_lets_SyntaxError_escape :
  Signing.decodePaymentHeader "bm90IGpzb24=" = Throw JSON.SyntaxError /\
  Signing.decodePaymentHeader "" = Throw JSON.SyntaxError.
Proof. split; reflexivity. Qed.

(* ========================================================================= *)
(** * Further properties: utilities, ledger, server and client            *)
(* ========================================================================= *)

Import RetrySpec TransportSpec ServerSpec CallerSpec.

(** ** Addresses, hashes and nonces *)

Lemma hex_run_length n : forall s, Utils.hex_run n s = true -> String.length s = n.
Proof.
  induction n as [|n IH]; intros [|c r]; simpl; try discriminate; [reflexivity|].
  intros H. apply andb_true_iff in H. f_equal. now apply IH.
Qed.

Lemma isValidAddress_shape a :
  Utils.isValidAddress a = true ->
  exists r, a = String "0" (String "x" r) /\ Utils.hex_run 40 r = true.
Proof.
  unfold Utils.isValidAddress.
  destruct a as [|c0 [|c1 r]]; try discriminate.
  - destruct c0 as [[] [] [] [] [] [] [] []]; discriminate.
  - destruct c0 as [[] [] [] [] [] [] [] []]; try discriminate.
    destruct c1 as [[] [] [] [] [] [] [] []]; try discriminate.
    intros H. now exists r.
Qed.

Lemma isValidAddress_length a : Utils.isValidAddress a = true -> String.length a = 42%nat.
Proof.
  intros H. destruct (isValidAddress_shape a H) as (r & -> & Hr).
  simpl. now rewrite (hex_run_length _ _ Hr).
Qed.

Lemma length_substring (s : string) : forall n m,
  (n + m <= String.length s)%nat -> String.length (String.substring n m s) = m.
Proof.
  induction s as [|c s IH]; intros n m H; simpl in H.
  - assert (n = O) by lia. assert (m = O) by lia. subst. reflexivity.
  - destruct n as [|n]; simpl.
    + destruct m as [|m]; [reflexivity|]. simpl. f_equal. apply IH. simpl. lia.
    + apply IH. lia.
Qed.

Lemma substring_all (s : string) : String.substring 0 (String.length s) s = s.
Proof. induction s as [|c s IH]; simpl; [reflexivity|now rewrite IH]. Qed.

(** The two characters that [generateNonce] writes for a byte. *)
Lemma byte_text (b : ascii) :
  Utils.padStart2 (Utils.toString16 (code b)) =
    String (JSON.hex_digit (code b / 16)) (String (JSON.hex_digit (code b mod 16)) "").
Proof. destruct b as [[] [] [] [] [] [] [] []]; reflexivity. Qed.

Lemma hex_digit_is_hex (n : Z) : 0 <= n < 16 -> Utils.is_hex (JSON.hex_digit n) = true.
Proof.
  intros H. rewrite <- (Z2Nat.id n) by lia.
  assert (Hk : (Z.to_nat n < 16)%nat) by lia.
  revert Hk. generalize (Z.to_nat n). clear H. intros k Hk.
  do 16 (destruct k as [|k]; [reflexivity|]). lia.
Qed.

Lemma hex_digit_inj (n m : Z) :
  0 <= n < 16 -> 0 <= m < 16 -> JSON.hex_digit n = JSON.hex_digit m -> n = m.
Proof.
  intros Hn Hm H.
  assert (E : forall k, 0 <= k < 16 -> code (JSON.hex_digit k) = if k <? 10 then 48 + k else 87 + k).
  { intros k Hk. rewrite <- (Z2Nat.id k) by lia.
    assert (Hj : (Z.to_nat k < 16)%nat) by lia.
    revert Hj. generalize (Z.to_nat k). clear Hk. intros j Hj.
    do 16 (destruct j as [|j]; [reflexivity|]). lia. }
  apply (f_equal code) in H. rewrite (E n Hn), (E m Hm) in H.
  destruct (n <? 10) eqn:E1, (m <? 10) eqn:E2;
    try apply Z.ltb_lt in E1; try apply Z.ltb_ge in E1;
    try apply Z.ltb_lt in E2; try apply Z.ltb_ge in E2; lia.
Qed.

Lemma nonce_digits_hex (bytes : list ascii) :
  Utils.hex_run (2 * List.length bytes)
    (String.concat "" (map (fun b => Utils.padStart2 (Utils.toString16 (code b))) bytes)) = true.
Proof.
  induction bytes as [|b bytes IH]; [reflexivity|].
  pose proof (code_range b) as Hb.
  destruct bytes as [|b' bytes].
  - simpl String.concat. rewrite byte_text. simpl.
    rewrite !hex_digit_is_hex; [reflexivity| |].
    + apply Z.mod_pos_bound. lia.
    + split; [apply Z.div_pos; lia|apply Z.div_lt_upper_bound; lia].
  - cbn [map]. rewrite concat_cons by discriminate.
    cbn [map] in IH. rewrite byte_text.
    replace (2 * List.length (b :: b' :: bytes))%nat
      with (S (S (2 * List.length (b' :: bytes)))) by (simpl; lia).
    cbn [append Utils.hex_run]. rewrite IH, !hex_digit_is_hex; [reflexivity| |].
    + apply Z.mod_pos_bound. lia.
    + split; [apply Z.div_pos; lia|apply Z.div_lt_upper_bound; lia].
Qed.

Lemma byte_text_inj (a b : ascii) (r s : string) :
  Utils.padStart2 (Utils.toString16 (code a)) ++ r =
    Utils.padStart2 (Utils.toString16 (code b)) ++ s ->
  a = b /\ r = s.
Proof.
  rewrite !byte_text. cbn [append]. intros H. injection H as H1 H2 H3.
  pose proof (code_range a) as Ha. pose proof (code_range b) as Hb.
  apply hex_digit_inj in H1;
    [|split; [apply Z.div_pos; lia|apply Z.div_lt_upper_bound; lia]
     |split; [apply Z.div_pos; lia|apply Z.div_lt_upper_bound; lia]].
  apply hex_digit_inj in H2; [|apply Z.mod_pos_bound; lia|apply Z.mod_pos_bound; lia].
  split; [|exact H3].
  rewrite <- (byte_code a), <- (byte_code b). f_equal.
  rewrite (Z.div_mod (code a) 16), (Z.div_mod (code b) 16) by lia. now rewrite H1, H2.
Qed.

Lemma nonce_text_inj (xs : list ascii) : forall ys,
  String.concat "" (map (fun b => Utils.padStart2 (Utils.toString16 (code b))) xs) =
    String.concat "" (map (fun b => Utils.padStart2 (Utils.toString16 (code b))) ys) ->
  xs = ys.
Proof.
  assert (Hstep : forall b l,
            String.concat "" (map (fun b => Utils.padStart2 (Utils.toString16 (code b))) (b :: l)) =
              Utils.padStart2 (Utils.toString16 (code b)) ++
                String.concat "" (map (fun b => Utils.padStart2 (Utils.toString16 (code b))) l)).
  { intros b [|b' l]; cbn [map].
    - simpl String.concat. now rewrite append_empty_r.
    - now rewrite concat_cons by discriminate. }
  induction xs as [|x xs IH]; intros [|y ys] H.
  - reflexivity.
  - rewrite Hstep, byte_text in H. discriminate.
  - rewrite Hstep, byte_text in H. discriminate.
  - rewrite !Hstep in H. apply byte_text_inj in H. destruct H as [-> H].
    f_equal. now apply IH.
Qed.

(** X1. Whatever thirty-two bytes the random source gives, [generateNonce]
    returns [0x] followed by sixty-four hexadecimal digits, which
    [isValidTxHash] accepts as a 32-byte value and [isValidAddress] does not
    take for an address; two different byte arrays never give the same
    nonce. *)
Theorem generateNonce_is_bytes32 :
  forall bytes : list ascii,
    List.length bytes = 32%nat ->
    Utils.isValidTxHash (Utils.generateNonce bytes) = true /\
    String.length (Utils.generateNonce bytes) = 66%nat /\
    Utils.isValidAddress (Utils.generateNonce bytes) = false /\
    (forall others : list ascii,
        Utils.generateNonce others = Utils.generateNonce bytes -> others = bytes).
Proof.
  intros bytes Hlen.
  pose proof (nonce_digits_hex bytes) as Hhex. rewrite Hlen in Hhex.
  assert (Hvalid : Utils.isValidTxHash (Utils.generateNonce bytes) = true) by exact Hhex.
  assert (Hsize : String.length (Utils.generateNonce bytes) = 66%nat).
  { unfold Utils.generateNonce. cbn [append String.length].
    now rewrite (hex_run_length _ _ Hhex). }
  split; [exact Hvalid|]. split; [exact Hsize|]. split.
  - destruct (Utils.isValidAddress (Utils.generateNonce bytes)) eqn:E; [|reflexivity].
    apply isValidAddress_length in E. lia.
  - intros others H. unfold Utils.generateNonce in H. cbn [append] in H.
    injection H as H. now apply nonce_text_inj.
Qed.

Lemma generateNonce_is_bytes32_witness :
  Utils.isValidTxHash (Utils.generateNonce (repeat (Buffer.byte 171) 32)) = true.
Proof.
  exact (proj1 (generateNonce_is_bytes32 (repeat (Buffer.byte 171) 32) eq_refl)).
Defined.

(** X2. [shortenAddress] leaves a text that is not an address as it is.  Of
    an address it keeps [0x], the first [chars] digits and the last [chars]
    digits around three dots, [2 * chars + 5] characters in all, for
    [1 <= chars <= 40]; with [chars = 0] the second [slice] starts at index
    0, and the whole address follows the dots. *)
Theorem shortenAddress_shape :
  forall (address : string) (chars : Z),
    (Utils.isValidAddress address = false -> Utils.shortenAddress address chars = address) /\
    (Utils.isValidAddress address = true ->
     (1 <= chars <= 40 ->
      Utils.shortenAddress address chars =
        String.substring 0 (Z.to_nat (chars + 2)) address ++ "..." ++
        String.substring (Z.to_nat (42 - chars)) (Z.to_nat chars) address /\
      Z.of_nat (String.length (Utils.shortenAddress address chars)) = 2 * chars + 5) /\
     (chars = 0 -> Utils.shortenAddress address chars = "0x..." ++ address)).
Proof.
  intros address chars. split.
  - intros H. unfold Utils.shortenAddress. now rewrite H.
  - intros Hvalid. pose proof (isValidAddress_length _ Hvalid) as Hlen.
    unfold Utils.shortenAddress, Utils.slice, Utils.clamp. rewrite Hvalid, Hlen. cbn [negb].
    change (Z.of_nat 42) with 42. split.
    + intros Hc.
      assert (E1 : (0 <? 0) = false) by reflexivity.
      assert (E2 : (chars + 2 <? 0) = false) by (apply Z.ltb_ge; lia).
      assert (E3 : (- chars <? 0) = true) by (apply Z.ltb_lt; lia).
      rewrite E1, E2, E3.
      rewrite (Z.min_l 0 42), (Z.min_l (chars + 2) 42), (Z.max_l (42 + - chars) 0) by lia.
      replace (chars + 2 - 0) with (chars + 2) by lia.
      replace (42 + - chars) with (42 - chars) by lia.
      replace (42 - (42 - chars)) with chars by lia.
      change (Z.to_nat 0) with O.
      split; [reflexivity|].
      rewrite !length_append_string, !length_substring by (rewrite Hlen; lia).
      simpl String.length. lia.
    + intros ->.
      destruct (isValidAddress_shape address Hvalid) as (r & -> & Hr).
      pose proof (hex_run_length _ _ Hr) as Hr'.
      change (substring 0 (S (S O)) (String "0" (String "x" r)) ++ "..." ++
              substring 0 (S (S 40)) (String "0" (String "x" r)) =
              "0x..." ++ String "0" (String "x" r)).
      cbn [String.substring]. rewrite <- Hr', substring_all.
      now destruct r.
Qed.

Lemma shortenAddress_shape_witness :
  Utils.shortenAddress "0xc01efAaF7C5C61bEbFAeb358E1161b537b8bC0e0" 4 = "0xc01e...C0e0" /\
  Utils.shortenAddress "0xc01efAaF7C5C61bEbFAeb358E1161b537b8bC0e0" 0 =
    "0x...0xc01efAaF7C5C61bEbFAeb358E1161b537b8bC0e0" /\
  Utils.shortenAddress "cronos" 4 = "cronos".
Proof.
  destruct (shortenAddress_shape "0xc01efAaF7C5C61bEbFAeb358E1161b537b8bC0e0" 4) as (_ & H).
  destruct (H eq_refl) as (H4 & _).
  destruct (shortenAddress_shape "0xc01efAaF7C5C61bEbFAeb358E1161b537b8bC0e0" 0) as (_ & H').
  destruct (H' eq_refl) as (_ & H0).
  split; [rewrite (proj1 (H4 ltac:(lia))); reflexivity|].
  split; [exact (H0 eq_refl)|].
  exact (proj1 (shortenAddress_shape "cronos" 4) eq_refl).
Defined.

(** ** Recovery of the retry loops *)

Lemma failed_log_sleeps_before_last url header retries delay k : forall i,
  (i + k < retries)%nat ->
  sleeps (failed_log url header retries delay k i) =
    map (fun j => delay * (Z.of_nat j + 1)) (seq i k).
Proof.
  induction k as [|k IH]; intros i Hik; simpl; [reflexivity|].
  rewrite sleeps_app, (IH (S i)) by lia.
  destruct (Z.of_nat i <? Z.of_nat retries - 1) eqn:E; [reflexivity|].
  apply Z.ltb_ge in E. lia.
Qed.

Lemma linear_waits_seq delay k :
  map (fun j => delay * (Z.of_nat j + 1)) (seq 0 k) = linear_waits delay k.
Proof. reflexivity. Qed.

(** The attempt that a retried script returns from is the first one that
    does not throw. *)
Lemma first_success_unique {T} (net : nat -> Completion T) (first k k' : nat) (a a' : T) :
  (forall j, (j < k)%nat -> is_throw (net (first + j)%nat)) ->
  net (first + k)%nat = Normal a ->
  (forall j, (j < k')%nat -> is_throw (net (first + j)%nat)) ->
  net (first + k')%nat = Normal a' ->
  k' = k /\ a' = a.
Proof.
  intros Hf Hk Hf' Hk'.
  assert (k' = k).
  { destruct (Nat.lt_trichotomy k' k) as [H|[H|H]]; [|exact H|].
    - exfalso. exact (is_throw_not_normal _ a' (Hf k' H) Hk').
    - exfalso. exact (is_throw_not_normal _ a (Hf' k H) Hk). }
  subst k'. split; [reflexivity|]. congruence.
Qed.

Lemma verify_recovery this header reqs w k a :
  (k < Facilitator.retries this)%nat ->
  (forall j, (j < k)%nat -> is_throw (verify_script w (fetches w + j)%nat)) ->
  verify_script w (fetches w + k)%nat = Normal a ->
  exists w',
    Facilitator.verify this header reqs w = (Normal a, w') /\
    same_heap w w' /\
    fetches w' = (fetches w + S k)%nat /\
    log w' = (log w ++ failed_log (verify_url this) header (Facilitator.retries this) 1000 k 0
                ++ [Fetched (verify_url this) header])%list.
Proof.
  intros Hk Hfail Hok.
  destruct (verify_cases this header reqs w) as (r & w' & Hrun & Hheap & Hcases).
  exists w'.
  destruct Hcases as [(k' & a' & Hk' & Hfail' & Hok' & Hr & Hfet & Hlog)|(Hall & _)].
  - destruct (first_success_unique _ _ k k' a a' Hfail Hok Hfail' Hok') as [-> ->].
    subst r. repeat split; try assumption; apply Hheap.
  - exfalso. exact (is_throw_not_normal _ a (Hall k Hk) Hok).
Qed.

Lemma settle_recovery this header reqs w k a :
  (k < Facilitator.retries this)%nat ->
  (forall j, (j < k)%nat -> is_throw (settle_script w (fetches w + j)%nat)) ->
  settle_script w (fetches w + k)%nat = Normal a ->
  exists w',
    Facilitator.settle this header reqs w = (Normal a, w') /\
    same_heap w w' /\
    fetches w' = (fetches w + S k)%nat /\
    log w' = (log w ++ failed_log (settle_url this) header (Facilitator.retries this) 1000 k 0
                ++ [Fetched (settle_url this) header])%list.
Proof.
  intros Hk Hfail Hok.
  destruct (settle_cases this header reqs w) as (r & w' & Hrun & Hheap & Hcases).
  exists w'.
  destruct Hcases as [(k' & a' & Hk' & Hfail' & Hok' & Hr & Hfet & Hlog)|(Hall & _)].
  - destruct (first_success_unique _ _ k k' a a' Hfail Hok Hfail' Hok') as [-> ->].
    subst r. repeat split; try assumption; apply Hheap.
  - exfalso. exact (is_throw_not_normal _ a (Hall k Hk) Hok).
Qed.

(** X3. A facilitator call gets over transient faults: when the first [k]
    attempts fail at the transport level and attempt [k + 1], still within
    the configured retries, is answered with a 2xx status and a JSON body,
    the call returns that body after exactly [k + 1] requests, having
    waited 1000, 2000, ..., [1000 * k] milliseconds, and nothing after the
    answer. *)
Theorem facilitator_call_recovers :
  forall (this : Facilitator.FacilitatorClient) (header : string)
         (reqs : Core.PaymentRequirements) (w : World) (k : nat),
    (k < Facilitator.retries this)%nat ->
    (forall status text response,
        (forall j, (j < k)%nat -> transport_failure (verify_net w (fetches w + j)%nat)) ->
        verify_net w (fetches w + k)%nat = FetchResponds status text (Some response) ->
        response_ok status = true ->
        exists w',
          Facilitator.verify this header reqs w = (Normal response, w') /\
          requests_to (verify_url this) (log w') =
            (requests_to (verify_url this) (log w) + S k)%nat /\
          sleeps (log w') = (sleeps (log w) ++ linear_waits 1000 k)%list) /\
    (forall status text data,
        (forall j, (j < k)%nat -> transport_failure (settle_net w (fetches w + j)%nat)) ->
        settle_net w (fetches w + k)%nat = FetchResponds status text (Some data) ->
        response_ok status = true ->
        exists w',
          Facilitator.settle this header reqs w = (Normal (Facilitator.map_settle data), w') /\
          requests_to (settle_url this) (log w') =
            (requests_to (settle_url this) (log w) + S k)%nat /\
          sleeps (log w') = (sleeps (log w) ++ linear_waits 1000 k)%list).
Proof.
  intros this header reqs w k Hk. split.
  - intros status text response Hfail Hnet Hok.
    destruct (verify_recovery this header reqs w k response Hk) as (w' & Hrun & _ & _ & Hlog).
    + intros j Hj. apply transport_failure_verify, Hfail, Hj.
    + unfold verify_script, Facilitator.verify_result. now rewrite Hnet, Hok.
    + exists w'. split; [exact Hrun|]. rewrite Hlog. split.
      * rewrite !requests_to_app, failed_log_requests. simpl. rewrite String.eqb_refl. lia.
      * rewrite !sleeps_app, failed_log_sleeps_before_last by lia.
        simpl. now rewrite List.app_nil_r.
  - intros status text data Hfail Hnet Hok.
    destruct (settle_recovery this header reqs w k (Facilitator.map_settle data) Hk)
      as (w' & Hrun & _ & _ & Hlog).
    + intros j Hj. apply transport_failure_settle, Hfail, Hj.
    + unfold settle_script, Facilitator.settle_result. now rewrite Hnet, Hok.
    + exists w'. split; [exact Hrun|]. rewrite Hlog. split.
      * rewrite !requests_to_app, failed_log_requests. simpl. rewrite String.eqb_refl. lia.
      * rewrite !sleeps_app, failed_log_sleeps_before_last by lia.
        simpl. now rewrite List.app_nil_r.
Qed.

Lemma facilitator_call_recovers_witness :
  exists w',
    Facilitator.verify sample_client "header" sample_requirements
      (idle (recovering_verify 2) settling) =
      (Normal (mkVerifyResponse true None (Some "0x2222222222222222222222222222222222222222")),
       w') /\
    requests_to (verify_url sample_client) (log w') = 3%nat /\
    sleeps (log w') = [1000; 2000].
Proof.
  destruct (proj1 (facilitator_call_recovers sample_client "header" sample_requirements
                     (idle (recovering_verify 2) settling) 2 ltac:(simpl; lia))
              200 "verify body"
              (mkVerifyResponse true None (Some "0x2222222222222222222222222222222222222222")))
    as (w' & Hrun & Hreq & Hsleeps).
  - intros j Hj. simpl. unfold recovering_verify.
    destruct j as [|[|j]]; [reflexivity|reflexivity|lia].
  - reflexivity.
  - reflexivity.
  - exists w'. split; [exact Hrun|]. split; [exact Hreq|exact Hsleeps].
Defined.

(** X4. An answer with a 2xx status whose text is not JSON is handled like
    a transport fault: the call asks again, [N] times in all with the usual
    waits, and then throws the [SyntaxError] of [JSON.parse]. *)
Theorem unreadable_answer_is_retried :
  forall (this : Facilitator.FacilitatorClient) (header : string)
         (reqs : Core.PaymentRequirements) (w : World),
    let N := Facilitator.retries this in
    (1 <= N)%nat ->
    ((forall j, (j < N)%nat ->
        exists status text,
          verify_net w (fetches w + j)%nat = FetchResponds status text None /\
          response_ok status = true) ->
     exists w',
       Facilitator.verify this header reqs w = (Throw JSON.SyntaxError, w') /\
       requests_to (verify_url this) (log w') =
         (requests_to (verify_url this) (log w) + N)%nat /\
       sleeps (log w') = (sleeps (log w) ++ linear_waits 1000 (N - 1))%list) /\
    ((forall j, (j < N)%nat ->
        exists status text,
          settle_net w (fetches w + j)%nat = FetchResponds status text None /\
          response_ok status = true) ->
     exists w',
       Facilitator.settle this header reqs w = (Throw JSON.SyntaxError, w') /\
       requests_to (settle_url this) (log w') =
         (requests_to (settle_url this) (log w) + N)%nat /\
       sleeps (log w') = (sleeps (log w) ++ linear_waits 1000 (N - 1))%list).
Proof.
  intros this header reqs w N HN. split.
  - intros Hbad.
    assert (Hscript : forall j, (j < N)%nat ->
              verify_script w (fetches w + j)%nat = Throw JSON.SyntaxError).
    { intros j Hj. destruct (Hbad j Hj) as (status & text & Hnet & Hok).
      unfold verify_script, Facilitator.verify_result. now rewrite Hnet, Hok. }
    destruct (verify_cases this header reqs w) as (r & w' & Hrun & _ & Hcases).
    exists w'. fold N in Hcases.
    destruct Hcases as [(k & a & Hk & _ & Hok & _)|(_ & Hr & _ & Hlog)].
    + rewrite (Hscript k Hk) in Hok. discriminate.
    + rewrite Hrun, Hr, Hlog. split.
      * f_equal. destruct N as [|n]; [lia|]. simpl.
        now rewrite (Hscript n ltac:(lia)).
      * split; [now rewrite requests_to_app, failed_log_requests|].
        now rewrite sleeps_app, failed_log_sleeps by reflexivity.
  - intros Hbad.
    assert (Hscript : forall j, (j < N)%nat ->
              settle_script w (fetches w + j)%nat = Throw JSON.SyntaxError).
    { intros j Hj. destruct (Hbad j Hj) as (status & text & Hnet & Hok).
      unfold settle_script, Facilitator.settle_result. now rewrite Hnet, Hok. }
    destruct (settle_cases this header reqs w) as (r & w' & Hrun & _ & Hcases).
    exists w'. fold N in Hcases.
    destruct Hcases as [(k & a & Hk & _ & Hok & _)|(_ & Hr & _ & Hlog)].
    + rewrite (Hscript k Hk) in Hok. discriminate.
    + rewrite Hrun, Hr, Hlog. split.
      * f_equal. destruct N as [|n]; [lia|]. simpl.
        now rewrite (Hscript n ltac:(lia)).
      * split; [now rewrite requests_to_app, failed_log_requests|].
        now rewrite sleeps_app, failed_log_sleeps by reflexivity.
Qed.

Lemma unreadable_answer_is_retried_witness :
  exists w',
    Facilitator.verify sample_client "header" sample_requirements
      (idle html_answers html_answers) = (Throw JSON.SyntaxError, w') /\
    requests_to (verify_url sample_client) (log w') = 3%nat /\
    sleeps (log w') = [1000; 2000].
Proof.
  destruct (proj1 (unreadable_answer_is_retried sample_client "header" sample_requirements
                     (idle html_answers html_answers) ltac:(simpl; lia)))
    as (w' & Hrun & Hreq & Hsleeps).
  - intros j _. exists 200, "<html>ok</html>". split; reflexivity.
  - exists w'. split; [exact Hrun|]. split; [exact Hreq|exact Hsleeps].
Defined.

Lemma strip_trailing_slash_app (u : string) :
  Facilitator.strip_trailing_slash (u ++ "/") = u.
Proof.
  induction u as [|c u IH]; [reflexivity|].
  cbn [append]. destruct (u ++ "/") as [|c' r] eqn:E.
  - destruct u; discriminate.
  - change (String c (Facilitator.strip_trailing_slash (String c' r)) = String c u).
    now rewrite IH.
Qed.

Lemma strip_trailing_slash_none (u : string) :
  ends_with_slash u = false -> Facilitator.strip_trailing_slash u = u.
Proof.
  induction u as [|c u IH]; [reflexivity|].
  destruct u as [|c' r].
  - simpl. now intros ->.
  - intros H.
    change (String c (Facilitator.strip_trailing_slash (String c' r)) = String c (String c' r)).
    f_equal. apply IH. exact H.
Qed.

(** X5. The constructor of the facilitator client removes one slash from
    the end of the base URL and no more: a URL given with a final slash and
    the same URL given without it lead to the same [/verify] and [/settle]
    addresses, and of two final slashes one stays. *)
Theorem base_url_loses_one_final_slash :
  forall (u : string) (timeout : option Z) (retries : option nat),
    Facilitator.baseUrl (Facilitator.new (Some (u ++ "/")) timeout retries) = u /\
    verify_url (Facilitator.new (Some (u ++ "/")) timeout retries) = u ++ "/verify" /\
    settle_url (Facilitator.new (Some (u ++ "/")) timeout retries) = u ++ "/settle" /\
    (ends_with_slash u = false ->
     Facilitator.baseUrl (Facilitator.new (Some u) timeout retries) = u /\
     verify_url (Facilitator.new (Some u) timeout retries) =
       verify_url (Facilitator.new (Some (u ++ "/")) timeout retries) /\
     settle_url (Facilitator.new (Some u) timeout retries) =
       settle_url (Facilitator.new (Some (u ++ "/")) timeout retries)).
Proof.
  intros u timeout retries.
  unfold verify_url, settle_url, Facilitator.new. cbn [Facilitator.baseUrl].
  rewrite strip_trailing_slash_app. repeat split.
  - now apply strip_trailing_slash_none.
  - now rewrite strip_trailing_slash_none.
  - now rewrite strip_trailing_slash_none.
Qed.

Lemma base_url_loses_one_final_slash_witness :
  verify_url (Facilitator.new (Some "http://localhost:8080/x402/") None None) =
    "http://localhost:8080/x402/verify" /\
  verify_url (Facilitator.new (Some "http://localhost:8080/x402") None None) =
    verify_url (Facilitator.new (Some "http://localhost:8080/x402/") None None) /\
  Facilitator.baseUrl (Facilitator.new (Some "http://localhost:8080//") None None) =
    "http://localhost:8080/".
Proof.
  pose proof (base_url_loses_one_final_slash "http://localhost:8080/x402" None None)
    as (_ & Hv & _ & H).
  split; [exact Hv|]. split; [exact (proj1 (proj2 (H eq_refl)))|].
  exact (proj1 (base_url_loses_one_final_slash "http://localhost:8080/" None None)).
Defined.

(** ** The retry of the core utilities, attempt by attempt *)

Section CoreRetryLoop.

Context {T : Type}.
Variable net : nat -> Completion T.
Variables url header : string.
Variable maxRetries : nat.
Variable baseDelay : Z.

Let fn : M World T := attempt (fun _ => net) url header.

Lemma core_retry_step remaining i lastError w e :
  net (fetches w) = Throw e ->
  exists w1,
    Core.retry_from fn maxRetries baseDelay (S remaining) i lastError w =
      Core.retry_from fn maxRetries baseDelay remaining (S i) (Some e) w1 /\
    fetches w1 = S (fetches w) /\
    sleeps (log w1) =
      (sleeps (log w) ++ (if Z.of_nat i <? Z.of_nat maxRetries - 1
                          then [baseDelay * 2 ^ Z.of_nat i] else []))%list.
Proof.
  intros He. simpl Core.retry_from. unfold try_catch, fn, attempt at 1. rewrite He.
  unfold bind, Core.as_Error.
  destruct (Z.of_nat i <? Z.of_nat maxRetries - 1).
  - unfold sleep. cbv beta iota. eexists. split; [reflexivity|].
    split; [reflexivity|]. simpl log. rewrite !sleeps_app. simpl.
    now rewrite List.app_nil_r.
  - unfold ret. cbv beta iota. eexists. split; [reflexivity|].
    split; [reflexivity|]. simpl log. rewrite sleeps_app. simpl. reflexivity.
Qed.

Lemma core_retry_from_fails remaining : forall i lastError w,
  (forall j, (j < remaining)%nat -> is_throw (net (fetches w + j)%nat)) ->
  exists w',
    Core.retry_from fn maxRetries baseDelay remaining i lastError w =
      (Throw (core_final_error net (fetches w) remaining lastError), w') /\
    fetches w' = (fetches w + remaining)%nat.
Proof.
  induction remaining as [|remaining IH]; intros i lastError w Hfail.
  - exists w. split; [simpl; destruct lastError; reflexivity|lia].
  - destruct (Hfail O ltac:(lia)) as [e He]. rewrite Nat.add_0_r in He.
    destruct (core_retry_step remaining i lastError w e He) as (w1 & -> & Hf1 & _).
    destruct (IH (S i) (Some e) w1) as (w' & Hrun & Hf').
    + intros j Hj. rewrite Hf1.
      replace (S (fetches w) + j)%nat with (fetches w + S j)%nat by lia.
      apply Hfail. lia.
    + exists w'. rewrite Hrun, Hf1. split; [|lia].
      f_equal. destruct remaining as [|r]; simpl.
      * now rewrite Nat.add_0_r, He.
      * do 3 f_equal. lia.
Qed.

Lemma core_retry_from_recovers k : forall remaining i lastError w a,
  (k < remaining)%nat -> (i + remaining <= maxRetries)%nat ->
  (forall j, (j < k)%nat -> is_throw (net (fetches w + j)%nat)) ->
  net (fetches w + k)%nat = Normal a ->
  exists w',
    Core.retry_from fn maxRetries baseDelay remaining i lastError w = (Normal a, w') /\
    fetches w' = (fetches w + S k)%nat /\
    sleeps (log w') =
      (sleeps (log w) ++ map (fun j => baseDelay * 2 ^ Z.of_nat j) (seq i k))%list.
Proof.
  induction k as [|k IH]; intros remaining i lastError w a Hk Hi Hfail Hok.
  - destruct remaining as [|remaining]; [lia|].
    rewrite Nat.add_0_r in Hok.
    exists (with_fetch w url header).
    simpl Core.retry_from. unfold try_catch, fn, attempt at 1. rewrite Hok.
    split; [reflexivity|]. split; [simpl; lia|].
    simpl. rewrite sleeps_app. simpl. reflexivity.
  - destruct remaining as [|remaining]; [lia|].
    destruct (Hfail O ltac:(lia)) as [e He]. rewrite Nat.add_0_r in He.
    destruct (core_retry_step remaining i lastError w e He) as (w1 & -> & Hf1 & Hs1).
    destruct (IH remaining (S i) (Some e) w1 a) as (w' & Hrun & Hf' & Hs').
    + lia.
    + lia.
    + intros j Hj. rewrite Hf1.
      replace (S (fetches w) + j)%nat with (fetches w + S j)%nat by lia.
      apply Hfail. lia.
    + rewrite Hf1. replace (S (fetches w) + k)%nat with (fetches w + S k)%nat by lia.
      exact Hok.
    + exists w'. split; [exact Hrun|]. split; [lia|].
      rewrite Hs', Hs1.
      assert (E : (Z.of_nat i <? Z.of_nat maxRetries - 1) = true) by (apply Z.ltb_lt; lia).
      rewrite E, <- List.app_assoc. reflexivity.
Qed.

End CoreRetryLoop.

(** X6. The [retry] of the core utilities calls the function until it
    returns: after [k] calls that throw, each followed by a wait of
    [baseDelay * 2 ^ attempt], the value of call [k + 1] is returned with no
    further wait.  When all [maxRetries] calls throw, the value thrown by
    the last call is thrown as it is (it is not wrapped into an [Error]);
    with [maxRetries = 0] the function is never called and [undefined] is
    thrown. *)
Theorem core_retry_first_success_or_last_error :
  forall (T : Type) (net : nat -> Completion T) (url header : string)
         (maxRetries : nat) (baseDelay : Z) (w : World),
    let fn := attempt (fun _ => net) url header in
    (forall k a,
        (k < maxRetries)%nat ->
        (forall j, (j < k)%nat -> is_throw (net (fetches w + j)%nat)) ->
        net (fetches w + k)%nat = Normal a ->
        exists w',
          Core.retry fn maxRetries baseDelay w = (Normal a, w') /\
          fetches w' = (fetches w + S k)%nat /\
          sleeps (log w') = (sleeps (log w) ++ exponential_waits baseDelay k)%list) /\
    ((forall j, (j < maxRetries)%nat -> is_throw (net (fetches w + j)%nat)) ->
     exists w',
       Core.retry fn maxRetries baseDelay w =
         (Throw (core_final_error net (fetches w) maxRetries None), w') /\
       fetches w' = (fetches w + maxRetries)%nat) /\
    (maxRetries = O -> Core.retry fn maxRetries baseDelay w = (Throw undefined_thrown, w)).
Proof.
  intros T net url header maxRetries baseDelay w fn. split; [|split].
  - intros k a Hk Hfail Hok.
    exact (core_retry_from_recovers net url header maxRetries baseDelay k maxRetries 0%nat None
             w a Hk ltac:(lia) Hfail Hok).
  - intros Hfail.
    exact (core_retry_from_fails net url header maxRetries baseDelay maxRetries 0%nat None w
             Hfail).
  - intros ->. reflexivity.
Qed.

Lemma core_retry_first_success_or_last_error_witness :
  exists w',
    Core.retry (attempt (fun _ n => if (n <? 2)%nat then Throw (NonError "busy") else Normal n)
                  "http://localhost:3001/info" "") 5 100 (idle accepting_verify settling) =
      (Normal 2%nat, w') /\
    fetches w' = 3%nat /\ sleeps (log w') = [100; 200].
Proof.
  destruct (proj1 (core_retry_first_success_or_last_error nat
                     (fun n => if (n <? 2)%nat then Throw (NonError "busy") else Normal n)
                     "http://localhost:3001/info" "" 5 100 (idle accepting_verify settling))
              2%nat 2%nat ltac:(lia)) as (w' & Hrun & Hf & Hs).
  - intros j Hj. destruct j as [|[|j]]; [eexists; reflexivity|eexists; reflexivity|lia].
  - reflexivity.
  - exists w'. split; [exact Hrun|]. split; [exact Hf|exact Hs].
Defined.

(** ** The ledger of the payment handler *)

Lemma map_get_set_same {V} (k : string) (v : V) (m : list (string * V)) :
  map_get k (map_set k v m) = Some v.
Proof.
  induction m as [|[k' v'] m IH]; simpl.
  - now rewrite String.eqb_refl.
  - destruct (String.eqb k' k) eqn:E; simpl.
    + now rewrite String.eqb_refl.
    + now rewrite E.
Qed.

Lemma map_get_set_other {V} (k k0 : string) (v : V) (m : list (string * V)) :
  k0 <> k -> map_get k0 (map_set k v m) = map_get k0 m.
Proof.
  intros Hne. induction m as [|[k' v'] m IH]; simpl.
  - destruct (String.eqb_spec k k0); [congruence|reflexivity].
  - destruct (String.eqb_spec k' k) as [->|Hk]; simpl.
    + destruct (String.eqb_spec k k0); [congruence|reflexivity].
    + destruct (String.eqb k' k0); [reflexivity|exact IH].
Qed.

Lemma map_set_fresh {V} (k : string) (v : V) (m : list (string * V)) :
  map_get k m = None -> map_set k v m = (m ++ [(k, v)])%list.
Proof.
  induction m as [|[k' v'] m IH]; simpl; [reflexivity|].
  destruct (String.eqb k' k); [discriminate|].
  intros H. now rewrite IH.
Qed.

Lemma sum_amounts_app (l1 l2 : list PaymentRecord) : forall sum total,
  PaymentHandler.sum_amounts l1 sum = Normal total ->
  PaymentHandler.sum_amounts (l1 ++ l2) sum = PaymentHandler.sum_amounts l2 total.
Proof.
  induction l1 as [|p l1 IH]; simpl; intros sum total H.
  - now injection H as ->.
  - destruct (BigInt (World.amount p)) as [a|e]; [|discriminate].
    now apply IH.
Qed.

(** Every run of [processPayment]: it throws and leaves the ledger as it
    was, or it returns the record that it has put into the ledger. *)
Lemma processPayment_cases this header tool resource0 w :
  exists r w',
    PaymentHandler.processPayment this header tool resource0 w = (r, w') /\
    verify_net w' = verify_net w /\ settle_net w' = settle_net w /\
    toolCalls w' = toolCalls w /\
    invocations (log w') = invocations (log w) /\
    ((exists e,
         r = Throw e /\ payments w' = payments w /\ uuids w' = uuids w /\
         ledger_writes (log w') = ledger_writes (log w))
     \/
     (exists record,
         r = Normal record /\
         id record = uuid_source w (uuids w) /\
         World.toolName record = Core.name tool /\
         World.amount record = Core.price tool /\
         World.status record = "settled" /\
         uuids w' = S (uuids w) /\
         payments w' = map_set (id record) record (payments w) /\
         ledger_writes (log w') = S (ledger_writes (log w)))).
Proof.
  unfold PaymentHandler.processPayment, bind.
  set (reqs := PaymentHandler.createPaymentRequirements this tool resource0).
  pose proof (verify_quiet (PaymentHandler.facilitator this) header reqs w) as Hvq.
  destruct (Facilitator.verify (PaymentHandler.facilitator this) header reqs w)
    as [[v|e] w1]; simpl snd in Hvq;
    destruct Hvq as ((Hv1 & Hs1 & Hus1 & Hu1 & _ & _ & Hp1 & Ht1) & Hi1 & Hl1).
  2:{ eexists. eexists. split; [reflexivity|]. repeat split; try assumption.
      left. exists e. repeat split; assumption. }
  destruct (isValid v); cbn [negb].
  2:{ eexists. eexists. split; [reflexivity|]. repeat split; try assumption.
      left. eexists. repeat split; assumption. }
  pose proof (settle_quiet (PaymentHandler.facilitator this) header reqs w1) as Hsq.
  destruct (Facilitator.settle (PaymentHandler.facilitator this) header reqs w1)
    as [[s|e] w2]; simpl snd in Hsq;
    destruct Hsq as ((Hv2 & Hs2 & Hus2 & Hu2 & _ & _ & Hp2 & Ht2) & Hi2 & Hl2).
  2:{ eexists. eexists. split; [reflexivity|]. repeat split; try congruence.
      left. exists e. repeat split; congruence. }
  destruct (Facilitator.success s); cbn [negb].
  2:{ eexists. eexists. split; [reflexivity|]. repeat split; try congruence.
      left. eexists. repeat split; congruence. }
  eexists. eexists. split; [reflexivity|]. simpl.
  repeat split; try congruence.
  - rewrite invocations_app. simpl. lia.
  - right. eexists. split; [reflexivity|]. simpl.
    repeat split; try congruence.
    rewrite ledger_writes_app. simpl. lia.
Qed.

Lemma processPayment_returns this header tool resource0 w w' record :
  PaymentHandler.processPayment this header tool resource0 w = (Normal record, w') ->
  payments w' = map_set (id record) record (payments w) /\
  id record = uuid_source w (uuids w) /\
  World.toolName record = Core.name tool /\
  World.amount record = Core.price tool /\
  World.status record = "settled" /\
  toolCalls w' = toolCalls w /\
  invocations (log w') = invocations (log w) /\
  ledger_writes (log w') = S (ledger_writes (log w)).
Proof.
  intros Hrun.
  destruct (processPayment_cases this header tool resource0 w)
    as (r & w'' & Hrun' & _ & _ & Htc & Hinv & Hcases).
  rewrite Hrun in Hrun'. injection Hrun' as <- <-.
  destruct Hcases as [(e & He & _)|(record' & Hr & Hid & Hname & Hamount & Hstatus & _ & Hpay & Hl)];
    [discriminate|].
  injection Hr as <-. repeat split; assumption.
Qed.

Lemma processPayment_throws this header tool resource0 w w' e :
  PaymentHandler.processPayment this header tool resource0 w = (Throw e, w') ->
  payments w' = payments w /\ uuids w' = uuids w /\ toolCalls w' = toolCalls w /\
  invocations (log w') = invocations (log w) /\
  ledger_writes (log w') = ledger_writes (log w).
Proof.
  intros Hrun.
  destruct (processPayment_cases this header tool resource0 w)
    as (r & w'' & Hrun' & _ & _ & Htc & Hinv & Hcases).
  rewrite Hrun in Hrun'. injection Hrun' as <- <-.
  destruct Hcases as [(e' & _ & Hpay & Hu & Hl)|(record & Hr & _)]; [|discriminate].
  repeat split; assumption.
Qed.

(** X7. A payment that [processPayment] returns is in the ledger:
    [getPayment] finds exactly the returned record under its id, the other
    ids read as before, and the record names the tool, its price and the
    status [settled].  When the id is new, [getPayments] is the former list
    followed by the record. *)
Theorem settled_payment_is_in_ledger :
  forall (this : PaymentHandler.PaymentHandler) (header : string) (tool : Core.PricedTool)
         (resource0 : string) (w w' : World) (record : PaymentRecord),
    PaymentHandler.processPayment this header tool resource0 w = (Normal record, w') ->
    PaymentHandler.getPayment (id record) w' = Some record /\
    (forall other, other <> id record ->
                   PaymentHandler.getPayment other w' = PaymentHandler.getPayment other w) /\
    World.toolName record = Core.name tool /\
    World.amount record = Core.price tool /\
    World.status record = "settled" /\
    (PaymentHandler.getPayment (id record) w = None ->
     PaymentHandler.getPayments w' = (PaymentHandler.getPayments w ++ [record])%list).
Proof.
  intros this header tool resource0 w w' record Hrun.
  destruct (processPayment_returns this header tool resource0 w w' record Hrun)
    as (Hpay & _ & Hname & Hamount & Hstatus & _).
  unfold PaymentHandler.getPayment, PaymentHandler.getPayments. rewrite Hpay.
  split; [apply map_get_set_same|].
  split; [intros other Hne; now apply map_get_set_other|].
  repeat split; try assumption.
  intros Hfresh. rewrite (map_set_fresh _ _ _ Hfresh), map_app. reflexivity.
Qed.

Lemma settled_payment_is_in_ledger_witness :
  exists record w',
    PaymentHandler.processPayment sample_handler "header" sample_tool "tool://get_ohlcv"
      (idle accepting_verify settling) = (Normal record, w') /\
    PaymentHandler.getPayment (id record) w' = Some record /\
    PaymentHandler.getPayments w' = [record].
Proof.
  destruct (PaymentHandler.processPayment sample_handler "header" sample_tool "tool://get_ohlcv"
              (idle accepting_verify settling)) as [[record|e] w'] eqn:E;
    [|vm_compute in E; discriminate].
  exists record, w'. split; [reflexivity|].
  pose proof (settled_payment_is_in_ledger sample_handler "header" sample_tool
                "tool://get_ohlcv" (idle accepting_verify settling) w' record E)
    as (Hget & _ & _ & _ & _ & Hall).
  split; [exact Hget|].
  apply Hall. vm_compute in E. injection E as <- _. reflexivity.
Defined.

(** X8. The total revenue grows by the price of each settled payment: when
    the revenue could be read before, the price is an integer and the id of
    the record is new, [getTotalRevenue] afterwards is the former total
    plus the price. *)
Theorem revenue_grows_by_the_price :
  forall (this : PaymentHandler.PaymentHandler) (header : string) (tool : Core.PricedTool)
         (resource0 : string) (w w' : World) (record : PaymentRecord) (total p : Z),
    PaymentHandler.processPayment this header tool resource0 w = (Normal record, w') ->
    PaymentHandler.getTotalRevenue w = Normal total ->
    StringToBigInt (Core.price tool) = Some p ->
    PaymentHandler.getPayment (id record) w = None ->
    PaymentHandler.getTotalRevenue w' = Normal (total + p).
Proof.
  intros this header tool resource0 w w' record total p Hrun Htotal Hp Hfresh.
  destruct (processPayment_returns this header tool resource0 w w' record Hrun)
    as (Hpay & _ & _ & Hamount & _).
  unfold PaymentHandler.getTotalRevenue, PaymentHandler.getPayments, PaymentHandler.getPayment in *.
  rewrite Hpay, (map_set_fresh _ _ _ Hfresh), map_app.
  rewrite (sum_amounts_app _ _ _ _ Htotal). simpl.
  unfold BigInt. now rewrite Hamount, Hp.
Qed.

Lemma revenue_grows_by_the_price_witness :
  exists record w',
    PaymentHandler.processPayment sample_handler "header" sample_tool "tool://get_ohlcv"
      (idle accepting_verify settling) = (Normal record, w') /\
    PaymentHandler.getTotalRevenue w' = Normal 1000.
Proof.
  destruct (PaymentHandler.processPayment sample_handler "header" sample_tool "tool://get_ohlcv"
              (idle accepting_verify settling)) as [[record|e] w'] eqn:E;
    [|vm_compute in E; discriminate].
  exists record, w'. split; [reflexivity|].
  exact (revenue_grows_by_the_price sample_handler "header" sample_tool "tool://get_ohlcv"
           (idle accepting_verify settling) w' record 0 1000 E eq_refl eq_refl eq_refl).
Defined.

(** X9. A payment that did not settle is never recorded: whenever
    [processPayment] throws, for whatever reason (the facilitator does not
    answer, the payment is rejected, the settlement fails), the ledger and
    the total revenue are as before, no id has been drawn and no handler
    has run. *)
Theorem failed_payment_leaves_no_trace :
  forall (this : PaymentHandler.PaymentHandler) (header : string) (tool : Core.PricedTool)
         (resource0 : string) (w w' : World) (e : Thrown),
    PaymentHandler.processPayment this header tool resource0 w = (Throw e, w') ->
    PaymentHandler.getPayments w' = PaymentHandler.getPayments w /\
    PaymentHandler.getTotalRevenue w' = PaymentHandler.getTotalRevenue w /\
    (forall key, PaymentHandler.getPayment key w' = PaymentHandler.getPayment key w) /\
    uuids w' = uuids w /\
    ledger_writes (log w') = ledger_writes (log w) /\
    invocations (log w') = invocations (log w).
Proof.
  intros this header tool resource0 w w' e Hrun.
  destruct (processPayment_throws this header tool resource0 w w' e Hrun)
    as (Hpay & Hu & _ & Hinv & Hl).
  unfold PaymentHandler.getPayments, PaymentHandler.getTotalRevenue, PaymentHandler.getPayments,
    PaymentHandler.getPayment.
  rewrite Hpay. repeat split; assumption.
Qed.

Lemma failed_payment_leaves_no_trace_witness :
  exists e w',
    PaymentHandler.processPayment sample_handler "header" sample_tool "tool://get_ohlcv"
      (idle accepting_verify failing_settle) = (Throw e, w') /\
    e = Error "Settlement failed: insufficient_funds" /\
    PaymentHandler.getPayments w' = [].
Proof.
  destruct (PaymentHandler.processPayment sample_handler "header" sample_tool "tool://get_ohlcv"
              (idle accepting_verify failing_settle)) as [[record|e] w'] eqn:E;
    [vm_compute in E; discriminate|].
  exists e, w'. split; [reflexivity|].
  split; [vm_compute in E; now injection E as <- _|].
  exact (proj1 (failed_payment_leaves_no_trace sample_handler "header" sample_tool
                  "tool://get_ohlcv" (idle accepting_verify failing_settle) w' e E)).
Defined.

(** ** The tool route beyond the paid path *)

(** The last step of the route: the handler is invoked, and the call is
    counted when it returns. *)
Lemma execute_cases (rt : Server.RegisteredTool) (ctx : Server.RequestContext)
      (payment : option PaymentRecord) (w : World) :
  let run :=
    try_catch
      (toolResult <- Server.invoke rt (Server.request_body ctx) ;;
       Server.incrementToolCalls (Core.name (Server.definition rt)) ;;;
       ret (Server.mkResponseContext 200 [] (Server.ResultBody toolResult payment)))%js
      (fun error0 =>
         ret (Server.mkResponseContext 500 []
                (Server.ErrorBody (if instanceof_Error error0 then message_of error0
                                   else "Tool execution failed")))) in
  let name0 := Core.name (Server.definition rt) in
  let invoked := with_log w (HandlerInvoked name0) in
  match Server.handler rt (Server.request_body ctx) with
  | Normal result =>
      run w =
        (Normal (Server.mkResponseContext 200 [] (Server.ResultBody result payment)),
         with_toolCalls invoked
           (map_set name0
              (match map_get name0 (toolCalls w) with Some c => c | None => 0 end + 1)
              (toolCalls w)))
  | Throw e =>
      run w =
        (Normal (Server.mkResponseContext 500 []
                   (Server.ErrorBody (if instanceof_Error e then message_of e
                                      else "Tool execution failed"))), invoked)
  end.
Proof.
  intros run name0 invoked. unfold run, try_catch, bind, Server.invoke.
  destruct (Server.handler rt (Server.request_body ctx)) as [result|e]; [|reflexivity].
  unfold Server.incrementToolCalls, modify, ret. simpl.
  unfold invoked, name0.
  destruct (map_get (Core.name (Server.definition rt)) (toolCalls w)) as [c|]; [|reflexivity].
  destruct (Z.eqb_spec c 0); [subst; reflexivity|reflexivity].
Qed.

(** The route on a tool whose price is zero. *)
Lemma tool_route_free this rt ctx w :
  StringToBigInt (Core.price (Server.definition rt)) = Some 0 ->
  Server.tool_route this rt ctx w =
    try_catch
      (toolResult <- Server.invoke rt (Server.request_body ctx) ;;
       Server.incrementToolCalls (Core.name (Server.definition rt)) ;;;
       ret (Server.mkResponseContext 200 [] (Server.ResultBody toolResult None)))%js
      (fun error0 =>
         ret (Server.mkResponseContext 500 []
                (Server.ErrorBody (if instanceof_Error error0 then message_of error0
                                   else "Tool execution failed")))) w.
Proof.
  intros Hp. unfold Server.tool_route, Middleware.process, bind at 1 2, lift, BigInt.
  cbn [Middleware.tool]. rewrite Hp. reflexivity.
Qed.

(** X10. A tool whose price reads as zero is free: the handler runs on
    every call, whatever the [X-PAYMENT] header says; the facilitator is
    not asked, nothing is written to the ledger, and the answer carries no
    payment. *)
Theorem free_tool_needs_no_payment :
  forall (this : PaymentHandler.PaymentHandler) (rt : Server.RegisteredTool)
         (ctx : Server.RequestContext) (w : World),
    StringToBigInt (Core.price (Server.definition rt)) = Some 0 ->
    let w' := snd (Server.tool_route this rt ctx w) in
    log w' = (log w ++ [HandlerInvoked (Core.name (Server.definition rt))])%list /\
    fetches w' = fetches w /\
    payments w' = payments w /\
    fst (Server.tool_route this rt ctx w) =
      match Server.handler rt (Server.request_body ctx) with
      | Normal result =>
          Normal (Server.mkResponseContext 200 [] (Server.ResultBody result None))
      | Throw e =>
          Normal (Server.mkResponseContext 500 []
                    (Server.ErrorBody (if instanceof_Error e then message_of e
                                       else "Tool execution failed")))
      end.
Proof.
  intros this rt ctx w Hp w'. unfold w'. rewrite (tool_route_free this rt ctx w Hp).
  pose proof (execute_cases rt ctx None w) as H. cbv zeta in H.
  destruct (Server.handler rt (Server.request_body ctx)) as [result|e];
    rewrite H; repeat split.
Qed.

Lemma free_tool_needs_no_payment_witness :
  let ping :=
    Server.mkRegisteredTool (Core.mkPricedTool "ping" "Health check" "0" (JSON.JObject []))
      (fun _ => Normal (JSON.JObject [("pong", JSON.JBool true)])) in
  fst (Server.tool_route sample_handler ping paying_request (idle rejecting_verify settling)) =
    Normal (Server.mkResponseContext 200 []
              (Server.ResultBody (JSON.JObject [("pong", JSON.JBool true)]) None)) /\
  fetches (snd (Server.tool_route sample_handler ping paying_request
                  (idle rejecting_verify settling))) = 0%nat.
Proof.
  intros ping.
  pose proof (free_tool_needs_no_payment sample_handler ping paying_request
                (idle rejecting_verify settling) eq_refl) as (_ & Hf & _ & Hr).
  split; [exact Hr|exact Hf].
Defined.

(** X11. A paid call whose handler throws is answered with status 500 and
    the message of the handler (or [Tool execution failed] for a value that
    is no [Error]); the payment has been settled before and stays in the
    ledger, and the call is not counted. *)
Theorem handler_failure_keeps_the_payment :
  forall (this : PaymentHandler.PaymentHandler) (rt : Server.RegisteredTool)
         (ctx : Server.RequestContext) (header : string) (p : Z) (w w1 : World)
         (record : PaymentRecord) (e : Thrown),
    StringToBigInt (Core.price (Server.definition rt)) = Some p -> p <> 0 ->
    map_get "x-payment" (Server.headers ctx) = Some header -> header <> EmptyString ->
    PaymentHandler.processPayment this header (Server.definition rt)
      ("tool://" ++ Core.name (Server.definition rt)) w = (Normal record, w1) ->
    Server.handler rt (Server.request_body ctx) = Throw e ->
    exists w2,
      Server.tool_route this rt ctx w =
        (Normal (Server.mkResponseContext 500 []
                   (Server.ErrorBody (if instanceof_Error e then message_of e
                                      else "Tool execution failed"))), w2) /\
      PaymentHandler.getPayment (id record) w2 = Some record /\
      PaymentHandler.getPayments w2 = PaymentHandler.getPayments w1 /\
      toolCalls w2 = toolCalls w.
Proof.
  intros this rt ctx header p w w1 record e Hp Hnz Hh Hne Hrun Hthrow.
  destruct (processPayment_returns this header _ _ w w1 record Hrun)
    as (Hpay & _ & _ & _ & _ & Htc & _).
  exists (with_log w1 (HandlerInvoked (Core.name (Server.definition rt)))).
  split.
  - unfold Server.tool_route, bind at 1.
    rewrite Hh, (process_with_payment this (Server.definition rt) header _ w p Hp Hnz Hne).
    rewrite Hrun.
    cbn [Middleware.paymentRequired Middleware.error Server.error_set Middleware.payment].
    pose proof (execute_cases rt ctx (Some record) w1) as H. cbv zeta in H.
    rewrite Hthrow in H. exact H.
  - unfold PaymentHandler.getPayment, PaymentHandler.getPayments. simpl.
    rewrite Hpay. split; [apply map_get_set_same|]. split; [reflexivity|exact Htc].
Qed.

Lemma handler_failure_keeps_the_payment_witness :
  let broken :=
    Server.mkRegisteredTool sample_tool (fun _ => Throw (Error "upstream is down")) in
  exists record w1 w2,
    PaymentHandler.processPayment sample_handler "eyJ4NDAyVmVyc2lvbiI6MX0=" sample_tool
      "tool://get_ohlcv" (idle accepting_verify settling) = (Normal record, w1) /\
    Server.tool_route sample_handler broken paying_request (idle accepting_verify settling) =
      (Normal (Server.mkResponseContext 500 [] (Server.ErrorBody "upstream is down")), w2) /\
    PaymentHandler.getPayment (id record) w2 = Some record.
Proof.
  intros broken.
  destruct (PaymentHandler.processPayment sample_handler "eyJ4NDAyVmVyc2lvbiI6MX0=" sample_tool
              "tool://get_ohlcv" (idle accepting_verify settling)) as [[record|e] w1] eqn:E;
    [|vm_compute in E; discriminate].
  destruct (handler_failure_keeps_the_payment sample_handler broken paying_request
              "eyJ4NDAyVmVyc2lvbiI6MX0=" 1000 (idle accepting_verify settling) w1 record
              (Error "upstream is down") eq_refl ltac:(discriminate) eq_refl
              ltac:(discriminate) E eq_refl) as (w2 & Hroute & Hget & _).
  exists record, w1, w2. split; [reflexivity|]. split; [exact Hroute|exact Hget].
Defined.

(** Every run of the route that answers: the counter of the tool goes up by
    one with a 200, and no counter moves otherwise. *)
Lemma tool_route_counts this rt ctx w response w' :
  Server.tool_route this rt ctx w = (Normal response, w') ->
  let name0 := Core.name (Server.definition rt) in
  (Server.status response = 200 /\
   toolCalls w' =
     map_set name0 (match map_get name0 (toolCalls w) with Some c => c | None => 0 end + 1)
       (toolCalls w)) \/
  (Server.status response <> 200 /\ toolCalls w' = toolCalls w).
Proof.
  intros Hrun name0.
  assert (Htail : forall payment w1 response1 w1',
            toolCalls w1 = toolCalls w ->
            try_catch
              (toolResult <- Server.invoke rt (Server.request_body ctx) ;;
               Server.incrementToolCalls (Core.name (Server.definition rt)) ;;;
               ret (Server.mkResponseContext 200 [] (Server.ResultBody toolResult payment)))%js
              (fun error0 =>
                 ret (Server.mkResponseContext 500 []
                        (Server.ErrorBody (if instanceof_Error error0 then message_of error0
                                           else "Tool execution failed")))) w1
              = (Normal response1, w1') ->
            (Server.status response1 = 200 /\
             toolCalls w1' =
               map_set name0
                 (match map_get name0 (toolCalls w) with Some c => c | None => 0 end + 1)
                 (toolCalls w)) \/
            (Server.status response1 <> 200 /\ toolCalls w1' = toolCalls w)).
  { intros payment w1 response1 w1' Htc H.
    pose proof (execute_cases rt ctx payment w1) as Hex. cbv zeta in Hex.
    destruct (Server.handler rt (Server.request_body ctx)) as [result|e];
      rewrite Hex in H; injection H as <- <-.
    - left. split; [reflexivity|]. simpl. fold name0. now rewrite Htc.
    - right. split; [simpl; lia|exact Htc]. }
  revert Hrun. unfold Server.tool_route, Middleware.process, bind at 1 2, lift.
  cbn [Middleware.tool Middleware.paymentHeader].
  destruct (BigInt (Core.price (Server.definition rt))) as [price0|e]; [|discriminate].
  destruct (price0 =? 0).
  { unfold ret at 1. cbn [Middleware.paymentRequired Middleware.error Server.error_set
                          Middleware.payment].
    apply Htail. reflexivity. }
  destruct (Middleware.header_missing (map_get "x-payment" (Server.headers ctx))).
  { unfold ret. cbn [Middleware.paymentRequired]. intros H. injection H as <- <-.
    right. split; [simpl; lia|reflexivity]. }
  unfold try_catch at 1, bind at 1.
  destruct (processPayment_cases this
              (Middleware.header_text (map_get "x-payment" (Server.headers ctx)))
              (Server.definition rt) ("tool://" ++ Core.name (Server.definition rt)) w)
    as (r & w1 & -> & _ & _ & Htc & _).
  destruct r as [record|e]; unfold ret at 1;
    cbn [Middleware.paymentRequired Middleware.error Server.error_set Middleware.payment].
  - apply Htail. exact Htc.
  - destruct (truthy (if instanceof_Error e then message_of e else "Payment failed")).
    + unfold ret. intros H. injection H as <- <-.
      right. split; [simpl; lia|exact Htc].
    + apply Htail. exact Htc.
Qed.

(** X12. The call counter of a tool counts the calls that were answered
    with status 200: such a call raises the counter of the tool by one (a
    tool without counter starts from 0) and leaves the counters of the other
    tools alone; a call answered otherwise (402, 500) changes no counter. *)
Theorem call_counter_counts_answered_calls :
  forall (this : PaymentHandler.PaymentHandler) (rt : Server.RegisteredTool)
         (ctx : Server.RequestContext) (w w' : World) (response : Server.ResponseContext),
    Server.tool_route this rt ctx w = (Normal response, w') ->
    let name0 := Core.name (Server.definition rt) in
    let before := match map_get name0 (toolCalls w) with Some c => c | None => 0 end in
    (Server.status response = 200 ->
     map_get name0 (toolCalls w') = Some (before + 1) /\
     forall other, other <> name0 -> map_get other (toolCalls w') = map_get other (toolCalls w)) /\
    (Server.status response <> 200 -> toolCalls w' = toolCalls w).
Proof.
  intros this rt ctx w w' response Hrun name0 before.
  destruct (tool_route_counts this rt ctx w response w' Hrun) as [(Hs & Htc)|(Hs & Htc)].
  - split; [|intros H; contradiction].
    intros _. fold name0 in Htc. fold before in Htc. rewrite Htc.
    split; [apply map_get_set_same|]. intros other Hne. now apply map_get_set_other.
  - split; [intros H; contradiction|]. intros _. exact Htc.
Qed.

Lemma call_counter_counts_answered_calls_witness :
  map_get "get_ohlcv"
    (toolCalls (snd (Server.tool_route sample_handler sample_registered paying_request
                       (idle accepting_verify settling)))) = Some 1 /\
  toolCalls (snd (Server.tool_route sample_handler sample_registered bare_request
                    (idle accepting_verify settling))) = [].
Proof.
  split.
  - destruct (Server.tool_route sample_handler sample_registered paying_request
                (idle accepting_verify settling)) as [[response|e] w'] eqn:E;
      [|vm_compute in E; discriminate].
    pose proof (call_counter_counts_answered_calls _ _ _ _ _ _ E) as (H & _).
    apply H. vm_compute in E. now injection E as <- _.
  - destruct (Server.tool_route sample_handler sample_registered bare_request
                (idle accepting_verify settling)) as [[response|e] w'] eqn:E;
      [|vm_compute in E; discriminate].
    pose proof (call_counter_counts_answered_calls _ _ _ _ _ _ E) as (_ & H).
    simpl snd. rewrite H; [reflexivity|].
    vm_compute in E. injection E as <- _. simpl. lia.
Defined.

(** ** The tool registry *)

Lemma map_has_get {V} (k : string) (m : list (string * V)) :
  Tools.map_has k m = match map_get k m with Some _ => true | None => false end.
Proof.
  induction m as [|[k' v'] m IH]; simpl; [reflexivity|].
  destruct (String.eqb k' k); [reflexivity|exact IH].
Qed.

Lemma map_has_false_get {V} (k : string) (m : list (string * V)) :
  Tools.map_has k m = false -> map_get k m = None.
Proof. rewrite map_has_get. now destruct (map_get k m). Qed.

Lemma map_delete_absent {V} (k : string) (m : list (string * V)) :
  Tools.map_has k m = false -> Tools.map_delete k m = m.
Proof.
  induction m as [|[k' v'] m IH]; simpl; [reflexivity|].
  destruct (String.eqb k' k); [discriminate|]. intros H. now rewrite IH.
Qed.

Lemma map_delete_app {V} (k : string) (m1 m2 : list (string * V)) :
  Tools.map_delete k (m1 ++ m2) = (Tools.map_delete k m1 ++ Tools.map_delete k m2)%list.
Proof.
  induction m1 as [|[k' v'] m1 IH]; simpl; [reflexivity|].
  destruct (String.eqb k' k); simpl; now rewrite IH.
Qed.

Lemma map_has_delete {V} (k k0 : string) (m : list (string * V)) :
  Tools.map_has k0 (Tools.map_delete k m) =
    if String.eqb k k0 then false else Tools.map_has k0 m.
Proof.
  induction m as [|[k' v'] m IH]; simpl.
  - now destruct (String.eqb k k0).
  - destruct (String.eqb_spec k' k) as [->|Hk].
    + rewrite IH. destruct (String.eqb k k0); reflexivity.
    + simpl. rewrite IH.
      destruct (String.eqb_spec k' k0) as [->|Hk0]; [|reflexivity].
      destruct (String.eqb_spec k k0); [congruence|reflexivity].
Qed.

Lemma map_get_delete {V} (k k0 : string) (m : list (string * V)) :
  map_get k0 (Tools.map_delete k m) = if String.eqb k k0 then None else map_get k0 m.
Proof.
  induction m as [|[k' v'] m IH]; simpl.
  - now destruct (String.eqb k k0).
  - destruct (String.eqb_spec k' k) as [->|Hk].
    + rewrite IH. destruct (String.eqb k k0); reflexivity.
    + simpl. rewrite IH.
      destruct (String.eqb_spec k' k0) as [->|Hk0]; [|reflexivity].
      destruct (String.eqb_spec k k0); [congruence|reflexivity].
Qed.

Lemma map_has_set {V} (k k0 : string) (v : V) (m : list (string * V)) :
  Tools.map_has k0 (map_set k v m) = if String.eqb k k0 then true else Tools.map_has k0 m.
Proof.
  rewrite !map_has_get.
  destruct (String.eqb_spec k k0) as [->|Hne].
  - now rewrite map_get_set_same.
  - rewrite map_get_set_other by congruence. reflexivity.
Qed.

(** X13. [register] takes a tool whose name is not in the registry:
    afterwards [get] returns it, [getAll] lists it last, the size has grown
    by one and the other names read as before.  A second tool of the same
    name is refused with [Tool <name> already registered], and the registry
    keeps the first one. *)
Theorem register_accepts_a_name_once :
  forall (tool : Server.RegisteredTool) (this : Tools.ToolRegistry),
    let name0 := Core.name (Server.definition tool) in
    (Tools.has name0 this = false ->
     exists this',
       Tools.register tool this = (Normal tt, this') /\
       Tools.get name0 this' = Some tool /\
       Tools.has name0 this' = true /\
       Tools.getAll this' = (Tools.getAll this ++ [tool])%list /\
       Tools.size this' = Tools.size this + 1 /\
       (forall other, other <> name0 -> Tools.get other this' = Tools.get other this)) /\
    (Tools.has name0 this = true ->
     Tools.register tool this =
       (Throw (Error ("Tool " ++ name0 ++ " already registered")), this)) /\
    (forall second : Server.RegisteredTool,
        Core.name (Server.definition second) = name0 ->
        Tools.has name0 this = false ->
        Tools.get name0 (snd (Tools.register second (snd (Tools.register tool this)))) =
          Some tool).
Proof.
  intros tool this name0. unfold Tools.has, Tools.register. fold name0. split; [|split].
  - intros Hfree. rewrite Hfree. eexists. split; [reflexivity|].
    pose proof (map_has_false_get _ _ Hfree) as Hget.
    unfold Tools.get, Tools.getAll, Tools.size.
    rewrite map_has_set, String.eqb_refl, (map_set_fresh _ _ _ Hget).
    rewrite map_app, length_app. simpl.
    split; [rewrite <- (map_set_fresh _ _ _ Hget); apply map_get_set_same|].
    split; [reflexivity|]. split; [reflexivity|]. split; [lia|].
    intros other Hne. rewrite <- (map_set_fresh _ _ _ Hget). now apply map_get_set_other.
  - intros Htaken. now rewrite Htaken.
  - intros second Hsame Hfree. rewrite Hfree. simpl snd. rewrite Hsame.
    rewrite map_has_set, String.eqb_refl. simpl snd.
    apply map_get_set_same.
Qed.

Lemma register_accepts_a_name_once_witness :
  exists this',
    Tools.register sample_registered Tools.createToolRegistry = (Normal tt, this') /\
    Tools.get "get_ohlcv" this' = Some sample_registered /\
    Tools.register sample_registered this' =
      (Throw (Error "Tool get_ohlcv already registered"), this').
Proof.
  destruct (register_accepts_a_name_once sample_registered Tools.createToolRegistry)
    as (Hfresh & _).
  destruct (Hfresh eq_refl) as (this' & Hrun & Hget & Hhas & _).
  exists this'. split; [exact Hrun|]. split; [exact Hget|].
  exact (proj1 (proj2 (register_accepts_a_name_once sample_registered this')) Hhas).
Defined.

(** X14. [remove] answers whether the name was registered; afterwards the
    name is free again ([has] is false, [get] finds nothing) and the other
    tools are untouched.  Removing a tool right after registering it gives
    the former registry back, and removing a name that is not registered
    changes nothing. *)
Theorem remove_frees_the_name :
  forall (name0 : string) (this : Tools.ToolRegistry),
    fst (Tools.remove name0 this) = Normal (Tools.has name0 this) /\
    Tools.has name0 (snd (Tools.remove name0 this)) = false /\
    Tools.get name0 (snd (Tools.remove name0 this)) = None /\
    (forall other, other <> name0 ->
       Tools.get other (snd (Tools.remove name0 this)) = Tools.get other this) /\
    (Tools.has name0 this = false -> snd (Tools.remove name0 this) = this) /\
    (forall tool : Server.RegisteredTool,
        Core.name (Server.definition tool) = name0 ->
        Tools.has name0 this = false ->
        Tools.remove name0 (snd (Tools.register tool this)) = (Normal true, this)).
Proof.
  intros name0 this. unfold Tools.remove, Tools.has, Tools.get. simpl.
  split; [reflexivity|].
  split; [now rewrite map_has_delete, String.eqb_refl|].
  split; [now rewrite map_get_delete, String.eqb_refl|].
  split.
  { intros other Hne. rewrite map_get_delete.
    destruct (String.eqb_spec name0 other); [congruence|reflexivity]. }
  split; [apply map_delete_absent|].
  intros tool Hname Hfree. unfold Tools.register. rewrite Hname, Hfree. simpl snd.
  rewrite map_has_set, String.eqb_refl.
  rewrite (map_set_fresh _ _ _ (map_has_false_get _ _ Hfree)), map_delete_app.
  rewrite (map_delete_absent _ _ Hfree). simpl. rewrite String.eqb_refl.
  now rewrite List.app_nil_r.
Qed.

Lemma remove_frees_the_name_witness :
  Tools.remove "get_ohlcv"
    (snd (Tools.register sample_registered (snd (Tools.register ping Tools.createToolRegistry))))
  = (Normal true, snd (Tools.register ping Tools.createToolRegistry)).
Proof.
  exact (proj2 (proj2 (proj2 (proj2 (proj2
           (remove_frees_the_name "get_ohlcv"
              (snd (Tools.register ping Tools.createToolRegistry)))))))
           sample_registered eq_refl eq_refl).
Defined.

(** ** The HTTP transport *)

Lemma map_has_spread (k : string) (b : list (string * string)) : forall a,
  Tools.map_has k (Transport.spread a b) = Tools.map_has k a || Tools.map_has k b.
Proof.
  unfold Transport.spread.
  induction b as [|[k' v'] b IH]; intros a; simpl.
  - now rewrite orb_false_r.
  - rewrite IH, map_has_set.
    destruct (String.eqb_spec k' k) as [->|Hne]; simpl.
    + now rewrite orb_true_r.
    + reflexivity.
Qed.

Section ListenerFacts.

Context {S R B : Type}.
Variable run : R -> Server.RequestContext -> M S (Transport.ResponseContext B).
Variable error_body : string -> B.

Lemma listener_cases (this : Transport.HttpTransport R) (req : Transport.IncomingMessage) (s : S) :
  let method := or_default (Transport.req_method req) "GET" in
  let plain := Transport.spread [("Content-Type", "application/json")] Transport.getCorsHeaders in
  Transport.listener run error_body this req s =
    if String.eqb method "OPTIONS"
    then (Normal (Transport.mkServerResponse 204 Transport.getCorsHeaders None), s)
    else match map_get (method ++ ":" ++ Transport.pathname req) (Transport.handlers this) with
         | None =>
             (Normal (Transport.mkServerResponse 404 plain (Some (error_body "Not found"))), s)
         | Some handler =>
             match run handler
                     (Server.mkRequestContext method (Transport.pathname req)
                        (Transport.collect_headers (Transport.req_headers req))
                        (Transport.read_body method (Transport.chunks req))) s with
             | (Normal result, s') =>
                 (Normal (Transport.mkServerResponse (Transport.status result)
                            (Transport.spread plain (Transport.headers result))
                            (Some (Transport.body result))), s')
             | (Throw _, s') =>
                 (Normal (Transport.mkServerResponse 500 plain
                            (Some (error_body "Internal server error"))), s')
             end
         end.
Proof.
  intros method plain. unfold Transport.listener. fold method.
  destruct (String.eqb method "OPTIONS"); [reflexivity|].
  destruct (map_get (method ++ ":" ++ Transport.pathname req) (Transport.handlers this))
    as [handler|]; [|reflexivity].
  unfold try_catch, bind.
  destruct (run handler _ s) as [[result|e] s']; reflexivity.
Qed.

End ListenerFacts.

Section RequestListenerFacts.

Context {S R B : Type}.
Variable run : R -> Server.RequestContext -> M S (Transport.ResponseContext B).
Variable URL_pathname : string -> string -> Completion string.
Variable head_error : Z -> list (string * string) -> option Thrown.
Variable stringify : B -> Completion (option string).

(** What the listener does once a handler has thrown, or has returned a
    head that [writeHead] refuses. *)
Lemma requestListener_cases (this : Transport.HttpTransport R) (req : Transport.Arriving)
      (s : S) :
  let method := or_default (Transport.arriving_method req) "GET" in
  let plain := Transport.spread [("Content-Type", "application/json")] Transport.getCorsHeaders in
  let failed (s' : S) : Completion unit * (S * Transport.Res) :=
    match head_error 500 plain with
    | Some e => (Throw e, (s', Transport.fresh))
    | None =>
        (Normal tt,
         (s', Transport.mkRes (Some (500, plain))
                (Some (Some (Transport.error_text "Internal server error")))))
    end in
  Transport.requestListener run URL_pathname head_error stringify this req (s, Transport.fresh) =
    match URL_pathname (or_default (Transport.arriving_url req) "/")
            ("http://" ++ Transport.host this ++ ":" ++ toString (Transport.port this)) with
    | Throw e => (Throw e, (s, Transport.fresh))
    | Normal path0 =>
        if String.eqb method "OPTIONS" then
          match head_error 204 Transport.getCorsHeaders with
          | Some e => (Throw e, (s, Transport.fresh))
          | None =>
              (Normal tt, (s, Transport.mkRes (Some (204, Transport.getCorsHeaders)) (Some None)))
          end
        else
          match (if String.eqb method "POST" then Transport.arriving_body req else Normal []) with
          | Throw e => (Throw e, (s, Transport.fresh))
          | Normal given =>
              match map_get (method ++ ":" ++ path0) (Transport.handlers this) with
              | None =>
                  match head_error 404 plain with
                  | Some e => (Throw e, (s, Transport.fresh))
                  | None =>
                      (Normal tt,
                       (s, Transport.mkRes (Some (404, plain))
                             (Some (Some (Transport.error_text "Not found")))))
                  end
              | Some handler =>
                  match run handler
                          (Server.mkRequestContext method path0
                             (Transport.collect_headers (Transport.arriving_headers req))
                             (Transport.read_body method given)) s with
                  | (Throw _, s') => failed s'
                  | (Normal result, s') =>
                      match head_error (Transport.status result)
                              (Transport.spread plain (Transport.headers result)) with
                      | Some _ => failed s'
                      | None =>
                          match stringify (Transport.body result) with
                          | Normal written =>
                              (Normal tt,
                               (s', Transport.mkRes
                                      (Some (Transport.status result,
                                             Transport.spread plain (Transport.headers result)))
                                      (Some written)))
                          | Throw _ =>
                              (Throw Transport.ERR_HTTP_HEADERS_SENT,
                               (s', Transport.mkRes
                                      (Some (Transport.status result,
                                             Transport.spread plain (Transport.headers result)))
                                      None))
                          end
                      end
                  end
              end
          end
    end.
Proof.
  intros method plain failed.
  unfold Transport.requestListener. fold method.
  unfold bind at 1. unfold lift at 1.
  destruct (URL_pathname _ _) as [path0|e]; [|reflexivity].
  destruct (String.eqb method "OPTIONS").
  { unfold bind, Transport.on_res, Transport.writeHead, Transport.end_, Transport.fresh.
    cbn [fst snd Transport.head Transport.ended].
    destruct (head_error 204 Transport.getCorsHeaders); reflexivity. }
  unfold bind at 1.
  assert (Hgiven :
            (if String.eqb method "POST" then lift (Transport.arriving_body req) else ret [])
              (s, Transport.fresh) =
            ((if String.eqb method "POST" then Transport.arriving_body req else Normal []),
             (s, Transport.fresh))).
  { destruct (String.eqb method "POST"); reflexivity. }
  rewrite Hgiven. clear Hgiven.
  destruct (if String.eqb method "POST" then Transport.arriving_body req else Normal [])
    as [given|e]; [|reflexivity].
  destruct (map_get (method ++ ":" ++ path0) (Transport.handlers this)) as [handler|].
  2:{ unfold bind, Transport.on_res, Transport.writeHead, Transport.end_, Transport.fresh.
      cbn [fst snd Transport.head Transport.ended]. fold plain.
      destruct (head_error 404 plain); reflexivity. }
  unfold try_catch, bind, Transport.on_server, Transport.on_res, Transport.writeHead,
    Transport.end_, lift, Transport.fresh.
  cbn [fst snd Transport.head Transport.ended]. fold plain.
  destruct (run handler _ s) as [[result|e] s']; cbn [fst snd Transport.head Transport.ended].
  - destruct (head_error (Transport.status result) _) as [e|];
      cbn [fst snd Transport.head Transport.ended].
    + unfold failed. destruct (head_error 500 plain); reflexivity.
    + destruct (stringify (Transport.body result)) as [written|e]; reflexivity.
  - unfold failed. destruct (head_error 500 plain); reflexivity.
Qed.

End RequestListenerFacts.

Lemma read_body_unread (method : string) (given given' : list string) :
  method <> "POST" -> Transport.read_body method given = Transport.read_body method given'.
Proof.
  intros H. unfold Transport.read_body.
  destruct (String.eqb_spec method "POST"); [contradiction|reflexivity].
Qed.

Lemma cors_in_plain_headers :
  Tools.map_has "Access-Control-Allow-Origin" plain_headers = true.
Proof. reflexivity. Qed.

(** X15. What the request listener does with a request, the runtime taking
    the heads of the listener's own answers.  A target that is no URL is
    not answered: [new URL] throws before anything is written, and the
    listener ends with that error.  Otherwise [OPTIONS] is answered 204 and
    no handler runs; a [POST] whose body breaks off is not answered; a
    method and path without a handler get 404 [Not found]; a handler that
    throws, or whose status or headers [writeHead] refuses, gets 500
    [Internal server error]; a handler whose body [JSON.stringify] cannot
    write is not answered, its head having been stored, because the second
    [writeHead] throws; any other answer of a handler is written.  The
    request is answered exactly when the listener returns, every head that
    is written carries [Access-Control-Allow-Origin], and the [cors] flag
    of the transport is not read. *)
Theorem listener_answers_unless_reading_or_writing_fails :
  forall (S R B : Type) (run : R -> Server.RequestContext -> M S (Transport.ResponseContext B))
         (URL_pathname : string -> string -> Completion string)
         (head_error : Z -> list (string * string) -> option Thrown)
         (stringify : B -> Completion (option string))
         (this : Transport.HttpTransport R) (req : Transport.Arriving) (s : S),
    takes_fixed_heads head_error ->
    let method := or_default (Transport.arriving_method req) "GET" in
    let target := or_default (Transport.arriving_url req) "/" in
    let listen (t : Transport.HttpTransport R) :=
      Transport.requestListener run URL_pathname head_error stringify t req (s, Transport.fresh) in
    let failed := answer 500 plain_headers (Some (Transport.error_text "Internal server error")) in
    (forall e, URL_pathname target (base_of this) = Throw e ->
               listen this = (Throw e, (s, Transport.fresh))) /\
    (forall path0,
        URL_pathname target (base_of this) = Normal path0 ->
        (method = "OPTIONS" ->
         listen this = (Normal tt, (s, answer 204 Transport.getCorsHeaders None))) /\
        (method = "POST" ->
         forall e, Transport.arriving_body req = Throw e ->
                   listen this = (Throw e, (s, Transport.fresh))) /\
        (method <> "OPTIONS" ->
         (method = "POST" -> exists given, Transport.arriving_body req = Normal given) ->
         let ctx :=
           Server.mkRequestContext method path0
             (Transport.collect_headers (Transport.arriving_headers req))
             (Transport.read_body method (Transport.chunks_read (Transport.arriving_body req))) in
         (map_get (method ++ ":" ++ path0) (Transport.handlers this) = None ->
          listen this =
            (Normal tt,
             (s, answer 404 plain_headers (Some (Transport.error_text "Not found"))))) /\
         (forall handler,
             map_get (method ++ ":" ++ path0) (Transport.handlers this) = Some handler ->
             (forall e s', run handler ctx s = (Throw e, s') ->
                           listen this = (Normal tt, (s', failed))) /\
             (forall result s',
                 run handler ctx s = (Normal result, s') ->
                 let written :=
                   Transport.spread plain_headers (Transport.headers result) in
                 (forall e, head_error (Transport.status result) written = Some e ->
                            listen this = (Normal tt, (s', failed))) /\
                 (head_error (Transport.status result) written = None ->
                  (forall text, stringify (Transport.body result) = Normal text ->
                     listen this =
                       (Normal tt, (s', answer (Transport.status result) written text))) /\
                  (forall e, stringify (Transport.body result) = Throw e ->
                     listen this =
                       (Throw Transport.ERR_HTTP_HEADERS_SENT,
                        (s', Transport.mkRes (Some (Transport.status result, written))
                               None)))))))) /\
    (answered (snd (snd (listen this))) <-> fst (listen this) = Normal tt) /\
    (forall statusCode0 headers0,
        Transport.head (snd (snd (listen this))) = Some (statusCode0, headers0) ->
        Tools.map_has "Access-Control-Allow-Origin" headers0 = true) /\
    (forall flag,
        listen (Transport.mkHttpTransport (Transport.port this) (Transport.host this) flag
                  (Transport.handlers this)) = listen this).
Proof.
  intros S R B run URL_pathname head_error stringify this req s (H204 & H404 & H500)
         method target listen failed.
  pose proof (requestListener_cases run URL_pathname head_error stringify this req s) as Hc.
  cbv zeta in Hc. fold method target (base_of this) plain_headers in Hc.
  rewrite H204, H404, H500 in Hc. fold (listen this) in Hc.
  split; [|split; [|split; [|split]]].
  - intros e He. rewrite Hc, He. reflexivity.
  - intros path0 Hpath. rewrite Hpath in Hc. split; [|split].
    + intros Hm. rewrite Hc, Hm. reflexivity.
    + intros Hm e He. rewrite Hc, Hm, He. reflexivity.
    + intros Hm Hbody ctx.
      destruct (String.eqb_spec method "OPTIONS"); [contradiction|].
      assert (Hgiven : exists given,
                 (if String.eqb method "POST" then Transport.arriving_body req else Normal [])
                 = Normal given /\
                 Transport.read_body method given =
                   Transport.read_body method
                     (Transport.chunks_read (Transport.arriving_body req))).
      { destruct (String.eqb_spec method "POST") as [Hp|Hp].
        - destruct (Hbody Hp) as (given & Hg). exists given. rewrite Hg. now split.
        - exists []. split; [reflexivity|]. now apply read_body_unread. }
      destruct Hgiven as (given & Hg & Hread). rewrite Hg, Hread in Hc. fold ctx in Hc.
      split.
      * intros Hnone. rewrite Hc, Hnone. reflexivity.
      * intros handler Hsome. rewrite Hsome in Hc. split.
        -- intros e s' Hrun. rewrite Hc, Hrun. reflexivity.
        -- intros result s' Hrun written. rewrite Hrun in Hc. fold written in Hc. split.
           ++ intros e He. rewrite Hc, He. reflexivity.
           ++ intros Hnone. rewrite Hnone in Hc. split.
              ** intros text Ht. rewrite Hc, Ht. reflexivity.
              ** intros e He. rewrite Hc, He. reflexivity.
  - rewrite Hc. unfold answered.
    destruct (URL_pathname target (base_of this)) as [path0|e];
      [|simpl; split; [intros H; now contradiction H|discriminate]].
    destruct (String.eqb method "OPTIONS"); [simpl; split; [reflexivity|discriminate]|].
    destruct (if String.eqb method "POST" then Transport.arriving_body req else Normal [])
      as [given|e]; [|simpl; split; [intros H; now contradiction H|discriminate]].
    destruct (map_get _ _) as [handler|]; [|simpl; split; [reflexivity|discriminate]].
    destruct (run handler _ s) as [[result|e] s'];
      [|simpl; split; [reflexivity|discriminate]].
    destruct (head_error (Transport.status result) _);
      [simpl; split; [reflexivity|discriminate]|].
    destruct (stringify (Transport.body result));
      simpl; split; try reflexivity; try discriminate. intros H; now contradiction H.
  - intros statusCode0 headers0. rewrite Hc.
    destruct (URL_pathname target (base_of this)) as [path0|e]; [|discriminate].
    destruct (String.eqb method "OPTIONS").
    { simpl. intros H. injection H as _ <-. reflexivity. }
    destruct (if String.eqb method "POST" then Transport.arriving_body req else Normal [])
      as [given|e]; [|discriminate].
    destruct (map_get _ _) as [handler|].
    2:{ simpl. intros H. injection H as _ <-. reflexivity. }
    destruct (run handler _ s) as [[result|e] s'].
    2:{ simpl. intros H. injection H as _ <-. reflexivity. }
    destruct (head_error (Transport.status result) _).
    { simpl. intros H. injection H as _ <-. reflexivity. }
    assert (Hspread : Tools.map_has "Access-Control-Allow-Origin"
                        (Transport.spread plain_headers (Transport.headers result)) = true).
    { rewrite map_has_spread. reflexivity. }
    destruct (stringify (Transport.body result)); simpl; intros H; injection H as _ <-;
      exact Hspread.
  - intros flag. unfold listen.
    rewrite (requestListener_cases run URL_pathname head_error stringify
               (Transport.mkHttpTransport (Transport.port this) (Transport.host this) flag
                  (Transport.handlers this)) req s).
    rewrite (requestListener_cases run URL_pathname head_error stringify this req s).
    reflexivity.
Qed.

Lemma listener_answers_unless_reading_or_writing_fails_witness :
  takes_fixed_heads range_check /\
  Transport.requestListener run_echo sample_pathname range_check sample_stringify
    (echo (Big 5)) (asking "//") (tt, Transport.fresh) =
    (Throw (ErrorObject "TypeError" "Invalid URL"), (tt, Transport.fresh)) /\
  Transport.requestListener run_echo sample_pathname range_check sample_stringify
    (echo (Big 5)) (asking "/balance") (tt, Transport.fresh) =
    (Throw Transport.ERR_HTTP_HEADERS_SENT,
     (tt, Transport.mkRes (Some (200, plain_headers)) None)) /\
  Transport.requestListener run_echo sample_pathname range_check sample_stringify
    (echo (Plain (JSON.JNumber 5))) (asking "/balance") (tt, Transport.fresh) =
    (Normal tt, (tt, answer 200 plain_headers (Some "5"))) /\
  Transport.requestListener run_echo sample_pathname range_check sample_stringify
    (echo (Plain (JSON.JNumber 5))) (asking "/other") (tt, Transport.fresh) =
    (Normal tt, (tt, answer 404 plain_headers (Some (Transport.error_text "Not found")))).
Proof.
  assert (H : takes_fixed_heads range_check) by (repeat split; reflexivity).
  split; [exact H|]. split; [|split; [|split]].
  - apply (proj1 (listener_answers_unless_reading_or_writing_fails unit SampleBody SampleBody
                    run_echo sample_pathname range_check sample_stringify
                    (echo (Big 5)) (asking "//") tt H)).
    reflexivity.
  - destruct (proj1 (proj2 (listener_answers_unless_reading_or_writing_fails unit SampleBody
                              SampleBody run_echo sample_pathname range_check sample_stringify
                              (echo (Big 5)) (asking "/balance") tt H)) "/balance" eq_refl)
      as (_ & _ & Hrest).
    destruct (Hrest ltac:(discriminate) ltac:(discriminate)) as (_ & Hfound).
    destruct (Hfound (Big 5) eq_refl) as (_ & Hreturns).
    destruct (Hreturns (Transport.mkResponseContext 200 [] (Big 5)) tt eq_refl) as (_ & Htaken).
    exact (proj2 (Htaken eq_refl) _ eq_refl).
  - destruct (proj1 (proj2 (listener_answers_unless_reading_or_writing_fails unit SampleBody
                              SampleBody run_echo sample_pathname range_check sample_stringify
                              (echo (Plain (JSON.JNumber 5))) (asking "/balance") tt H))
                "/balance" eq_refl)
      as (_ & _ & Hrest).
    destruct (Hrest ltac:(discriminate) ltac:(discriminate)) as (_ & Hfound).
    destruct (Hfound (Plain (JSON.JNumber 5)) eq_refl) as (_ & Hreturns).
    destruct (Hreturns (Transport.mkResponseContext 200 [] (Plain (JSON.JNumber 5))) tt eq_refl)
      as (_ & Htaken).
    exact (proj1 (Htaken eq_refl) _ eq_refl).
  - destruct (proj1 (proj2 (listener_answers_unless_reading_or_writing_fails unit SampleBody
                              SampleBody run_echo sample_pathname range_check sample_stringify
                              (echo (Plain (JSON.JNumber 5))) (asking "/other") tt H))
                "/other" eq_refl)
      as (_ & _ & Hrest).
    destruct (Hrest ltac:(discriminate) ltac:(discriminate)) as (Hmissing & _).
    exact (Hmissing eq_refl).
Defined.

(** The answer that [Transport.listener] gives is the one that the
    listener writes, for a request that can be read and an answer that can
    be written. *)
Lemma listener_is_what_is_written :
  forall (S R B : Type) (run : R -> Server.RequestContext -> M S (Transport.ResponseContext B))
         (error_body : string -> B)
         (URL_pathname : string -> string -> Completion string)
         (head_error : Z -> list (string * string) -> option Thrown)
         (stringify : B -> Completion (option string))
         (this : Transport.HttpTransport R) (method0 url0 : option string) (path0 : string)
         (headers0 : list (string * Transport.HeaderValue)) (given : list string) (s s' : S)
         (response : Transport.ServerResponse B),
    takes_fixed_heads head_error ->
    (forall message, stringify (error_body message) =
                     Normal (Some (Transport.error_text message))) ->
    URL_pathname (or_default url0 "/") (base_of this) = Normal path0 ->
    Transport.listener run error_body this
      (Transport.mkIncomingMessage method0 path0 headers0 given) s = (Normal response, s') ->
    head_error (Transport.statusCode response) (Transport.response_headers response) = None ->
    (forall b, Transport.response_body response = Some b -> exists text, stringify b = Normal text) ->
    exists text,
      Transport.requestListener run URL_pathname head_error stringify this
        (Transport.mkArriving method0 url0 headers0 (Normal given)) (s, Transport.fresh) =
        (Normal tt, (s', answer (Transport.statusCode response)
                           (Transport.response_headers response) text)) /\
      match Transport.response_body response with
      | Some b => stringify b = Normal text
      | None => text = None
      end.
Proof.
  intros S R B run error_body URL_pathname head_error stringify this method0 url0 path0
         headers0 given s s' response (H204 & H404 & H500) Herr Hpath Hrun Hhead Hbody.
  rewrite (listener_cases run error_body this) in Hrun. cbv zeta in Hrun.
  rewrite (requestListener_cases run URL_pathname head_error stringify this). cbv zeta.
  cbn [Transport.arriving_url Transport.arriving_method Transport.arriving_body
       Transport.arriving_headers].
  cbn [Transport.req_method Transport.pathname Transport.req_headers Transport.chunks] in Hrun.
  fold (base_of this) plain_headers. fold plain_headers in Hrun.
  rewrite Hpath, H204, H404, H500.
  destruct (String.eqb (or_default method0 "GET") "OPTIONS").
  { injection Hrun as <- <-. exists None. split; reflexivity. }
  assert (Hgiven : exists given',
             (if String.eqb (or_default method0 "GET") "POST"
              then Normal given else Normal []) = Normal given' /\
             Transport.read_body (or_default method0 "GET") given' =
               Transport.read_body (or_default method0 "GET") given).
  { destruct (String.eqb_spec (or_default method0 "GET") "POST") as [Hp|Hp].
    - exists given. now split.
    - exists []. split; [reflexivity|]. now apply read_body_unread. }
  destruct Hgiven as (given' & -> & ->).
  destruct (map_get _ (Transport.handlers this)) as [handler|].
  2:{ injection Hrun as <- <-. eexists. split; [reflexivity|]. apply Herr. }
  destruct (run handler _ s) as [[result|e] s1].
  - injection Hrun as <- <-.
    cbn [Transport.statusCode Transport.response_headers Transport.response_body] in *.
    rewrite Hhead.
    destruct (Hbody (Transport.body result) eq_refl) as (text & Ht).
    exists text. rewrite Ht. split; reflexivity.
  - injection Hrun as <- <-. eexists. split; [reflexivity|]. apply Herr.
Qed.

(** X16. The listener does not refuse a body it cannot read: a [POST]
    whose body is not JSON (or is empty) reaches the handler with the empty
    object, exactly as a [POST] of [{}] does; with any other method the body
    is not read at all. *)
Theorem unreadable_body_becomes_empty_object :
  forall (S R B : Type) (run : R -> Server.RequestContext -> M S (Transport.ResponseContext B))
         (error_body : string -> B) (this : Transport.HttpTransport R)
         (method : option string) (path : string)
         (headers : list (string * Transport.HeaderValue)) (chunks : list string) (s : S),
    (or_default method "GET" = "POST" ->
     (forall j, JSON.parse (String.concat "" chunks) <> Normal j) ->
     Transport.listener run error_body this
       (Transport.mkIncomingMessage method path headers chunks) s =
     Transport.listener run error_body this
       (Transport.mkIncomingMessage method path headers ["{}"]) s) /\
    (or_default method "GET" <> "POST" ->
     Transport.listener run error_body this
       (Transport.mkIncomingMessage method path headers chunks) s =
     Transport.listener run error_body this
       (Transport.mkIncomingMessage method path headers []) s).
Proof.
  intros S R B run error_body this method path headers chunks s. split.
  - intros Hpost Hbad. unfold Transport.listener.
    cbn [Transport.req_method Transport.pathname Transport.req_headers Transport.chunks].
    rewrite Hpost. unfold Transport.read_body. cbn [String.eqb Ascii.eqb Bool.eqb].
    destruct (JSON.parse (String.concat "" chunks)) as [j|e] eqn:E.
    + exfalso. now apply (Hbad j).
    + reflexivity.
  - intros Hother. unfold Transport.listener.
    cbn [Transport.req_method Transport.pathname Transport.req_headers Transport.chunks].
    unfold Transport.read_body.
    destruct (String.eqb_spec (or_default method "GET") "POST"); [contradiction|reflexivity].
Qed.

Lemma unreadable_body_becomes_empty_object_witness :
  Transport.listener MCPServer.run (fun message => MCPServer.ToolCall (Server.ErrorBody message))
    (MCPServer.transport (MCPServer.new sample_config (idle accepting_verify settling)))
    (POST "/tools/ping" [] ["pong?"])
    (MCPServer.new sample_config (idle accepting_verify settling)) =
  Transport.listener MCPServer.run (fun message => MCPServer.ToolCall (Server.ErrorBody message))
    (MCPServer.transport (MCPServer.new sample_config (idle accepting_verify settling)))
    (POST "/tools/ping" [] ["{}"])
    (MCPServer.new sample_config (idle accepting_verify settling)).
Proof.
  apply (proj1 (unreadable_body_becomes_empty_object _ _ _ MCPServer.run
                  (fun message => MCPServer.ToolCall (Server.ErrorBody message))
                  (MCPServer.transport (MCPServer.new sample_config
                                          (idle accepting_verify settling)))
                  (Some "POST") "/tools/ping" [] ["pong?"]
                  (MCPServer.new sample_config (idle accepting_verify settling)))).
  - reflexivity.
  - intros j H. vm_compute in H. discriminate.
Defined.

(** ** The server: registration and routes *)





Lemma addTool_cases (options : Server.RegisteredTool) (s : MCPServer.MCPServer) :
  let name0 := Core.name (Server.definition options) in
  MCPServer.addTool options s =
    if Tools.has name0 (MCPServer.toolRegistry s)
    then (Throw (Error ("Tool " ++ name0 ++ " already registered")), s)
    else (Normal tt,
          MCPServer.mkMCPServer (MCPServer.config s)
            (map_set name0 options (MCPServer.toolRegistry s))
            (MCPServer.paymentHandler s) (MCPServer.transport s) (MCPServer.startTime s)
            (with_toolCalls (MCPServer.world s)
               (map_set name0 0 (toolCalls (MCPServer.world s))))).
Proof.
  intros name0. unfold MCPServer.addTool, bind, MCPServer.in_registry, Tools.register, Tools.has.
  fold name0. destruct (Tools.map_has name0 (MCPServer.toolRegistry s)).
  - now destruct s.
  - reflexivity.
Qed.


Lemma map_has_in {V} (k : string) (m : list (string * V)) :
  Tools.map_has k m = true -> In k (map fst m).
Proof.
  induction m as [|[k' v'] m IH]; simpl; [discriminate|].
  destruct (String.eqb_spec k' k) as [->|Hne]; [now left|].
  intros H. right. now apply IH.
Qed.

















(** X17. [addTool] registers the tool and starts its call counter at 0.  A
    second tool of the same name is refused with
    [Tool <name> already registered] and the server stays as it was: the
    first tool, its routes and the count of its calls are kept. *)
Theorem addTool_registers_once :
  forall (options : Server.RegisteredTool) (s : MCPServer.MCPServer),
    let name0 := Core.name (Server.definition options) in
    (Tools.has name0 (MCPServer.toolRegistry s) = false ->
     exists s',
       MCPServer.addTool options s = (Normal tt, s') /\
       Tools.get name0 (MCPServer.toolRegistry s') = Some options /\
       map_get name0 (toolCalls (MCPServer.world s')) = Some 0 /\
       payments (MCPServer.world s') = payments (MCPServer.world s) /\
       MCPServer.transport s' = MCPServer.transport s) /\
    (Tools.has name0 (MCPServer.toolRegistry s) = true ->
     MCPServer.addTool options s =
       (Throw (Error ("Tool " ++ name0 ++ " already registered")), s)).
Proof.
  intros options s name0.
  pose proof (addTool_cases options s) as Hcases. cbv zeta in Hcases. fold name0 in Hcases.
  split; intros Hhas; rewrite Hhas in Hcases.
  - eexists. split; [exact Hcases|]. cbn [MCPServer.toolRegistry MCPServer.world MCPServer.transport].
    unfold Tools.get. simpl. rewrite !map_get_set_same. repeat split.
  - exact Hcases.
Qed.

Lemma addTool_registers_once_witness :
  exists s',
    MCPServer.addTool sample_registered
      (MCPServer.new sample_config (idle accepting_verify settling)) = (Normal tt, s') /\
    map_get "get_ohlcv" (toolCalls (MCPServer.world s')) = Some 0 /\
    MCPServer.addTool sample_registered s' =
      (Throw (Error "Tool get_ohlcv already registered"), s').
Proof.
  destruct (proj1 (addTool_registers_once sample_registered
                     (MCPServer.new sample_config (idle accepting_verify settling))) eq_refl)
    as (s' & Hrun & Hget & Hcount & _).
  exists s'. split; [exact Hrun|]. split; [exact Hcount|].
  apply (proj2 (addTool_registers_once sample_registered s')).
  unfold Tools.has. rewrite map_has_get. unfold Tools.get in Hget. now rewrite Hget.
Defined.






(** ** Statistics *)

Lemma sum_set (f : MCPServer.Aggregate -> Z) (k : string) (v : MCPServer.Aggregate)
      (m : list (string * MCPServer.Aggregate)) :
  sum_Z (map (fun entry => f (snd entry)) (map_set k v m)) =
    sum_Z (map (fun entry => f (snd entry)) m)
    - match map_get k m with Some old => f old | None => 0 end + f v.
Proof.
  induction m as [|[k' v'] m IH]; simpl; [lia|].
  destruct (String.eqb k' k); simpl; [lia|]. rewrite IH. lia.
Qed.

Lemma aggregate_totals (payments0 : list PaymentRecord) :
  forall (acc : list (string * MCPServer.Aggregate)) (sum : Z),
    match PaymentHandler.sum_amounts payments0 sum with
    | Normal total =>
        exists stats,
          MCPServer.aggregate payments0 acc = Normal stats /\
          total_revenue stats = total_revenue acc + (total - sum) /\
          total_calls stats = total_calls acc + Z.of_nat (List.length payments0) /\
          forall name0,
            Tools.map_has name0 stats = Tools.map_has name0 acc || paid_for name0 payments0
    | Throw e => MCPServer.aggregate payments0 acc = Throw e
    end.
Proof.
  induction payments0 as [|payment rest IH]; intros acc sum.
  - simpl. exists acc. repeat split; try lia. intros name0. now rewrite orb_false_r.
  - cbn [PaymentHandler.sum_amounts MCPServer.aggregate].
    destruct (BigInt (World.amount payment)) as [a|e]; [|reflexivity].
    set (acc' := map_set (World.toolName payment) _ acc).
    specialize (IH acc' (sum + a)).
    destruct (PaymentHandler.sum_amounts rest (sum + a)) as [total|e]; [|exact IH].
    destruct IH as (stats & Hrun & Hrev & Hcalls & Hnames).
    exists stats. split; [exact Hrun|].
    unfold total_revenue, total_calls in *. unfold acc' in Hrev, Hcalls.
    rewrite sum_set in Hrev. rewrite sum_set in Hcalls.
    cbn [MCPServer.revenue MCPServer.calls] in Hrev, Hcalls.
    split; [|split].
    + rewrite Hrev. destruct (map_get (World.toolName payment) acc); simpl; lia.
    + rewrite Hcalls. cbn [List.length]. destruct (map_get (World.toolName payment) acc); simpl; lia.
    + intros name0. rewrite Hnames. unfold acc'. rewrite map_has_set. unfold paid_for.
      cbn [existsb]. destruct (String.eqb (World.toolName payment) name0); simpl.
      * now rewrite orb_true_r.
      * reflexivity.
Qed.

(** X20. The statistics by tool add up: whenever the total revenue can be
    read, the loop over the ledger returns one entry for each tool that was
    paid for, the revenues of the entries sum to the total revenue and
    their calls to the number of payments; when an amount of the ledger is
    no integer, both throw the same error. *)
Theorem tool_statistics_add_up :
  forall w : World,
    match PaymentHandler.getTotalRevenue w with
    | Normal total =>
        exists stats,
          MCPServer.aggregate (PaymentHandler.getPayments w) [] = Normal stats /\
          total_revenue stats = total /\
          total_calls stats = Z.of_nat (List.length (PaymentHandler.getPayments w)) /\
          forall name0,
            Tools.map_has name0 stats = paid_for name0 (PaymentHandler.getPayments w)
    | Throw e => MCPServer.aggregate (PaymentHandler.getPayments w) [] = Throw e
    end.
Proof.
  intros w. unfold PaymentHandler.getTotalRevenue.
  pose proof (aggregate_totals (PaymentHandler.getPayments w) [] 0) as H.
  destruct (PaymentHandler.sum_amounts (PaymentHandler.getPayments w) 0) as [total|e];
    [|exact H].
  destruct H as (stats & Hrun & Hrev & Hcalls & Hnames).
  exists stats. split; [exact Hrun|]. split; [rewrite Hrev; simpl; lia|].
  split; [rewrite Hcalls; simpl; lia|]. intros name0. now rewrite Hnames.
Qed.

Lemma paid_tools_filter (all : list Server.RegisteredTool) (kept : list Server.RegisteredTool) :
  MCPServer.paid_tools all = Normal kept -> kept = filter priced all.
Proof.
  revert kept. induction all as [|tool all IH]; intros kept; simpl.
  - now intros H; injection H as <-.
  - unfold priced at 1. unfold BigInt.
    destruct (StringToBigInt (Core.price (Server.definition tool))) as [p|]; [|discriminate].
    destruct (MCPServer.paid_tools all) as [kept'|e]; [|discriminate].
    intros H. injection H as <-. rewrite (IH kept' eq_refl).
    now destruct (0 <? p).
Qed.

(** X21. [GET /stats], when it answers, reports on the whole ledger and
    shows its end: [transactionCount] counts every payment and
    [totalRevenue] is their sum, [recentPayments] holds the last payments,
    newest first and twenty at most, and [tools] lists the registered tools
    with a price above zero, in the order of registration, each with its
    call counter; free tools are left out.  The server is left as it was. *)
Theorem stats_reports_the_ledger :
  forall (s s' : MCPServer.MCPServer) (response : Transport.ResponseContext MCPServer.Body),
    MCPServer.stats_route s = (Normal response, s') ->
    let ledger := PaymentHandler.getPayments (MCPServer.world s) in
    s' = s /\
    Transport.status response = 200 /\
    exists stats,
      Transport.body response = MCPServer.Statistics stats /\
      MCPServer.transactionCount stats = Z.of_nat (List.length ledger) /\
      (exists total, PaymentHandler.getTotalRevenue (MCPServer.world s) = Normal total /\
                     MCPServer.totalRevenue stats = toString total) /\
      MCPServer.recentPayments stats = firstn 20 (List.rev ledger) /\
      (List.length (MCPServer.recentPayments stats) <= 20)%nat /\
      map MCPServer.paid_name (MCPServer.tools stats) =
        map (fun tool => Core.name (Server.definition tool))
          (filter priced (Tools.getAll (MCPServer.toolRegistry s))) /\
      (forall entry, In entry (MCPServer.tools stats) ->
         MCPServer.paid_calls entry =
           match map_get (MCPServer.paid_name entry) (toolCalls (MCPServer.world s)) with
           | Some c => c
           | None => 0
           end).
Proof.
  intros s s' response Hrun ledger. unfold MCPServer.stats_route in Hrun. fold ledger in Hrun.
  destruct (PaymentHandler.getTotalRevenue (MCPServer.world s)) as [total|e]; [|discriminate].
  destruct (MCPServer.aggregate ledger []) as [toolStatsMap|e]; [|discriminate].
  destruct (MCPServer.paid_tools (Tools.getAll (MCPServer.toolRegistry s))) as [paid|e] eqn:Hpaid;
    [|discriminate].
  injection Hrun as <- <-. split; [reflexivity|]. split; [reflexivity|].
  eexists. split; [reflexivity|]. cbn [MCPServer.transactionCount MCPServer.totalRevenue
                                        MCPServer.recentPayments MCPServer.tools].
  split; [reflexivity|]. split; [now exists total|].
  split; [unfold MCPServer.recent; now rewrite firstn_rev|].
  split; [unfold MCPServer.recent; rewrite length_rev, length_skipn; lia|].
  split.
  - rewrite map_map. cbn [MCPServer.paid_name]. now rewrite (paid_tools_filter _ _ Hpaid).
  - intros entry Hin. apply in_map_iff in Hin. destruct Hin as (tool & <- & _). reflexivity.
Qed.

Lemma stats_reports_the_ledger_witness :
  let s := after (MCPServer.addTool ping)
             (after (MCPServer.addTool sample_registered)
                (MCPServer.new sample_config (idle accepting_verify settling))) in
  exists response stats,
    MCPServer.stats_route s = (Normal response, s) /\
    Transport.body response = MCPServer.Statistics stats /\
    map MCPServer.paid_name (MCPServer.tools stats) = ["get_ohlcv"].
Proof.
  intros s.
  destruct (MCPServer.stats_route s) as [[response|e] s'] eqn:E; [|vm_compute in E; discriminate].
  destruct (stats_reports_the_ledger s s' response E)
    as (-> & _ & stats & Hbody & _ & _ & _ & _ & Htools & _).
  exists response, stats. split; [reflexivity|]. split; [exact Hbody|]. exact Htools.
Defined.

(** ** The client: calling a tool within the budget *)

(** The call up to the challenge: the first request is sent, and the
    answer is a 402 with requirements. *)
Lemma callTool_challenged this serverUrl toolName params0 s text data requirements :
  Caller.server s (List.length (Caller.sent s)) = Caller.Answered 402 text (Some data) ->
  Caller.answer_paymentRequirements data = Some requirements ->
  let amount0 := Core.maxAmountRequired requirements in
  let first := Caller.mkRequest (serverUrl ++ "/tools/" ++ toolName) None params0 in
  let s1 := Caller.mkSession (Caller.world s) (Caller.budget s) (Caller.server s)
              (Caller.sent s ++ [first]) in
  Caller.callTool this serverUrl toolName params0 s =
    match BigInt amount0 with
    | Throw e => (Throw e, s1)
    | Normal a =>
        if Budget.spent (Caller.budget s) + a <=? Budget.total (Caller.budget s) then
          match Client.createPaymentHeader this requirements (Caller.world s) with
          | (Throw e, w) =>
              (Throw e, Caller.mkSession w (Caller.budget s) (Caller.server s)
                          (Caller.sent s ++ [first]))
          | (Normal paymentHeader, w) =>
              let second := Caller.mkRequest (serverUrl ++ "/tools/" ++ toolName)
                              (Some paymentHeader) params0 in
              let s2 := Caller.mkSession w (Caller.budget s) (Caller.server s)
                          ((Caller.sent s ++ [first]) ++ [second]) in
              match Caller.server s (List.length (Caller.sent s ++ [first])) with
              | Caller.Unreachable e => (Throw e, s2)
              | Caller.Answered status2 _ None => (Throw JSON.SyntaxError, s2)
              | Caller.Answered status2 _ (Some data2) =>
                  if response_ok status2 then
                    let txHash0 :=
                      or_default (match Caller.answer_payment data2 with
                                  | Some info => Caller.info_txHash info
                                  | None => None
                                  end) "" in
                    (Normal (Caller.mkCallToolResult (Caller.answer_result data2)
                               (Some (Caller.mkReceipt amount0 txHash0))),
                     Caller.mkSession w
                       (Budget.mkBudgetManager (Budget.total (Caller.budget s))
                          (Budget.spent (Caller.budget s) + a)
                          (Budget.transactions (Caller.budget s)
                             ++ [Budget.mkBudgetTransaction toolName serverUrl amount0 txHash0
                                   (clock w)]))
                       (Caller.server s) ((Caller.sent s ++ [first]) ++ [second]))
                  else
                    (Throw (Error ("Payment failed: "
                                   ++ or_default (Caller.answer_error data2) "Unknown error")),
                     s2)
              end
          end
        else
          (Throw (Error ("Insufficient budget: need " ++ amount0 ++ ", have "
                         ++ toString (Budget.total (Caller.budget s)
                                      - Budget.spent (Caller.budget s)))), s1)
    end.
Proof.
  intros Hanswer Hreq amount0 first s1. subst s1 first amount0.
  unfold Caller.callTool, bind at 1, Caller.fetch at 1. rewrite Hanswer.
  cbn [Caller.status response_ok Z.leb Z.compare Pos.compare Pos.compare_cont andb Z.eqb Pos.eqb].
  unfold bind at 1, Caller.json at 1. cbn [Caller.body]. unfold ret at 1. rewrite Hreq.
  unfold bind at 1, Caller.in_budget at 1, Budget.canSpend. cbn [Caller.budget].
  destruct (BigInt (Core.maxAmountRequired requirements)) as [a|e] eqn:E; [|reflexivity].
  destruct (Budget.spent (Caller.budget s) + a <=? Budget.total (Caller.budget s));
    cbn [negb]; [|reflexivity].
  unfold bind at 1, Caller.in_world at 1. cbn [Caller.world].
  destruct (Client.createPaymentHeader this requirements (Caller.world s))
    as [[paymentHeader|e] w]; [|reflexivity].
  unfold bind at 1, Caller.fetch at 1. cbn [Caller.server Caller.sent Caller.world Caller.budget].
  destruct (Caller.server s (List.length (Caller.sent s ++ _)))
    as [e|status2 text2 [data2|]].
  - reflexivity.
  - cbn [Caller.status]. destruct (response_ok status2); cbn [negb]; [|reflexivity].
    unfold bind at 1, Caller.json at 1. cbn [Caller.body]. unfold ret at 1.
    unfold bind at 1, Caller.in_world at 1, Date_now. cbn [Caller.world].
    unfold bind at 1, Caller.in_budget at 1, Budget.recordSpending. cbn [Caller.budget].
    cbn [Budget.entry_amount Budget.entry_toolName Budget.entry_serverUrl Budget.entry_txHash].
    rewrite E. reflexivity.
  - cbn [Caller.status]. destruct (response_ok status2); reflexivity.
Qed.

(** A call that is not challenged for a payment ends after its first
    request. *)
Lemma callTool_unchallenged this serverUrl toolName params0 s :
  (forall text data requirements,
      Caller.server s (List.length (Caller.sent s)) = Caller.Answered 402 text (Some data) ->
      Caller.answer_paymentRequirements data = Some requirements -> False) ->
  exists r,
    Caller.callTool this serverUrl toolName params0 s =
      (r, Caller.mkSession (Caller.world s) (Caller.budget s) (Caller.server s)
            (Caller.sent s
               ++ [Caller.mkRequest (serverUrl ++ "/tools/" ++ toolName) None params0])).
Proof.
  intros Hnot.
  unfold Caller.callTool, bind at 1, Caller.fetch at 1.
  destruct (Caller.server s (List.length (Caller.sent s))) as [e|status0 text [data|]] eqn:Hanswer.
  - eexists. reflexivity.
  - cbn [Caller.status]. destruct (response_ok status0); [eexists; reflexivity|].
    destruct (Z.eqb_spec status0 402) as [->|Hne]; [|eexists; reflexivity].
    unfold bind at 1, Caller.json at 1. cbn [Caller.body]. unfold ret at 1.
    destruct (Caller.answer_paymentRequirements data) as [requirements|] eqn:Hreq;
      [|eexists; reflexivity].
    exfalso. exact (Hnot text data requirements eq_refl Hreq).
  - cbn [Caller.status]. destruct (response_ok status0); [eexists; reflexivity|].
    destruct (status0 =? 402); eexists; reflexivity.
Qed.

(** Every call leaves the budget as it was, or adds one transaction whose
    amount the budget covered. *)
Lemma callTool_budget this serverUrl toolName params0 s :
  let s' := snd (Caller.callTool this serverUrl toolName params0 s) in
  Caller.server s' = Caller.server s /\
  (Caller.budget s' = Caller.budget s \/
   exists a tx,
     StringToBigInt (Budget.amount tx) = Some a /\
     Budget.spent (Caller.budget s) + a <= Budget.total (Caller.budget s) /\
     Caller.budget s' =
       Budget.mkBudgetManager (Budget.total (Caller.budget s))
         (Budget.spent (Caller.budget s) + a)
         (Budget.transactions (Caller.budget s) ++ [tx])).
Proof.
  intros s'. subst s'.
  destruct (Caller.server s (List.length (Caller.sent s))) as [e|status0 text [data|]] eqn:Hanswer.
  1,3: destruct (callTool_unchallenged this serverUrl toolName params0 s) as [r ->];
    [intros text0 data0 requirements H; rewrite Hanswer in H; discriminate|simpl; auto].
  destruct (Z.eqb_spec status0 402) as [->|Hne].
  2:{ destruct (callTool_unchallenged this serverUrl toolName params0 s) as [r ->];
        [|simpl; auto].
      intros text0 data0 requirements H. rewrite Hanswer in H. injection H as H _ _.
      congruence. }
  destruct (Caller.answer_paymentRequirements data) as [requirements|] eqn:Hreq.
  2:{ destruct (callTool_unchallenged this serverUrl toolName params0 s) as [r ->];
        [|simpl; auto].
      intros text0 data0 requirements H Hr. rewrite Hanswer in H. injection H as _ <-.
      congruence. }
  rewrite (callTool_challenged this serverUrl toolName params0 s text data requirements
             Hanswer Hreq). cbv zeta.
  unfold BigInt.
  destruct (StringToBigInt (Core.maxAmountRequired requirements)) as [a|] eqn:Ha;
    [|simpl; auto].
  destruct (Budget.spent (Caller.budget s) + a <=? Budget.total (Caller.budget s)) eqn:Hle;
    [|simpl; auto].
  apply Z.leb_le in Hle.
  destruct (Client.createPaymentHeader this requirements (Caller.world s))
    as [[paymentHeader|e] w]; [|simpl; auto].
  match goal with
  | |- context [Caller.server s (List.length (?l ++ ?x))] =>
      destruct (Caller.server s (List.length (l ++ x))) as [e|status2 text2 [data2|]]
  end; try (simpl; now auto).
  destruct (response_ok status2); [|simpl; auto].
  simpl. split; [reflexivity|]. right. eexists. eexists.
  split; [|split; [exact Hle|reflexivity]]. exact Ha.
Qed.

(** X22. The client does not pay beyond its budget.  When the server asks
    for an amount that would take the spending above the total, [callTool]
    throws [Insufficient budget: need <amount>, have <remaining>] after the
    first request: no payment header is made or sent, and the budget is
    unchanged.  A client created without [maxBudget] has a budget of 0. *)
Theorem over_budget_call_is_not_paid :
  forall (this : Client.MCPClient) (serverUrl toolName : string) (params0 : JSON.Json)
         (s : Caller.Session) (text : string) (data : Caller.AnswerBody)
         (requirements : Core.PaymentRequirements) (a : Z),
    Caller.server s (List.length (Caller.sent s)) = Caller.Answered 402 text (Some data) ->
    Caller.answer_paymentRequirements data = Some requirements ->
    StringToBigInt (Core.maxAmountRequired requirements) = Some a ->
    Budget.spent (Caller.budget s) + a > Budget.total (Caller.budget s) ->
    Caller.callTool this serverUrl toolName params0 s =
      (Throw (Error ("Insufficient budget: need " ++ Core.maxAmountRequired requirements
                     ++ ", have " ++ toString (Budget.getRemaining (Caller.budget s)))),
       Caller.mkSession (Caller.world s) (Caller.budget s) (Caller.server s)
         (Caller.sent s
            ++ [Caller.mkRequest (serverUrl ++ "/tools/" ++ toolName) None params0])) /\
    Caller.initial_budget None = Normal (Budget.mkBudgetManager 0 0 []) /\
    Caller.initial_budget (Some "") = Normal (Budget.mkBudgetManager 0 0 []).
Proof.
  intros this serverUrl toolName params0 s text data requirements a Hanswer Hreq Ha Hover.
  split; [|split; reflexivity].
  rewrite (callTool_challenged this serverUrl toolName params0 s text data requirements
             Hanswer Hreq). cbv zeta.
  unfold BigInt. rewrite Ha.
  assert (E : (Budget.spent (Caller.budget s) + a <=? Budget.total (Caller.budget s)) = false)
    by (apply Z.leb_gt; lia).
  rewrite E. reflexivity.
Qed.

Lemma over_budget_call_is_not_paid_witness :
  Caller.callTool sample_caller "http://localhost:3001" "get_ohlcv" (JSON.JObject [])
    (session 500 0 (fun _ => challenge sample_requirements)) =
    (Throw (Error "Insufficient budget: need 1000, have 500"),
     Caller.mkSession (at_time 1700000000000) (Budget.mkBudgetManager 500 0 [])
       (fun _ => challenge sample_requirements)
       [Caller.mkRequest "http://localhost:3001/tools/get_ohlcv" None (JSON.JObject [])]).
Proof.
  exact (proj1 (over_budget_call_is_not_paid sample_caller "http://localhost:3001" "get_ohlcv"
                  (JSON.JObject []) (session 500 0 (fun _ => challenge sample_requirements))
                  "Payment Required"
                  (Caller.mkAnswerBody None None (Some sample_requirements)
                     (Some "Payment Required"))
                  sample_requirements 1000 eq_refl eq_refl eq_refl ltac:(simpl; lia))).
Defined.

Lemma callEach_budget this calls : forall s,
  let s' := snd (Caller.callEach this calls s) in
  Budget.total (Caller.budget s') = Budget.total (Caller.budget s) /\
  (within_budget s -> within_budget s') /\
  exists added, Budget.transactions (Caller.budget s') =
                  (Budget.transactions (Caller.budget s) ++ added)%list.
Proof.
  induction calls as [|[[serverUrl toolName] params0] calls IH]; intros s.
  - simpl. repeat split; auto. exists []. now rewrite List.app_nil_r.
  - cbn [Caller.callEach].
    pose proof (callTool_budget this serverUrl toolName params0 s) as Hstep. cbv zeta in Hstep.
    destruct (Caller.callTool this serverUrl toolName params0 s) as [r s1].
    specialize (IH s1). cbv zeta in IH.
    destruct (Caller.callEach this calls s1) as [rs s2]. simpl in *.
    destruct IH as (Htotal & Hwithin & added & Htxs).
    destruct Hstep as (_ & [Hsame|(a & tx & _ & Hle & Hb)]).
    + rewrite Hsame in *. unfold within_budget in *. rewrite Hsame in Hwithin.
      repeat split; auto. now exists added.
    + unfold within_budget in *. rewrite Hb in *. simpl in *.
      split; [exact Htotal|]. split; [intros _; apply Hwithin; exact Hle|].
      exists ([tx] ++ added)%list. now rewrite Htxs, <- List.app_assoc.
Qed.

(** X23. Whatever the servers answer, a client that calls tools one after
    the other, awaiting each call before it makes the next, stays within
    its budget: if the spending did not exceed the total before, it does
    not exceed it after any number of such calls, successful or not.  The
    total is not changed by calling, and the history of transactions only
    grows.  Calls that overlap are another matter: between [canSpend] and
    [recordSpending] a call awaits three times, and two calls can both
    pass the check ([overlapping_calls_overspend] below). *)
Theorem spending_stays_within_budget :
  forall (this : Client.MCPClient) (calls : list (string * string * JSON.Json))
         (s : Caller.Session),
    within_budget s ->
    let s' := snd (Caller.callEach this calls s) in
    within_budget s' /\
    Budget.getRemaining (Caller.budget s') >= 0 /\
    Budget.total (Caller.budget s') = Budget.total (Caller.budget s) /\
    exists added, Budget.getTransactions (Caller.budget s') =
                    (Budget.getTransactions (Caller.budget s) ++ added)%list.
Proof.
  intros this calls s Hwithin s'.
  destruct (callEach_budget this calls s) as (Htotal & Hkeep & Hadded).
  fold s' in Htotal, Hkeep, Hadded.
  split; [now apply Hkeep|]. split; [|split; [exact Htotal|exact Hadded]].
  specialize (Hkeep Hwithin). unfold within_budget, Budget.getRemaining in *. lia.
Qed.

Lemma spending_stays_within_budget_witness :
  within_budget
    (snd (Caller.callEach sample_caller
            [("http://localhost:3001", "get_ohlcv", JSON.JObject []);
             ("http://localhost:3001", "get_ohlcv", JSON.JObject [])]
            (session 1500 0
               (fun n => if Nat.even n then challenge sample_requirements
                         else served (JSON.JString "candles") "0xabc")))).
Proof.
  apply (spending_stays_within_budget sample_caller
           [("http://localhost:3001", "get_ohlcv", JSON.JObject []);
            ("http://localhost:3001", "get_ohlcv", JSON.JObject [])]
           (session 1500 0
              (fun n => if Nat.even n then challenge sample_requirements
                        else served (JSON.JString "candles") "0xabc"))).
  unfold within_budget. simpl. lia.
Defined.

(** [callTool] is its two parts, one after the other. *)
Lemma callTool_asks_ends this serverUrl toolName params0 s :
  Caller.callTool this serverUrl toolName params0 s =
    (x <- Caller.callTool_asks this serverUrl toolName params0 ;; Caller.callTool_ends x)%js s.
Proof.
  unfold Caller.callTool, Caller.callTool_asks, Caller.callTool_ends, Caller.callTool_pays,
    bind, ret, throw.
  destruct (Caller.fetch _ s) as [[response|e] s1]; [|reflexivity].
  destruct (response_ok (Caller.status response)).
  { destruct (Caller.json response s1) as [[data|e] s2]; reflexivity. }
  destruct (Caller.status response =? 402).
  2:{ destruct (Caller.json response s1) as [[data|e] s2]; reflexivity. }
  destruct (Caller.json response s1) as [[data|e] s2]; [|reflexivity].
  destruct (Caller.answer_paymentRequirements data) as [requirements|]; [|reflexivity].
  destruct (Caller.in_budget _ s2) as [[affordable|e] s3]; [|reflexivity].
  destruct affordable; [|reflexivity].
  cbn [negb].
  destruct (Caller.in_world _ s3) as [[paymentHeader|e] s4]; reflexivity.
Qed.

(** Awaiting each call matters.  With a total of 100 and a tool that costs
    60, two calls that overlap both pass [canSpend] before either records
    its spending: both are paid, and 120 is spent.  Made one after the
    other, the second call is refused. *)
Example overlapping_calls_overspend :
  let call := ("http://localhost:3001", "get_ohlcv", JSON.JObject []) in
  let s := session 100 0 challenges_twice in
  let together := Caller.overlapping sample_caller call call s in
  let in_turn :=
    Caller.callEach sample_caller [call; call]
      (session 100 0 (fun n => if (n =? 1)%nat then served (JSON.JString "candles") "0xabc"
                               else challenge costing_60)) in
  within_budget s /\
  (exists result1 result2, fst together = Normal (result1, result2)) /\
  Budget.getSpent (Caller.budget (snd together)) = 120 /\
  Budget.getRemaining (Caller.budget (snd together)) = -20 /\
  ~ within_budget (snd together) /\
  (exists result1,
      fst in_turn = [Normal result1; Throw (Error "Insufficient budget: need 60, have 40")]) /\
  Budget.getSpent (Caller.budget (snd in_turn)) = 60.
Proof.
  vm_compute. split; [discriminate|]. split; [eexists; eexists; reflexivity|].
  split; [reflexivity|]. split; [reflexivity|]. split; [intros H; now apply H|].
  split; [eexists; reflexivity|reflexivity].
Qed.


(** X24. A call that is paid and served is recorded: the client sends the
    request again with the header it has signed for the requirements of
    the challenge, returns the result with the amount and the transaction
    hash of the answer (or the empty text), and the budget manager holds one
    more transaction, of that amount, at the time of the clock; the spending
    has grown by exactly the amount that the server asked for. *)
Theorem paid_call_is_recorded :
  forall (this : Client.MCPClient) (serverUrl toolName : string) (params0 : JSON.Json)
         (s : Caller.Session) (text text2 : string) (data data2 : Caller.AnswerBody)
         (requirements : Core.PaymentRequirements) (a status2 : Z)
         (paymentHeader : string) (w : World),
    Caller.server s (List.length (Caller.sent s)) = Caller.Answered 402 text (Some data) ->
    Caller.answer_paymentRequirements data = Some requirements ->
    StringToBigInt (Core.maxAmountRequired requirements) = Some a ->
    Budget.spent (Caller.budget s) + a <= Budget.total (Caller.budget s) ->
    Client.createPaymentHeader this requirements (Caller.world s) = (Normal paymentHeader, w) ->
    Caller.server s (S (List.length (Caller.sent s))) =
      Caller.Answered status2 text2 (Some data2) ->
    response_ok status2 = true ->
    let address := serverUrl ++ "/tools/" ++ toolName in
    let txHash0 :=
      or_default (match Caller.answer_payment data2 with
                  | Some info => Caller.info_txHash info
                  | None => None
                  end) "" in
    exists s',
      Caller.callTool this serverUrl toolName params0 s =
        (Normal (Caller.mkCallToolResult (Caller.answer_result data2)
                   (Some (Caller.mkReceipt (Core.maxAmountRequired requirements) txHash0))),
         s') /\
      Caller.sent s' =
        (Caller.sent s ++ [Caller.mkRequest address None params0;
                           Caller.mkRequest address (Some paymentHeader) params0])%list /\
      Budget.getSpent (Caller.budget s') = Budget.getSpent (Caller.budget s) + a /\
      Budget.getTransactions (Caller.budget s') =
        (Budget.getTransactions (Caller.budget s)
           ++ [Budget.mkBudgetTransaction toolName serverUrl
                 (Core.maxAmountRequired requirements) txHash0 (clock w)])%list.
Proof.
  intros this serverUrl toolName params0 s text text2 data data2 requirements a status2
         paymentHeader w Hanswer Hreq Ha Hle Hheader Hanswer2 Hok address txHash0.
  rewrite (callTool_challenged this serverUrl toolName params0 s text data requirements
             Hanswer Hreq). cbv zeta.
  unfold BigInt. rewrite Ha.
  apply Z.leb_le in Hle. rewrite Hle, Hheader.
  rewrite length_app. cbn [List.length]. rewrite Nat.add_1_r, Hanswer2, Hok.
  eexists. split; [reflexivity|]. cbn [Caller.sent Caller.budget].
  split; [now rewrite <- List.app_assoc|]. split; reflexivity.
Qed.

Lemma paid_call_is_recorded_witness :
  exists s',
    Caller.callTool sample_caller "http://localhost:3001" "get_ohlcv" (JSON.JObject [])
      (session 5000 0
         (fun n => if Nat.even n then challenge sample_requirements
                   else served (JSON.JString "candles") "0xabc")) =
      (Normal (Caller.mkCallToolResult (Some (JSON.JString "candles"))
                 (Some (Caller.mkReceipt "1000" "0xabc"))), s') /\
    Budget.getSpent (Caller.budget s') = 1000.
Proof.
  destruct (Client.createPaymentHeader sample_caller sample_requirements
              (at_time 1700000000000)) as [[paymentHeader|e] w] eqn:E;
    [|vm_compute in E; discriminate].
  destruct (paid_call_is_recorded sample_caller "http://localhost:3001" "get_ohlcv"
              (JSON.JObject [])
              (session 5000 0
                 (fun n => if Nat.even n then challenge sample_requirements
                           else served (JSON.JString "candles") "0xabc"))
              "Payment Required" "OK"
              (Caller.mkAnswerBody None None (Some sample_requirements)
                 (Some "Payment Required"))
              (Caller.mkAnswerBody (Some (JSON.JString "candles"))
                 (Some (Caller.mkPaymentInfo (Some "0xabc"))) None None)
              sample_requirements 1000 200 paymentHeader w
              eq_refl eq_refl eq_refl ltac:(simpl; lia) E eq_refl eq_refl)
    as (s' & Hrun & _ & Hspent & _).
  exists s'. split; [exact Hrun|exact Hspent].
Defined.

(** X25. A payment that the server does not honour is not recorded: when
    the answer to the paid request is not a 2xx, [callTool] throws
    [Payment failed: <error>] ([Unknown error] when the body names none),
    and the budget is as before, although the signed header has been
    sent. *)
Theorem refused_payment_is_not_recorded :
  forall (this : Client.MCPClient) (serverUrl toolName : string) (params0 : JSON.Json)
         (s : Caller.Session) (text text2 : string) (data data2 : Caller.AnswerBody)
         (requirements : Core.PaymentRequirements) (a status2 : Z)
         (paymentHeader : string) (w : World),
    Caller.server s (List.length (Caller.sent s)) = Caller.Answered 402 text (Some data) ->
    Caller.answer_paymentRequirements data = Some requirements ->
    StringToBigInt (Core.maxAmountRequired requirements) = Some a ->
    Budget.spent (Caller.budget s) + a <= Budget.total (Caller.budget s) ->
    Client.createPaymentHeader this requirements (Caller.world s) = (Normal paymentHeader, w) ->
    Caller.server s (S (List.length (Caller.sent s))) =
      Caller.Answered status2 text2 (Some data2) ->
    response_ok status2 = false ->
    let address := serverUrl ++ "/tools/" ++ toolName in
    exists s',
      Caller.callTool this serverUrl toolName params0 s =
        (Throw (Error ("Payment failed: "
                       ++ or_default (Caller.answer_error data2) "Unknown error")), s') /\
      Caller.budget s' = Caller.budget s /\
      Caller.sent s' =
        (Caller.sent s ++ [Caller.mkRequest address None params0;
                           Caller.mkRequest address (Some paymentHeader) params0])%list.
Proof.
  intros this serverUrl toolName params0 s text text2 data data2 requirements a status2
         paymentHeader w Hanswer Hreq Ha Hle Hheader Hanswer2 Hok address.
  rewrite (callTool_challenged this serverUrl toolName params0 s text data requirements
             Hanswer Hreq). cbv zeta.
  unfold BigInt. rewrite Ha.
  apply Z.leb_le in Hle. rewrite Hle, Hheader.
  rewrite length_app. cbn [List.length]. rewrite Nat.add_1_r, Hanswer2, Hok.
  eexists. split; [reflexivity|]. cbn [Caller.sent Caller.budget].
  split; [reflexivity|now rewrite <- List.app_assoc].
Qed.

Lemma refused_payment_is_not_recorded_witness :
  exists s',
    Caller.callTool sample_caller "http://localhost:3001" "get_ohlcv" (JSON.JObject [])
      (session 5000 0
         (fun n => if Nat.even n then challenge sample_requirements
                   else refused "Payment invalid: Settlement failed: insufficient_funds")) =
      (Throw (Error "Payment failed: Payment invalid: Settlement failed: insufficient_funds"),
       s') /\
    Caller.budget s' = Budget.mkBudgetManager 5000 0 [].
Proof.
  destruct (Client.createPaymentHeader sample_caller sample_requirements
              (at_time 1700000000000)) as [[paymentHeader|e] w] eqn:E;
    [|vm_compute in E; discriminate].
  destruct (refused_payment_is_not_recorded sample_caller "http://localhost:3001" "get_ohlcv"
              (JSON.JObject [])
              (session 5000 0
                 (fun n => if Nat.even n then challenge sample_requirements
                           else refused "Payment invalid: Settlement failed: insufficient_funds"))
              "Payment Required" "Payment Required"
              (Caller.mkAnswerBody None None (Some sample_requirements)
                 (Some "Payment Required"))
              (Caller.mkAnswerBody None None None
                 (Some "Payment invalid: Settlement failed: insufficient_funds"))
              sample_requirements 1000 402 paymentHeader w
              eq_refl eq_refl eq_refl ltac:(simpl; lia) E eq_refl eq_refl)
    as (s' & Hrun & Hbudget & _).
  exists s'. split; [exact Hrun|exact Hbudget].
Defined.

(** ** Payment headers: alphabet, validation and the two signers *)

Lemma base64_char_in_alphabet (n : Z) :
  0 <= n < 64 -> in_alphabet (Buffer.base64_char n) = true.
Proof.
  intros H. rewrite <- (Z2Nat.id n) by lia.
  assert (Hk : (Z.to_nat n < 64)%nat) by lia.
  revert Hk. generalize (Z.to_nat n). clear H. intros k Hk.
  do 64 (destruct k as [|k]; [reflexivity|]). lia.
Qed.

Lemma toString_base64_valid (b : Buffer.Buffer) :
  valid_base64 (Buffer.toString_base64 b) = true /\
  exists k, String.length (Buffer.toString_base64 b) = (4 * k)%nat.
Proof.
  induction b as [|x|x y|x y z r IH] using list_ind3.
  - split; [reflexivity|]. now exists O.
  - pose proof (code_range x) as Hx. split; [|now exists 1%nat].
    cbn [Buffer.toString_base64 valid_base64].
    rewrite !base64_char_in_alphabet by (Z.div_mod_to_equations; lia). reflexivity.
  - pose proof (code_range x) as Hx. pose proof (code_range y) as Hy.
    split; [|now exists 1%nat].
    cbn [Buffer.toString_base64 valid_base64].
    rewrite !base64_char_in_alphabet by (Z.div_mod_to_equations; lia). reflexivity.
  - pose proof (code_range x) as Hx. pose proof (code_range y) as Hy.
    pose proof (code_range z) as Hz. destruct IH as (IH & k & Hk). split.
    + cbn [Buffer.toString_base64 valid_base64].
      rewrite !base64_char_in_alphabet by (Z.div_mod_to_equations; lia).
      rewrite IH. now destruct (Buffer.toString_base64 r).
    + exists (S k). cbn [Buffer.toString_base64 String.length]. rewrite Hk. lia.
Qed.

(** X26. What the encoders write is well-formed base64: [encodePaymentHeader]
    returns, for every value, groups of four characters of the alphabet of
    RFC 4648 with [=] padding at the end only, which decode to the JSON text
    of the value; a value with integer numbers and no repeated key is read
    back by [parsePaymentHeader].  The headers of both [createPaymentHeader]
    functions are of this form. *)
Theorem encoded_header_is_padded_base64 :
  forall j : JSON.Json,
    valid_base64 (Core.encodePaymentHeader j) = true /\
    (exists k, String.length (Core.encodePaymentHeader j) = (4 * k)%nat) /\
    header_text (Core.encodePaymentHeader j) = JSON.stringify j /\
    (clean j = true -> Core.parsePaymentHeader (Core.encodePaymentHeader j) = Normal j) /\
    (forall wallet requirements network w header w',
        Signing.createPaymentHeader wallet requirements network w = (Normal header, w') ->
        valid_base64 header = true) /\
    (forall this requirements w header w',
        Client.createPaymentHeader this requirements w = (Normal header, w') ->
        valid_base64 header = true).
Proof.
  intros j. unfold Core.encodePaymentHeader.
  split; [apply toString_base64_valid|]. split; [apply toString_base64_valid|].
  split; [apply header_text_encode|]. split; [apply parse_encode|]. split.
  - intros wallet requirements network w header w' Hrun.
    destruct (signing_header_is_encoding _ _ _ _ _ _ Hrun) as (p & _ & -> & _).
    apply toString_base64_valid.
  - intros this requirements w header w' Hrun.
    destruct (client_header_is_encoding _ _ _ _ _ Hrun) as (p & _ & -> & _).
    apply toString_base64_valid.
Qed.

Lemma encoded_header_is_padded_base64_witness :
  Core.parsePaymentHeader (Core.encodePaymentHeader (Signing.to_json sample_payload)) =
    Normal (Signing.to_json sample_payload).
Proof.
  exact (proj1 (proj2 (proj2 (proj2
           (encoded_header_is_padded_base64 (Signing.to_json sample_payload))))) eq_refl).
Defined.

Lemma truthy_nonempty (s : string) : s <> EmptyString -> truthy s = true.
Proof. intros H. unfold truthy. destruct (String.eqb_spec s ""); [contradiction|reflexivity]. Qed.

(** X27. The payload that [createPaymentHeader] of the payment package
    builds passes [validatePaymentPayload] whenever the requirements name a
    network and an asset and the nonce and the signature are not empty; a
    missing scheme is replaced by [exact].  The payload of the client
    passes under the same conditions when the requirements name a scheme,
    which the client copies as it is. *)
Theorem signed_payload_passes_validation :
  forall (requirements : Core.PaymentRequirements) (w w' : World)
         (payload : Signing.CronosPaymentPayload),
    Core.network requirements <> EmptyString ->
    Core.asset requirements <> EmptyString ->
    nonce_source w (nonces w) <> EmptyString ->
    Signing.signature (Signing.payload payload) <> EmptyString ->
    (forall wallet network,
        Signing.createPaymentPayload wallet requirements network w = (Normal payload, w') ->
        Signing.validatePaymentPayload payload = true) /\
    (forall this,
        Client.createPaymentPayload this requirements w = (Normal payload, w') ->
        Signing.validatePaymentPayload payload = truthy (Core.scheme requirements)).
Proof.
  intros requirements w w' payload Hnet Hasset Hnonce Hsig. split.
  - intros wallet network. unfold Signing.createPaymentPayload.
    unfold bind, Signing.generateNonce, random_nonce, Date_now, ret, lift. simpl.
    destruct (BigInt (Core.maxAmountRequired requirements)) as [value0|e]; [|discriminate].
    destruct (Signing.signTypedData wallet _ _) as [signature0|e]; [|discriminate].
    intros H. injection H as <- _. simpl in Hsig.
    unfold Signing.validatePaymentPayload. simpl.
    rewrite (truthy_nonempty _ Hnet), (truthy_nonempty _ Hasset), (truthy_nonempty _ Hnonce),
      (truthy_nonempty _ Hsig).
    destruct (truthy (Core.scheme requirements)) eqn:E; [now rewrite E|reflexivity].
  - intros this. unfold Client.createPaymentPayload.
    destruct (Client.wallet this) as [wallet0|]; [|discriminate].
    unfold bind, Client.generateNonce, random_nonce, Core.calculateValidBefore, bind, Date_now,
      ret, lift. simpl.
    destruct (BigInt (Core.maxAmountRequired requirements)) as [value0|e]; [|discriminate].
    destruct (Signing.signTypedData wallet0 _ _) as [signature0|e]; [|discriminate].
    intros H. injection H as <- _. simpl in Hsig.
    unfold Signing.validatePaymentPayload. simpl.
    rewrite (truthy_nonempty _ Hnet), (truthy_nonempty _ Hasset), (truthy_nonempty _ Hnonce),
      (truthy_nonempty _ Hsig).
    now destruct (truthy (Core.scheme requirements)).
Qed.

Lemma signed_payload_passes_validation_witness :
  exists payload w',
    Signing.createPaymentPayload sample_wallet sample_requirements Core.testnet
      (at_time 1700000000000) = (Normal payload, w') /\
    Signing.validatePaymentPayload payload = true.
Proof.
  destruct (Signing.createPaymentPayload sample_wallet sample_requirements Core.testnet
              (at_time 1700000000000)) as [[payload|e] w'] eqn:E;
    [|vm_compute in E; discriminate].
  exists payload, w'. split; [reflexivity|].
  refine (proj1 (signed_payload_passes_validation sample_requirements (at_time 1700000000000)
                   w' payload _ _ _ _) sample_wallet Core.testnet E);
    try discriminate.
  vm_compute in E. injection E as <- _. discriminate.
Defined.

(** X28. On requirements that allow 300 seconds and name a scheme, as the
    payment handler of a server writes them, the two implementations of
    [createPaymentHeader] do the same: for the same wallet, network, clock
    and nonce the payment package and the client return the same header
    (or throw the same error) and leave the same state. *)
Theorem both_signers_agree_on_server_requirements :
  forall (wallet : Signing.Wallet) (network : Core.Network)
         (requirements : Core.PaymentRequirements) (w : World),
    Core.maxTimeoutSeconds requirements = 300 ->
    Core.scheme requirements <> EmptyString ->
    Signing.createPaymentHeader wallet requirements network w =
      Client.createPaymentHeader (Client.mkMCPClient network (Some wallet)) requirements w /\
    (forall (handler : PaymentHandler.PaymentHandler) (tool : Core.PricedTool)
            (resource0 : string),
        Signing.createPaymentHeader wallet
          (PaymentHandler.createPaymentRequirements handler tool resource0) network w =
        Client.createPaymentHeader (Client.mkMCPClient network (Some wallet))
          (PaymentHandler.createPaymentRequirements handler tool resource0) w).
Proof.
  assert (Hagree : forall wallet network requirements w,
            Core.maxTimeoutSeconds requirements = 300 ->
            Core.scheme requirements <> EmptyString ->
            Signing.createPaymentHeader wallet requirements network w =
              Client.createPaymentHeader (Client.mkMCPClient network (Some wallet))
                requirements w).
  { intros wallet network requirements w Hseconds Hscheme.
    unfold Signing.createPaymentHeader, Client.createPaymentHeader,
      Signing.createPaymentPayload, Client.createPaymentPayload.
    cbn [Client.wallet Client.config_network].
    unfold bind, Signing.generateNonce, Client.generateNonce, random_nonce,
      Core.calculateValidBefore, bind, Date_now, ret, lift. simpl.
    rewrite Hseconds, (truthy_nonempty _ Hscheme).
    destruct (BigInt (Core.maxAmountRequired requirements)) as [value0|e]; [|reflexivity].
    unfold Core.TIMEOUTS_PAYMENT_VALIDITY.
    destruct (Signing.signTypedData wallet _ _) as [signature0|e]; reflexivity. }
  intros wallet network requirements w Hseconds Hscheme.
  split; [now apply Hagree|].
  intros handler tool resource0. apply Hagree; [reflexivity|discriminate].
Qed.

Lemma both_signers_agree_on_server_requirements_witness :
  Signing.createPaymentHeader sample_wallet sample_requirements Core.testnet
    (at_time 1700000000000) =
  Client.createPaymentHeader sample_caller sample_requirements (at_time 1700000000000).
Proof.
  exact (proj1 (both_signers_agree_on_server_requirements sample_wallet Core.testnet
                  sample_requirements (at_time 1700000000000) eq_refl ltac:(discriminate))).
Defined.

(** ** The budget manager at its edges *)

(** X29. [recordSpending] appends the transaction before it converts the
    amount: a call whose amount is no integer literal throws the
    [SyntaxError] of [BigInt] and adds nothing to [spent], yet its
    transaction stays in the history.  [canSpend] with such an amount throws
    as well and changes nothing. *)
Theorem malformed_amount_stays_in_history :
  forall (this : Budget.BudgetManager) (now : Z) (entry : Budget.SpendingEntry),
    StringToBigInt (Budget.entry_amount entry) = None ->
    exists this',
      Budget.recordSpending now entry this =
        (Throw (ErrorObject "SyntaxError"
                  ("Cannot convert " ++ Budget.entry_amount entry ++ " to a BigInt")), this') /\
      Budget.getSpent this' = Budget.getSpent this /\
      Budget.getRemaining this' = Budget.getRemaining this /\
      Budget.getTransactions this' = (Budget.getTransactions this ++ [stamp (now, entry)])%list /\
      recorded_total (Budget.getTransactions this') = None /\
      Budget.canSpend (Budget.entry_amount entry) this =
        (Throw (ErrorObject "SyntaxError"
                  ("Cannot convert " ++ Budget.entry_amount entry ++ " to a BigInt")), this).
Proof.
  intros this now entry Hbad.
  unfold Budget.recordSpending, Budget.canSpend, BigInt. rewrite Hbad.
  eexists. split; [reflexivity|]. repeat split.
  unfold Budget.getTransactions. simpl.
  induction (Budget.transactions this) as [|tx txs IH]; simpl.
  - now rewrite Hbad.
  - rewrite IH. now destruct (StringToBigInt (Budget.amount tx)).
Qed.

Lemma malformed_amount_stays_in_history_witness :
  exists this',
    Budget.recordSpending 1700000000000
      (Budget.mkSpendingEntry "get_ohlcv" "http://localhost:3001" "0.001" "0xabc")
      (Budget.mkBudgetManager 5000 0 []) =
      (Throw (ErrorObject "SyntaxError" "Cannot convert 0.001 to a BigInt"), this') /\
    Budget.getSpent this' = 0 /\
    List.length (Budget.getTransactions this') = 1%nat.
Proof.
  destruct (malformed_amount_stays_in_history (Budget.mkBudgetManager 5000 0 []) 1700000000000
              (Budget.mkSpendingEntry "get_ohlcv" "http://localhost:3001" "0.001" "0xabc")
              eq_refl) as (this' & Hrun & Hspent & _ & Htxs & _).
  exists this'. split; [exact Hrun|]. split; [exact Hspent|]. now rewrite Htxs.
Defined.

(** X30. [reset] sets [spent] to 0 and empties the history while the total
    stays, so that the whole total remains.  [setTotal] changes the total
    only; it does not look at what was spent, so a total below [spent]
    leaves a negative remainder, with which no amount of 0 or more can be
    spent; a new total that is no integer literal throws and changes
    nothing. *)
Theorem reset_and_setTotal :
  forall (this : Budget.BudgetManager) (newTotal : string),
    (exists this',
        Budget.reset this = (Normal tt, this') /\
        Budget.getSpent this' = 0 /\ Budget.getTransactions this' = [] /\
        Budget.getRemaining this' = Budget.total this /\
        forall serverUrl, Budget.getTransactionsByServer serverUrl this' = []) /\
    (forall t, StringToBigInt newTotal = Some t ->
       exists this',
         Budget.setTotal newTotal this = (Normal tt, this') /\
         Budget.getSpent this' = Budget.getSpent this /\
         Budget.getTransactions this' = Budget.getTransactions this /\
         Budget.getRemaining this' = t - Budget.getSpent this /\
         (t < Budget.getSpent this ->
          Budget.getRemaining this' < 0 /\
          forall amount a, StringToBigInt amount = Some a -> 0 <= a ->
                           fst (Budget.canSpend amount this') = Normal false)) /\
    (StringToBigInt newTotal = None ->
     Budget.setTotal newTotal this =
       (Throw (ErrorObject "SyntaxError" ("Cannot convert " ++ newTotal ++ " to a BigInt")),
        this)).
Proof.
  intros this newTotal. split; [|split].
  - eexists. split; [reflexivity|]. repeat split.
    unfold Budget.getRemaining. simpl. lia.
  - intros t Ht. unfold Budget.setTotal, BigInt. rewrite Ht.
    eexists. split; [reflexivity|]. unfold Budget.getSpent, Budget.getRemaining. simpl.
    repeat split; try lia.
    intros amount a Ha Hpos. unfold Budget.canSpend, BigInt. rewrite Ha. simpl.
    f_equal. apply Z.leb_gt. lia.
  - intros Hbad. unfold Budget.setTotal, BigInt. now rewrite Hbad.
Qed.

Lemma reset_and_setTotal_witness :
  exists this',
    Budget.setTotal "500" (Budget.mkBudgetManager 5000 1000 []) = (Normal tt, this') /\
    Budget.getRemaining this' = -500 /\
    fst (Budget.canSpend "0" this') = Normal false.
Proof.
  destruct (proj1 (proj2 (reset_and_setTotal (Budget.mkBudgetManager 5000 1000 []) "500"))
              500 eq_refl) as (this' & Hrun & _ & _ & Hremaining & Hneg).
  exists this'. split; [exact Hrun|]. split; [exact Hremaining|].
  exact (proj2 (Hneg ltac:(simpl; lia)) "0" 0 eq_refl ltac:(lia)).
Defined.
